(** * ros_rsvp: the trial sequencer and scorer of [trial.py]

    A shallow embedding of [OptionResult] and [Trial] (src/trial.py) and the
    properties of the stimulus sequencing, of the trial state machine and of
    the scoring pass.

    Conventions of the embedding.
    - Python integers are [Z]; list positions produced by [enumerate] are
      [nat].
    - Exceptions are values of [exn]; a call that may raise returns a [res].
    - [random] is an explicit source of raw draws that is threaded through
      the calls; [int(random() * n)] is the next raw draw reduced modulo [n],
      so every value in [range(n)] can come out.
    - float64 values (Python's [float], numpy's [float64]) are the binary64
      floats of [PrimFloat]: every operation rounds, overflows and
      propagates [inf], [nan] and the sign of zero as IEEE 754 lays down.
      numpy's reductions on float64 arrays add the pairwise sum of the
      elements to [0.0] (numpy 1.9 and later).
    - the times handed to the timer are passed on unchanged; they are kept
      as rationals.
    - [heapq] is modelled by its contract (the least item is popped first),
      with the heap kept as an ordered list.
    - Rendering through pygame is an external effect; what is shown is kept
      as a [display] value, the Python arithmetic around it is modelled. *)

From Stdlib Require Import List ZArith QArith Lia Bool Permutation Sorted.
From Stdlib Require Import PeanoNat.
From Stdlib Require Import Floats.
Import ListNotations.

Set Implicit Arguments.

(* ================================================================== *)
(** * Part I: the model *)
(* ================================================================== *)

(** ** Python runtime *)
Module Py.

Inductive exn : Set :=
| IndexError
| ValueError
| ZeroDivisionError
| OverflowError
| RuntimeError.

(** Outcome of a call: a value, an exception, or a loop that was still
    running when the fuel of the model ran out. *)
Inductive res (A : Type) : Type :=
| Ok (a : A)
| Raise (e : exn)
| OutOfFuel.

Arguments Ok {A} a.
Arguments Raise {A} e.
Arguments OutOfFuel {A}.

Definition bind {A B} (m : res A) (k : A -> res B) : res B :=
  match m with
  | Ok a => k a
  | Raise e => Raise e
  | OutOfFuel => OutOfFuel
  end.

(** [l[i]] with Python's negative positions. *)
Definition index {A} (l : list A) (i : Z) : res A :=
  let n := Z.of_nat (length l) in
  let j := if (i <? 0)%Z then (i + n)%Z else i in
  if ((j <? 0) || (n <=? j))%Z%bool then Raise IndexError
  else match nth_error l (Z.to_nat j) with
       | Some a => Ok a
       | None => Raise IndexError
       end.

(** [l[i] = x] for a position already known to be in range; a position
    past the end leaves the list as it is. *)
Fixpoint setitem {A} (l : list A) (i : nat) (x : A) : list A :=
  match l, i with
  | [], _ => []
  | _ :: l', O => x :: l'
  | y :: l', S i' => y :: setitem l' i' x
  end.

(** [enumerate(l)], counting from [start]. *)
Fixpoint enumerate_from {A} (start : nat) (l : list A) : list (nat * A) :=
  match l with
  | [] => []
  | a :: l' => (start, a) :: enumerate_from (S start) l'
  end.

Definition enumerate {A} (l : list A) := enumerate_from 0 l.

(** An ordered list as [heapq] keeps one (see [Heapq]): an element goes
    in front of the first element whose key is not smaller, so equal keys
    keep the order of [l]. *)
Section Sorted.
Variables (A K : Type) (lt : K -> K -> bool) (key : A -> K).

Fixpoint insert (x : A) (l : list A) : list A :=
  match l with
  | [] => [x]
  | y :: l' => if lt (key y) (key x) then y :: insert x l' else x :: l
  end.

Definition sorted (l : list A) : list A := fold_right insert [] l.
End Sorted.

(** [sorted(l)] and [sorted(l, key=...)] as CPython's [listsort] computes
    them, with [lt] the [<] of the elements (of their keys): the run that
    the list starts with is counted ([count_run]; a strictly descending
    run is reversed), and the other elements are put in one by one, each
    at the place that a binary search finds ([binarysort]).  This is the
    whole of [listsort] for lists of fewer than 64 elements, whatever [<]
    answers (every comparison with nan is false); longer lists are cut
    into runs that are merged, with the same result whenever [<] orders
    the elements met (no nan among them). *)
Section ListSort.
Variables (A : Type) (lt : A -> A -> bool).

(** The length of the strictly descending run after [prev]. *)
Fixpoint run_desc (prev : A) (l : list A) : nat :=
  match l with
  | [] => 0%nat
  | x :: l' => if lt x prev then S (run_desc x l') else 0%nat
  end.

(** The length of the run after [prev] in which nothing descends. *)
Fixpoint run_asc (prev : A) (l : list A) : nat :=
  match l with
  | [] => 0%nat
  | x :: l' => if lt x prev then 0%nat else S (run_asc x l')
  end.

(** [count_run]: the length of the first run, and whether it descends. *)
Definition count_run (l : list A) : nat * bool :=
  match l with
  | [] => (0%nat, false)
  | [_] => (1%nat, false)
  | x :: y :: l' =>
      if lt y x then ((2 + run_desc y l')%nat, true)
      else ((2 + run_asc y l')%nat, false)
  end.

(** The search of [binarysort] between the positions [l] and [r] of [a]:
    [p = l + ((r - l) >> 1)], then [r = p] if [pivot < a[p]] and
    [l = p + 1] otherwise, until [l] meets [r]. *)
Fixpoint bisect (fuel : nat) (pivot : A) (a : list A) (l r : nat) : nat :=
  match fuel with
  | O => l
  | S fuel' =>
      if (l <? r)%nat then
        let p := (l + (r - l) / 2)%nat in
        match nth_error a p with
        | Some x =>
            if lt pivot x then bisect fuel' pivot a l p
            else bisect fuel' pivot a (S p) r
        | None => l
        end
      else l
  end.

(** One round of [binarysort]: [pivot] goes in at the place found. *)
Definition insort (a : list A) (pivot : A) : list A :=
  let l := bisect (length a) pivot a 0%nat (length a) in
  firstn l a ++ pivot :: skipn l a.

Definition binarysort (a rest : list A) : list A := fold_left insort rest a.

Definition list_sort (l : list A) : list A :=
  let '(n, descending) := count_run l in
  let run := firstn n l in
  binarysort (if descending then rev run else run) (skipn n l).
End ListSort.

End Py.

Import Py.

Declare Scope py_scope.
Notation "x <- m ;; k" := (Py.bind m (fun x => k))
  (at level 61, m at next level, right associativity) : py_scope.
Notation "' p <- m ;; k" := (Py.bind m (fun p => k))
  (at level 61, p pattern, m at next level, right associativity) : py_scope.
Open Scope py_scope.

(** ** The [random] module *)
Module Random.

(** The raw draws still to come; an exhausted source keeps drawing 0. *)
Definition rng := list nat.

(** [int(random() * n)] for [n > 0]. *)
Definition below (n : Z) (g : rng) : Z * rng :=
  match g with
  | [] => (0%Z, [])
  | r :: g' => ((Z.of_nat r mod n)%Z, g')
  end.

(** [random.randrange(start, stop)]. *)
Definition randrange (start stop : Z) (g : rng) : res (Z * rng) :=
  let width := (stop - start)%Z in
  if (0 <? width)%Z then
    let '(r, g') := below width g in Ok ((start + r)%Z, g')
  else Raise ValueError.

(** [x[i], x[j] = x[j], x[i]]: both reads come first. *)
Definition swap {A} (x : list A) (i j : nat) : list A :=
  match nth_error x i, nth_error x j with
  | Some xi, Some xj => setitem (setitem x i xj) j xi
  | _, _ => x
  end.

(** The loop of [random.shuffle], [i] running down to 1:
    [j = int(random() * (i+1)); x[i], x[j] = x[j], x[i]]. *)
Fixpoint shuffle_from {A} (i : nat) (x : list A) (g : rng) : list A * rng :=
  match i with
  | O => (x, g)
  | S i' =>
      let '(j, g') := below (Z.of_nat i + 1) g in
      shuffle_from i' (swap x i (Z.to_nat j)) g'
  end.

Definition shuffle {A} (x : list A) (g : rng) : list A * rng :=
  shuffle_from (length x - 1) x g.

End Random.

(** ** The [heapq] module, on items [(count, key)] *)
Module Heapq.

Abbreviation item := (Z * nat)%type (only parsing).

(** Tuple comparison [a < b]. *)
Definition item_lt (a b : item) : bool :=
  ((fst a <? fst b)%Z || ((fst a =? fst b)%Z && (snd a <? snd b)%nat))%bool.

Abbreviation heap := (list (Z * nat)) (only parsing).

Definition heappush (h : heap) (x : item) : heap :=
  Py.insert item_lt (fun a => a) x h.

Definition heapify (l : list item) : heap :=
  Py.sorted item_lt (fun a => a) l.

(** [heappop] of a heap that is not empty: the least item and the rest. *)
Definition heappop (h : heap) : res (item * heap) :=
  match h with
  | [] => Raise IndexError
  | x :: h' => Ok (x, h')
  end.

(** [heapreplace(h, x)]: pop the least item, then push [x]. *)
Definition heapreplace (h : heap) (x : item) : res (item * heap) :=
  match h with
  | [] => Raise IndexError
  | y :: h' => Ok (y, heappush h' x)
  end.

End Heapq.

(** ** Floats, numpy scalars and reductions *)
Module Np.

(** [float(n)] for a number of elements [n]: a list holds fewer than
    [2^63] elements, and up to there the conversion is [of_uint63]. *)
Definition of_count (n : Z) : float :=
  PrimFloat.of_uint63 (Uint63.of_Z n).

(** [float(z)] for a Python [int]: the nearest float, ties to even, and
    [OverflowError] when that is no finite float. *)
Definition float_of_int (z : Z) : res float :=
  let f := SF2Prim (binary_normalize prec emax z 0 false) in
  if PrimFloat.is_infinity f then Raise OverflowError else Ok f.

(** The eight running sums of [pairwise_sum]: [r[j] += a[i + j]] for
    every whole block of eight elements; the elements left over are
    returned with the sums. *)
Abbreviation lanes_t :=
  (float * float * float * float * float * float * float * float)%type.

Fixpoint add_blocks (r : lanes_t) (a : list float) : lanes_t * list float :=
  match a with
  | a0 :: a1 :: a2 :: a3 :: a4 :: a5 :: a6 :: a7 :: a' =>
      let '(r0, r1, r2, r3, r4, r5, r6, r7) := r in
      add_blocks (r0 + a0, r1 + a1, r2 + a2, r3 + a3,
                  r4 + a4, r5 + a5, r6 + a6, r7 + a7)%float a'
  | _ => (r, a)
  end.

(** [pairwise_sum] on up to 128 elements: fewer than eight are added to
    [0.] one after the other; from eight on, the first eight start the
    running sums, which are added two by two at the end, and the elements
    left over are added to the result. *)
Definition sum_block (a : list float) : float :=
  match a with
  | a0 :: a1 :: a2 :: a3 :: a4 :: a5 :: a6 :: a7 :: a' =>
      let '((r0, r1, r2, r3, r4, r5, r6, r7), rest) :=
        add_blocks (a0, a1, a2, a3, a4, a5, a6, a7) a' in
      fold_left PrimFloat.add rest
        (((r0 + r1) + (r2 + r3)) + ((r4 + r5) + (r6 + r7)))%float
  | _ => fold_left PrimFloat.add a 0%float
  end.

(** [pairwise_sum]: above 128 elements the data are cut in two, the first
    part a multiple of eight, and the sums of the parts added.  Every cut
    halves the data, so [depth] cuts are more than enough for [depth]
    elements. *)
Fixpoint pairwise_sum (depth : nat) (a : list float) : float :=
  match depth with
  | O => sum_block a
  | S depth' =>
      let n := length a in
      if (n <=? 128)%nat then sum_block a
      else
        let n2 := (n / 2 - (n / 2) mod 8)%nat in
        (pairwise_sum depth' (firstn n2 a)
         + pairwise_sum depth' (skipn n2 a))%float
  end.

(** [np.add.reduce] on a float64 array: the pairwise sum of the elements
    is added to the identity [0.0]. *)
Definition sum (l : list float) : float :=
  (0 + pairwise_sum (length l) l)%float.

(** [np.mean] (and [np.average] without weights): the sum divided by the
    number of elements; [0.0 / 0] is [nan] on no data. *)
Definition mean (l : list float) : float :=
  (sum l / of_count (Z.of_nat (length l)))%float.

(** [np.std]: the root of the mean of the squared differences from the
    mean ([x = arr - arrmean; x = x * x]). *)
Definition std (l : list float) : float :=
  let m := mean l in
  PrimFloat.sqrt (mean (map (fun x => let d := (x - m)%float in (d * d)%float)
                            l)).

(** [np.median]: [nan] when a value is nan; otherwise the mean of the
    middle element, or of the two middle elements, of the data put in
    order.  [0.0] and [-0.0] in either order give the same mean. *)
Definition median (l : list float) : float :=
  if existsb PrimFloat.is_nan l then PrimFloat.nan
  else
    let s := Py.list_sort PrimFloat.ltb l in
    let n := length l in
    let half := Nat.div n 2 in
    if Nat.even n
    then mean (firstn 2 (skipn (half - 1) s))
    else mean (firstn 1 (skipn half s)).

End Np.


(** ** [class OptionResult] *)
Module OptionResult.

Record t : Set := mk {
  eegs : list float;
  sort_positions : list float;
  idx : Z;
  expected_counts : Z
}.

Definition __init__ (idx expected_counts : Z) : t :=
  mk [] [] idx expected_counts.

Definition average_eeg (r : t) : float := Np.mean (eegs r).

(** [np.mean(sorted(self.eegs)[:2])] *)
Definition avg_best_two (r : t) : float :=
  Np.mean (firstn 2 (Py.list_sort PrimFloat.ltb (eegs r))).

Definition stdev_eeg (r : t) : float := Np.std (eegs r).

Definition average_sort_position (r : t) : float :=
  Np.mean (sort_positions r).

Definition stdev_sort_position (r : t) : float :=
  Np.std (sort_positions r).

(** [eegs.append(eeg); sort_positions.append(sort_position)] on the
    object. *)
Definition append (r : t) (eeg sort_position : float) : t :=
  mk (eegs r ++ [eeg]) (sort_positions r ++ [sort_position])
     (idx r) (expected_counts r).

End OptionResult.

(** ** Collaborators of [Trial] *)

(** One sample of [bci.get_block_results()] (or of
    [BlockResult.random_blocks]): the 1-based number of the flash it belongs
    to, the signal value and the rank position. *)
Record BlockResult : Set := mkBlockResult {
  image_id : Z;
  eeg : float;
  sort_position : float
}.

(** The message [RankResult]. *)
Record RankResult : Set := mkRankResult {
  option_ids : list Z;
  confidences : list float
}.

(** What a call puts on the screen; [Unchanged] when it draws nothing. *)
Inductive display : Set :=
| Preview (elements_per_side : nat) (ids : list Z)
| Flash (im_idx : nat) (id : Z)
| Unchanged.

(** ** [class Trial] *)
Module Trial.

Inductive State : Set := INIT | PREVIEW | RUNNING | COMPLETED | ABORTED.

(** The attributes of a [Trial].  An option is kept as its id (the
    surface is only handed to pygame); [option_results] is [None] until
    [process_results] creates the attribute. *)
Record t : Type := mk {
  mode : State;
  preview_time : Q;
  image_time : Q;
  options : list Z;
  min_repeat : Z;
  max_repeat : Z;
  index_list : list nat;
  option_counts : list Z;
  index_ptr : Z;
  selected_index_ptr : option Z;
  results : option (list BlockResult);
  option_results : option (list OptionResult.t)
}.

Definition set_mode (s : t) (m : State) : t :=
  mk m (preview_time s) (image_time s) (options s) (min_repeat s)
     (max_repeat s) (index_list s) (option_counts s) (index_ptr s)
     (selected_index_ptr s) (results s) (option_results s).

Definition set_index_ptr (s : t) (p : Z) : t :=
  mk (mode s) (preview_time s) (image_time s) (options s) (min_repeat s)
     (max_repeat s) (index_list s) (option_counts s) p
     (selected_index_ptr s) (results s) (option_results s).

Definition set_selected_index_ptr (s : t) (p : option Z) : t :=
  mk (mode s) (preview_time s) (image_time s) (options s) (min_repeat s)
     (max_repeat s) (index_list s) (option_counts s) (index_ptr s)
     p (results s) (option_results s).

Definition set_results (s : t) (r : option (list BlockResult)) : t :=
  mk (mode s) (preview_time s) (image_time s) (options s) (min_repeat s)
     (max_repeat s) (index_list s) (option_counts s) (index_ptr s)
     (selected_index_ptr s) r (option_results s).

Definition set_option_results (s : t) (r : option (list OptionResult.t)) : t :=
  mk (mode s) (preview_time s) (image_time s) (options s) (min_repeat s)
     (max_repeat s) (index_list s) (option_counts s) (index_ptr s)
     (selected_index_ptr s) (results s) r.

(** *** [_nonadjacent] *)

(** The [while heap:] loop and the [for] loop after it.  [hand] is the
    pair [(count, key)]; [None] stands for the initial [(0, None)], the
    only pair whose key is not a position.  The result is the list of the
    keys yielded. *)
Fixpoint nonadjacent_loop (fuel : nat) (heap : Heapq.heap)
    (hand : option Heapq.item) : res (list nat) :=
  match heap with
  | [] =>
      Ok (match hand with
          | None => []
          | Some (count, key) => repeat key (Z.to_nat (- count))
          end)
  | _ :: _ =>
      match fuel with
      | O => OutOfFuel
      | S fuel' =>
          '(count, key, heap') <-
            match hand with
            | None => Heapq.heappop heap
            | Some (count, key) =>
                if (count =? 0)%Z then Heapq.heappop heap
                else Heapq.heapreplace heap (count, key)
            end ;;
          rest <- nonadjacent_loop fuel' heap' (Some ((count + 1)%Z, key)) ;;
          Ok (key :: rest)
      end
  end.

Definition _nonadjacent (fuel : nat) (option_counts : list Z)
    : res (list nat) :=
  let heap :=
    Heapq.heapify
      (map (fun kc => ((- snd kc)%Z, fst kc)) (Py.enumerate option_counts)) in
  nonadjacent_loop fuel heap None.

(** *** [_construct_trial] *)

(** [[random.randrange(min_repeat, max_repeat) for _ in options]] *)
Fixpoint draw_counts (options : list Z) (min_repeat max_repeat : Z)
    (g : Random.rng) : res (list Z * Random.rng) :=
  match options with
  | [] => Ok ([], g)
  | _ :: options' =>
      '(c, g1) <- Random.randrange min_repeat max_repeat g ;;
      '(cs, g2) <- draw_counts options' min_repeat max_repeat g1 ;;
      Ok (c :: cs, g2)
  end.

Definition _construct_trial (options : list Z) (min_repeat max_repeat : Z)
    (fuel : nat) (g : Random.rng)
    : res (list nat * list Z * Random.rng) :=
  '(option_counts, g1) <- draw_counts options min_repeat max_repeat g ;;
  index_list <- _nonadjacent fuel option_counts ;;
  let '(index_list', g2) := Random.shuffle index_list g1 in
  Ok (index_list', option_counts, g2).

(** *** [__init__] *)

(** The scaling of the surfaces, the font and the shuffle of [BG_COLORS]
    after the construction belong to the display and are left out. *)
Definition __init__ (options : list Z) (preview_time image_time : Q)
    (min_repeat max_repeat : Z) (fuel : nat) (g : Random.rng) : res t :=
  let min_repeat' := Z.max 1 min_repeat in
  let max_repeat' := Z.max min_repeat' max_repeat in
  '(index_list, option_counts, _) <-
    _construct_trial options min_repeat' max_repeat' fuel g ;;
  Ok (mk INIT preview_time image_time options min_repeat' max_repeat'
         index_list option_counts 0 None None None).

(** *** [reset] *)
Definition reset (s : t) : t * Q :=
  let s := set_mode s INIT in
  let s := set_index_ptr s 0 in
  let s := set_selected_index_ptr s None in
  let s := set_results s None in
  (s, preview_time s).

(** *** [_display_preview_image] and [show_next_image] *)

(** [int(math.ceil(math.sqrt(n)))] *)
Definition elements_per_side (n : nat) : nat := Nat.sqrt_up n.

(** The grid cell is [size / elements_per_side], an integer division
    that raises when there is no option at all. *)
Definition _display_preview_image (s : t) : res display :=
  let e := elements_per_side (length (options s)) in
  if (e =? 0)%nat then Raise ZeroDivisionError
  else Ok (Preview e (options s)).

(** The cells of the grid that [_display_preview_image] draws the options
    into, in a window of [size]: for the option at position [counter] the
    rectangle [((row * grid_w, col * grid_h), (grid_w, grid_h))] with
    [row = counter / elements_per_side] and
    [col = counter % elements_per_side], all in integer arithmetic. *)
Record Rect : Set := mkRect {
  rect_left : Z;
  rect_top : Z;
  rect_width : Z;
  rect_height : Z
}.

Definition preview_cells (size : Z * Z) (n : nat) : res (list Rect) :=
  let e := elements_per_side n in
  if (e =? 0)%nat then Raise ZeroDivisionError
  else
    let grid_w := (fst size / Z.of_nat e)%Z in
    let grid_h := (snd size / Z.of_nat e)%Z in
    Ok (map (fun counter =>
               let row := Z.of_nat (counter / e) in
               let col := Z.of_nat (counter mod e) in
               mkRect (row * grid_w)%Z (col * grid_h)%Z grid_w grid_h)
            (seq 0 n)).

(** The call returns the new state together with the wait time and what
    is on the screen, or the exception; the attributes written before an
    exception stay written.  [bci.mark_unlabeled()] before a flash only
    notifies the signal collaborator. *)
Definition show_next_image (s : t) : t * res (Q * display) :=
  match mode s with
  | INIT =>
      let s := set_mode s PREVIEW in
      (s, d <- _display_preview_image s ;; Ok (preview_time s, d))
  | PREVIEW | RUNNING =>
      let s :=
        match mode s with
        | PREVIEW => set_index_ptr (set_mode s RUNNING) 0
        | _ => set_index_ptr s (index_ptr s + 1)
        end in
      if (Z.of_nat (length (index_list s)) <=? index_ptr s)%Z then
        (set_mode s COMPLETED, Ok (0, Unchanged))
      else
        (s, im_idx <- Py.index (index_list s) (index_ptr s) ;;
            id <- Py.index (options s) (Z.of_nat im_idx) ;;
            Ok (image_time s, Flash im_idx id))
  | COMPLETED | ABORTED => (s, Ok (0, Unchanged))
  end.

(** *** [process_results] *)

(** [[OptionResult(opt[0], self.option_counts[idx])
      for idx, opt in enumerate(self.options)]] *)
Fixpoint new_option_results (option_counts : list Z)
    (opts : list (nat * Z)) : res (list OptionResult.t) :=
  match opts with
  | [] => Ok []
  | (idx, opt) :: opts' =>
      c <- Py.index option_counts (Z.of_nat idx) ;;
      rs <- new_option_results option_counts opts' ;;
      Ok (OptionResult.__init__ opt c :: rs)
  end.

(** The loop [for result in self.results]: the objects of
    [option_results] are filled in place and [eegs] grows.  The first
    component is the list as the loop leaves it, also when it raises. *)
Fixpoint collect (index_list : list nat) (block : list BlockResult)
    (option_results : list OptionResult.t) (eegs : list float)
    : list OptionResult.t * res (list float) :=
  match block with
  | [] => (option_results, Ok eegs)
  | result :: block' =>
      match
        option_idx <- Py.index index_list (image_id result - 1) ;;
        r <- Py.index option_results (Z.of_nat option_idx) ;;
        Ok (option_idx, r)
      with
      | Ok (option_idx, r) =>
          collect index_list block'
            (Py.setitem option_results option_idx
               (OptionResult.append r (eeg result) (sort_position result)))
            (eegs ++ [eeg result])
      | Raise e => (option_results, Raise e)
      | OutOfFuel => (option_results, OutOfFuel)
      end
  end.

(** [def z(v)] *)
Definition z (overall_eeg_med overall_eeg_std v : float) : float :=
  ((overall_eeg_med - v) / overall_eeg_std)%float.

(** [sum(1 if abs(z(eeg)) > 0.5 else 0 for eeg in r.eegs)] *)
Definition num_correct (med sd : float) (r : OptionResult.t) : Z :=
  fold_left Z.add
    (map (fun eeg =>
            if (0.5 <? PrimFloat.abs (z med sd eeg))%float then 1%Z
            else 0%Z)
         (OptionResult.eegs r))
    0%Z.

(** [def percentage_correct(r)]: [num_correct * 1.0 / r.expected_counts],
    a product and a division of Python floats.  The count, an [int], is
    turned into a float; the division raises on a zero count. *)
Definition percentage_correct (med sd : float) (r : OptionResult.t)
    : res float :=
  let scaled := (Np.of_count (num_correct med sd r) * 1)%float in
  count <- Np.float_of_int (OptionResult.expected_counts r) ;;
  if (count =? 0)%float then Raise ZeroDivisionError
  else Ok (scaled / count)%float.

(** [z(res.average_eeg) * percentage_correct(res)] *)
Definition confidence (med sd : float) (r : OptionResult.t) : res float :=
  let zavg := z med sd (OptionResult.average_eeg r) in
  pc <- percentage_correct med sd r ;;
  Ok (zavg * pc)%float.

Fixpoint confidences_of (med sd : float) (rs : list OptionResult.t)
    : res (list float) :=
  match rs with
  | [] => Ok []
  | r :: rs' =>
      c <- confidence med sd r ;;
      cs <- confidences_of med sd rs' ;;
      Ok (c :: cs)
  end.

(** The key of the ranking: [lambda x: -x.avg_best_two]. *)
Definition rank_key (x : OptionResult.t) : float :=
  (- OptionResult.avg_best_two x)%float.

(** [sorted(option_results, key=lambda x: -x.avg_best_two)] *)
Definition rank (option_results : list OptionResult.t)
    : list OptionResult.t :=
  Py.list_sort (fun x y => (rank_key x <? rank_key y)%float)
    option_results.

(** From the ranking to the filled [RankResult] (source lines 162-176). *)
Definition score (option_results : list OptionResult.t)
    (eegs : list float) : res RankResult :=
  let ranked := rank option_results in
  let overall_eeg_med := Np.median eegs in
  let overall_eeg_std := Np.std eegs in
  cs <- confidences_of overall_eeg_med overall_eeg_std ranked ;;
  Ok (mkRankResult (map OptionResult.idx ranked) cs).

(** [confidences[1:]] *)
Definition others (result : RankResult) : list float :=
  tl (confidences result).

(** The condition of the [if] that raises
    [RuntimeError('not a good result')]. *)
Definition not_a_good_result (best_option avg_of_other_options
    std_of_other_options : float) : bool :=
  (PrimFloat.abs (best_option - avg_of_other_options)
   / std_of_other_options <? 2)%float.

(** The test on a filled [RankResult] (source lines 178-192). *)
Definition separation (result : RankResult) : res RankResult :=
  best_option <- Py.index (confidences result) 0 ;;
  let avg_of_other_options := Np.mean (others result) in
  let std_of_other_options := Np.std (others result) in
  if not_a_good_result best_option avg_of_other_options
       std_of_other_options
  then Raise RuntimeError
  else Ok result.

(** [block] is what [bci.get_block_results()], or
    [BlockResult.random_blocks] without a device, hands back (source
    lines 147-160).  [self.option_results] is bound to the list before
    the loop fills its objects, so it holds the filled, unranked objects
    afterwards. *)
Definition gather (s : t) (block : list BlockResult)
    : t * res (list OptionResult.t * list float) :=
  let s := set_results s (Some block) in
  match new_option_results (option_counts s) (Py.enumerate (options s)) with
  | Ok option_results =>
      let '(filled, r) := collect (index_list s) block option_results [] in
      (set_option_results s (Some filled), eegs <- r ;; Ok (filled, eegs))
  | Raise e => (s, Raise e)
  | OutOfFuel => (s, OutOfFuel)
  end.

(** The [RankResult] of the scoring pass, before it is tested. *)
Definition rank_result (s : t) (block : list BlockResult)
    : res RankResult :=
  '(filled, eegs) <- snd (gather s block) ;;
  score filled eegs.

(** The drawing of the selected option at the end is left to pygame. *)
Definition process_results (s : t) (block : list BlockResult)
    : t * res RankResult :=
  (fst (gather s block),
   result <- rank_result s block ;; separation result).

(** *** Runs of calls *)

Inductive call : Type :=
| CallShowNextImage
| CallReset
| CallProcessResults (block : list BlockResult).

Definition step (s : t) (c : call) : t :=
  match c with
  | CallShowNextImage => fst (show_next_image s)
  | CallReset => fst (reset s)
  | CallProcessResults block => fst (process_results s block)
  end.

(** The state after a sequence of calls, whatever they return or raise. *)
Definition run (s : t) (calls : list call) : t := fold_left step calls s.

(** [n] calls of [show_next_image]: what each returned, the mode it left
    and the final state. *)
Fixpoint advance (n : nat) (s : t)
    : list (res (Q * display) * State) * t :=
  match n with
  | O => ([], s)
  | S n' =>
      let '(s1, r) := show_next_image s in
      let '(rs, s2) := advance n' s1 in
      ((r, mode s1) :: rs, s2)
  end.

End Trial.

(** ** [class RSVPDisplay] (src/rsvp_display.py) *)
Module RSVPDisplay.

(** What the display does to its collaborators: the pygame timer of
    [EVENT_ID] ([0] switches it off), the action server and the signal
    device. *)
Inductive effect : Set :=
| SetTimer (ms : Q)
| SetAborted
| SetSucceeded (results : RankResult)
| BeginBlock
| EndBlock.

(** [int(1000.0 / PRESENTATION_FREQUENCY + 0.5)] with the frequency 4 *)
Definition PRESENTATION_DELAY : Q := 250.

(** The attributes [trial] and [ranking], whether a device is attached
    ([self.bci] is not [None]), and the effects so far, oldest first. *)
Record t : Type := mk {
  trial : option Trial.t;
  ranking : bool;
  use_bci : bool;
  effects : list effect
}.

Definition set_trial (d : t) (tr : option Trial.t) : t :=
  mk tr (ranking d) (use_bci d) (effects d).

Definition set_ranking (d : t) (b : bool) : t :=
  mk (trial d) b (use_bci d) (effects d).

Definition emit (d : t) (es : list effect) : t :=
  mk (trial d) (ranking d) (use_bci d) (effects d ++ es).

(** [self.bci and self.bci.f()] *)
Definition bci_call (d : t) (e : effect) : t :=
  if use_bci d then emit d [e] else d.

(** [reset]; [in_block] is what [self.bci.in_block] reads. *)
Definition reset (d : t) (in_block : bool) : t :=
  let d := set_ranking d false in
  let d := set_trial d None in
  let d := if in_block then bci_call d EndBlock else d in
  emit d [SetTimer 0].

(** [self.trial and not self.trial.mode in (ABORTED, COMPLETED)] *)
Definition busy (d : t) : bool :=
  match trial d with
  | None => false
  | Some tr =>
      match Trial.mode tr with
      | Trial.ABORTED | Trial.COMPLETED => false
      | _ => true
      end
  end.

(** [rank_image_cb], for a message with the ids [option_ids] and [n_imgs]
    compressed images, up to the loop in which the callback waits for
    [ranking] to fall.  The options are [zip(msg.option_ids, scaled_imgs)];
    the trial is built with [preview_time=5000],
    [image_time=PRESENTATION_DELAY] and the default repeat range 3, 7. *)
Definition rank_image_cb (d : t) (option_ids : list Z) (n_imgs : nat)
    (in_block : bool) (fuel : nat) (g : Random.rng) : t * res unit :=
  if busy d then (emit d [SetAborted], Ok tt)
  else
    let d := reset d in_block in
    if (0 <? n_imgs)%nat then
      match Trial.__init__ (firstn n_imgs option_ids) 5000
              PRESENTATION_DELAY 3 7 fuel g with
      | Ok tr =>
          let d := set_trial d (Some tr) in
          let d := set_ranking d true in
          let d := bci_call d BeginBlock in
          let '(tr1, r) := Trial.show_next_image tr in
          let d := set_trial d (Some tr1) in
          match r with
          | Ok (wait, _) => (emit d [SetTimer wait], Ok tt)
          | Raise e => (d, Raise e)
          | OutOfFuel => (d, OutOfFuel)
          end
      | Raise e => (d, Raise e)
      | OutOfFuel => (d, OutOfFuel)
      end
    else (emit d [SetAborted], Ok tt).

(** The branch of [do_loop] for an event of [EVENT_ID].  [block] is what
    the device (or the simulation) hands to [process_results]. *)
Definition on_timer (d : t) (block : list BlockResult) (in_block : bool)
    : t * res unit :=
  match trial d with
  | None => (d, Ok tt)
  | Some tr =>
      let '(tr1, r) := Trial.show_next_image tr in
      let d := set_trial d (Some tr1) in
      match r with
      | Ok (wait, _) =>
          let d := emit d [SetTimer wait] in
          match Trial.mode tr1 with
          | Trial.COMPLETED =>
              let d := bci_call d EndBlock in
              let '(tr2, r2) := Trial.process_results tr1 block in
              let d := set_trial d (Some tr2) in
              match r2 with
              | Ok results =>
                  let d := emit d [SetSucceeded results] in
                  let d := set_trial d None in
                  (set_ranking d false, Ok tt)
              | Raise RuntimeError =>
                  let d := bci_call d BeginBlock in
                  let '(tr3, wait3) := Trial.reset tr2 in
                  let d := set_trial d (Some tr3) in
                  (emit d [SetTimer wait3], Ok tt)
              | Raise e => (d, Raise e)
              | OutOfFuel => (d, OutOfFuel)
              end
          | Trial.ABORTED =>
              let d := emit d [SetAborted] in
              let d := set_ranking d false in
              let d := set_trial d None in
              let d := bci_call d EndBlock in
              (reset d in_block, Ok tt)
          | _ => (d, Ok tt)
          end
      | Raise e => (d, Raise e)
      | OutOfFuel => (d, OutOfFuel)
      end
  end.

(** [n] events of [EVENT_ID] in a row, as long as none raises. *)
Fixpoint timer_events (n : nat) (d : t) (block : list BlockResult)
    (in_block : bool) : t * res unit :=
  match n with
  | O => (d, Ok tt)
  | S n' =>
      match on_timer d block in_block with
      | (d1, Ok _) => timer_events n' d1 block in_block
      | other => other
      end
  end.

End RSVPDisplay.

(** ** Vocabulary of the properties *)

(** What an item of the heap still owes to position [k], and what a heap
    owes to it. *)
Definition owed (k : nat) (it : Heapq.item) : Z :=
  if (snd it =? k)%nat then (- fst it)%Z else 0%Z.

Definition weight (k : nat) (h : list Heapq.item) : Z :=
  fold_right (fun it acc => (owed k it + acc)%Z) 0%Z h.

Definition total (h : list Heapq.item) : Z :=
  fold_right (fun it acc => (- fst it + acc)%Z) 0%Z h.

Definition hand_item (hand : option Heapq.item) : list Heapq.item :=
  match hand with
  | None => []
  | Some it => [it]
  end.

(** The heap of the next round of [_nonadjacent], once the least item is
    out: the pair in hand goes back in unless its count is 0. *)
Definition next_heap (hand : option Heapq.item) (h : Heapq.heap)
    : Heapq.heap :=
  match hand with
  | None => h
  | Some (count, key) =>
      if (count =? 0)%Z then h else Heapq.heappush h (count, key)
  end.

Definition sum_counts (counts : list Z) : Z := fold_right Z.add 0%Z counts.

(** The pair in hand, when it goes back into the heap. *)
Definition back (hand : option Heapq.item) : list Heapq.item :=
  match hand with
  | None => []
  | Some (count, key) => if (count =? 0)%Z then [] else [(count, key)]
  end.

(** The counts of the items: negative in the heap, not positive in
    hand. *)
Definition ready (heap : Heapq.heap) (hand : option Heapq.item) : Prop :=
  Forall (fun it => (fst it <= -1)%Z) heap /\
  Forall (fun it => (fst it <= 0)%Z) (hand_item hand).

(** The keys in the heap and in hand. *)
Definition keys (heap : Heapq.heap) (hand : option Heapq.item)
    : list nat :=
  map snd heap ++ map snd (hand_item hand).

(** The items [(-count, key)] that [_nonadjacent] starts from. *)
Definition items_from (start : nat) (counts : list Z) : list Heapq.item :=
  map (fun kc : nat * Z => ((- snd kc)%Z, fst kc))
      (Py.enumerate_from start counts).

(** 1 when [a] is the element [k] that is being counted. *)
Definition hit {A} (eq_dec : forall a b : A, {a = b} + {a <> b}) (a k : A)
    : nat :=
  if eq_dec a k then 1%nat else 0%nat.

(** No two neighbours are equal, except inside a final run of one single
    option: if positions [i] and [i+1] hold the same option, nothing else
    comes from position [i] on. *)
Definition spread (order : list nat) : Prop :=
  forall i x, nth_error order i = Some x ->
              nth_error order (S i) = Some x ->
              forall j y, (i <= j)%nat -> nth_error order j = Some y -> y = x.

(** What [show_next_image] returns for a flash of position [im_idx]. *)
Definition flash_of (options : list Z) (image_time : Q) (im_idx : nat)
    : res (Q * display) :=
  id <- Py.index options (Z.of_nat im_idx) ;;
  Ok (image_time, Flash im_idx id).

(** The attributes that [show_next_image] reads. *)
Definition seq_view (s : Trial.t) :=
  (Trial.mode s, Trial.preview_time s, Trial.image_time s, Trial.options s,
   Trial.index_list s, Trial.index_ptr s).

(** The cursor stays within the order, and inside it while flashes run. *)
Definition cursor_ok (s : Trial.t) : Prop :=
  (0 <= Trial.index_ptr s <= Z.of_nat (length (Trial.index_list s)))%Z /\
  (Trial.mode s = Trial.RUNNING ->
   (Trial.index_ptr s < Z.of_nat (length (Trial.index_list s)))%Z).

(** Two states that differ in the sample buffers at most. *)
Definition same_but_buffers (s s' : Trial.t) : Prop :=
  Trial.mode s' = Trial.mode s /\
  Trial.preview_time s' = Trial.preview_time s /\
  Trial.image_time s' = Trial.image_time s /\
  Trial.options s' = Trial.options s /\
  Trial.min_repeat s' = Trial.min_repeat s /\
  Trial.max_repeat s' = Trial.max_repeat s /\
  Trial.index_list s' = Trial.index_list s /\
  Trial.option_counts s' = Trial.option_counts s /\
  Trial.index_ptr s' = Trial.index_ptr s /\
  Trial.selected_index_ptr s' = Trial.selected_index_ptr s.

(** [x] is not nan. *)
Definition not_nan (x : float) : Prop := PrimFloat.is_nan x = false.

(** [x <= y] as the floats compare. *)
Definition fle (x y : float) : Prop := (x <=? y)%float = true.

(** The statistic as the specification words it: the mean of the two
    largest signal values of the option. *)
Definition mean_of_two_largest (eegs : list float) : float :=
  Np.mean (firstn 2 (rev (Py.list_sort PrimFloat.ltb eegs))).

(** [a] and [b] are the two smallest values of [eegs]. *)
Definition two_smallest (eegs : list float) (a b : float) : Prop :=
  exists rest,
    Permutation eegs (a :: b :: rest) /\ fle a b /\
    Forall (fun v => fle b v) rest.

(** The top option is not set apart from the others: the quotient
    [|best - mean| / deviation], as the floats compute it, is below 2. *)
Definition insufficient (best_option avg_of_other_options
    std_of_other_options : float) : Prop :=
  (PrimFloat.abs (best_option - avg_of_other_options)
   / std_of_other_options <? 2)%float = true.

(** The rejection rule as the specification words it:
    [rest_std == 0 or |best - rest_mean| / rest_std < 2]. *)
Definition stated_rejection (best_option avg_of_other_options
    std_of_other_options : float) : Prop :=
  (std_of_other_options =? 0)%float = true \/
  insufficient best_option avg_of_other_options std_of_other_options.

(** The sample belongs to a flash of option [i]:
    [index_list[image_id - 1] == i]. *)
Definition resolves (index_list : list nat) (i : nat) (b : BlockResult)
    : bool :=
  match Py.index index_list (image_id b - 1) with
  | Ok j => (j =? i)%nat
  | _ => false
  end.

(** The number of values with [|z(value)| > 0.5], as the specification
    words it. *)
Definition count_above_half (med sd : float) (eegs : list float) : nat :=
  length
    (filter (fun v => (0.5 <? PrimFloat.abs (Trial.z med sd v))%float) eegs).

(** The sign bit of a float is clear, or the float is nan: the float is
    [0.0], positive, [inf] or [nan], and neither negative nor [-0.0]. *)
Definition sign_clear (x : spec_float) : Prop :=
  match x with
  | S754_zero s | S754_infinity s | S754_finite s _ _ => s = false
  | S754_nan => True
  end.

Definition not_negative (x : float) : Prop := sign_clear (Prim2SF x).

(** A float that is not nan, placed on a line: its class, then its
    exponent, then its mantissa. *)
Definition place (x : spec_float) : Z * Z * Z :=
  match x with
  | S754_infinity true => (-2, 0, 0)
  | S754_finite true m e => (-1, - e, Z.neg m)
  | S754_zero _ => (0, 0, 0)
  | S754_finite false m e => (1, e, Z.pos m)
  | S754_infinity false => (2, 0, 0)
  | S754_nan => (3, 0, 0)
  end%Z.

Definition before (a b : Z * Z * Z) : Prop :=
  let '(a1, a2, a3) := a in
  let '(b1, b2, b3) := b in
  (a1 < b1 \/ (a1 = b1 /\ (a2 < b2 \/ (a2 = b2 /\ a3 < b3))))%Z.

(** A completed trial of two options, flashed 0, 1, 0, 1, and a block in
    which option 0 scored 1 twice and option 1 scored 3 twice. *)
Definition two_option_trial : Trial.t :=
  Trial.mk Trial.COMPLETED 1000 100 [10; 20]%Z 1 3 [0; 1; 0; 1]%nat
    [2; 2]%Z 4 None None None.

Definition two_option_block : list BlockResult :=
  [mkBlockResult 1 1 0; mkBlockResult 2 3 0;
   mkBlockResult 3 1 0; mkBlockResult 4 3 0].

(** The [RankResult] of that pass: option 20 first with the
    confidence -1, then option 10 with the confidence 1. *)
Definition two_option_result : RankResult :=
  Eval vm_compute in
    match Trial.rank_result two_option_trial two_option_block with
    | Ok result => result
    | _ => mkRankResult [] []
    end.

(** A completed trial of three options, flashed 0, 1, 2, 0, 1, 2, and a
    block with the values 4, 4 for option 0, then 0, 8 and 3, 3. *)
Definition three_option_trial : Trial.t :=
  Trial.mk Trial.COMPLETED 1000 100 [10; 20; 30]%Z 1 3
    [0; 1; 2; 0; 1; 2]%nat [2; 2; 2]%Z 6 None None None.

Definition three_option_block : list BlockResult :=
  [mkBlockResult 1 4 0; mkBlockResult 2 0 0; mkBlockResult 3 3 0;
   mkBlockResult 4 4 0; mkBlockResult 5 8 0; mkBlockResult 6 3 0].

(** The [RankResult] of that pass: the options 10, 20, 30 with the
    confidences 0, about -0.21 and 0. *)
Definition three_option_result : RankResult :=
  Eval vm_compute in
    match Trial.rank_result three_option_trial three_option_block with
    | Ok result => result
    | _ => mkRankResult [] []
    end.

(** [n] flashes of the trial have been shown: the cursor is on flash
    [n - 1], or the trial is still in its preview. *)
Definition flashes_shown (s : Trial.t) (n : nat) : Prop :=
  (Trial.mode s = Trial.RUNNING /\
   Trial.index_ptr s = (Z.of_nat n - 1)%Z) \/
  (Trial.mode s = Trial.PREVIEW /\ n = 0%nat).

(** Two states of one trial: same options, order, counts and timings. *)
Definition same_sequence (s s' : Trial.t) : Prop :=
  Trial.index_list s' = Trial.index_list s /\
  Trial.option_counts s' = Trial.option_counts s /\
  Trial.options s' = Trial.options s /\
  Trial.preview_time s' = Trial.preview_time s /\
  Trial.image_time s' = Trial.image_time s.

(** The effects on the signal device, when one is attached. *)
Definition on_device (use_bci : bool) (es : list RSVPDisplay.effect)
    : list RSVPDisplay.effect :=
  if use_bci then es else [].

(** The display holds no trial in mode ABORTED. *)
Definition never_aborted (d : RSVPDisplay.t) : Prop :=
  forall tr, RSVPDisplay.trial d = Some tr -> Trial.mode tr <> Trial.ABORTED.


(* ================================================================== *)
(** * Part II: properties *)
(* ================================================================== *)

Unset Implicit Arguments.

(** ** Lists, [sorted] and item access *)
Section ListFacts.
Variables (A K : Type) (lt : K -> K -> bool) (key : A -> K).

Lemma insert_perm (x : A) (l : list A) :
  Permutation (Py.insert lt key x l) (x :: l).
Proof.
  induction l as [|y l IH]; simpl; [reflexivity|].
  destruct (lt (key y) (key x)); [|reflexivity].
  rewrite IH. apply perm_swap.
Qed.

Lemma sorted_perm (l : list A) : Permutation (Py.sorted lt key l) l.
Proof.
  induction l as [|x l IH]; simpl; [reflexivity|].
  rewrite insert_perm. now constructor.
Qed.

Lemma sorted_length (l : list A) : length (Py.sorted lt key l) = length l.
Proof. apply Permutation_length, sorted_perm. Qed.

Lemma index_of_nat (l : list A) (i : nat) (a : A) :
  nth_error l i = Some a -> Py.index l (Z.of_nat i) = Ok a.
Proof.
  intros H. unfold Py.index.
  assert (Hlt : (i < length l)%nat) by (apply nth_error_Some; congruence).
  destruct (Z.ltb_spec (Z.of_nat i) 0); [lia|].
  destruct (Z.ltb_spec (Z.of_nat i) 0); [lia|].
  destruct (Z.leb_spec (Z.of_nat (length l)) (Z.of_nat i)); [lia|].
  simpl. rewrite Nat2Z.id, H. reflexivity.
Qed.

Lemma index_of_nat_inv (l : list A) (i : nat) (a : A) :
  Py.index l (Z.of_nat i) = Ok a -> nth_error l i = Some a.
Proof.
  unfold Py.index.
  destruct (Z.ltb_spec (Z.of_nat i) 0); [lia|].
  destruct (Z.ltb_spec (Z.of_nat i) 0); [lia|].
  destruct (Z.leb_spec (Z.of_nat (length l)) (Z.of_nat i)); simpl;
    [discriminate|].
  rewrite Nat2Z.id. destruct (nth_error l i); congruence.
Qed.

Lemma setitem_length (l : list A) (i : nat) (x : A) :
  length (Py.setitem l i x) = length l.
Proof.
  revert i; induction l as [|y l IH]; intros [|i]; simpl; auto.
Qed.

Lemma setitem_same (l : list A) (i : nat) (x y : A) :
  nth_error l i = Some y -> nth_error (Py.setitem l i x) i = Some x.
Proof.
  revert i; induction l as [|a l IH]; intros [|i]; simpl; try discriminate;
    auto.
Qed.

Lemma setitem_other (l : list A) (i j : nat) (x : A) :
  i <> j -> nth_error (Py.setitem l i x) j = nth_error l j.
Proof.
  revert i j; induction l as [|a l IH]; intros [|i] [|j] Hne; simpl; auto;
    congruence.
Qed.

End ListFacts.

(** ** [random.shuffle] keeps the elements *)
Section Shuffle.
Variables (A : Type) (eq_dec : forall a b : A, {a = b} + {a <> b}).

Lemma setitem_count (l : list A) (i : nat) (x y k : A) :
  nth_error l i = Some y ->
  (count_occ eq_dec (Py.setitem l i x) k + hit eq_dec y k
   = count_occ eq_dec l k + hit eq_dec x k)%nat.
Proof.
  unfold hit. revert i; induction l as [|a l IH]; intros [|i] H; simpl in *;
    try discriminate.
  - injection H as ->.
    destruct (eq_dec x k), (eq_dec y k); lia.
  - specialize (IH _ H). destruct (eq_dec a k); lia.
Qed.

Lemma swap_count (l : list A) (i j : nat) (k : A) :
  count_occ eq_dec (Random.swap l i j) k = count_occ eq_dec l k.
Proof.
  unfold Random.swap.
  destruct (nth_error l i) as [xi|] eqn:Hi; [|reflexivity].
  destruct (nth_error l j) as [xj|] eqn:Hj; [|reflexivity].
  pose proof (setitem_count l i xj xi k Hi) as H1.
  destruct (Nat.eq_dec i j) as [->|Hne].
  - assert (xi = xj) by congruence; subst xj.
    pose proof (setitem_count _ j xi xi k (setitem_same _ l j xi xi Hi))
      as H2.
    lia.
  - assert (Hj' : nth_error (Py.setitem l i xj) j = Some xj)
      by (rewrite setitem_other; auto).
    pose proof (setitem_count _ j xi xj k Hj') as H2. lia.
Qed.

Lemma shuffle_from_count (i : nat) (l : list A) (g : Random.rng) (k : A) :
  count_occ eq_dec (fst (Random.shuffle_from i l g)) k
  = count_occ eq_dec l k.
Proof.
  revert l g; induction i as [|i IH]; intros l g; [reflexivity|].
  cbn [Random.shuffle_from].
  destruct (Random.below (Z.of_nat (S i) + 1) g) as [j g'].
  rewrite IH. apply swap_count.
Qed.

Lemma shuffle_perm (l : list A) (g : Random.rng) :
  Permutation (fst (Random.shuffle l g)) l.
Proof.
  apply (Permutation_count_occ eq_dec). intros k.
  apply shuffle_from_count.
Qed.

End Shuffle.

(** ** [_nonadjacent]: the greedy loop *)
Section NonAdjacent.

Lemma weight_perm (k : nat) (h h' : list Heapq.item) :
  Permutation h h' -> weight k h = weight k h'.
Proof. induction 1; simpl; lia. Qed.

Lemma total_perm (h h' : list Heapq.item) :
  Permutation h h' -> total h = total h'.
Proof. induction 1; simpl; lia. Qed.

Lemma heappush_perm (h : Heapq.heap) (x : Heapq.item) :
  Permutation (Heapq.heappush h x) (x :: h).
Proof. apply insert_perm. Qed.

Lemma heapify_perm (l : list Heapq.item) : Permutation (Heapq.heapify l) l.
Proof. apply sorted_perm. Qed.

Lemma next_heap_perm (hand : option Heapq.item) (h : Heapq.heap) :
  Permutation (next_heap hand h) (back hand ++ h).
Proof.
  destruct hand as [[c k]|]; simpl; [|reflexivity].
  destruct (c =? 0)%Z; simpl; [reflexivity|apply heappush_perm].
Qed.

(** One round of the loop. *)
Lemma loop_step fuel' c1 k1 h' hand :
  Trial.nonadjacent_loop (S fuel') ((c1, k1) :: h') hand
  = (rest <- Trial.nonadjacent_loop fuel' (next_heap hand h')
               (Some ((c1 + 1)%Z, k1)) ;;
     Ok (k1 :: rest)).
Proof.
  destruct hand as [[c k]|]; simpl; [destruct (c =? 0)%Z|]; reflexivity.
Qed.

(** One round of the loop, read off a run that returned. *)
Lemma loop_inv fuel heap hand l :
  Trial.nonadjacent_loop fuel heap hand = Ok l ->
  (heap = [] /\
   l = match hand with
       | None => []
       | Some (count, key) => repeat key (Z.to_nat (- count))
       end) \/
  (exists fuel' c1 k1 h' rest,
      fuel = S fuel' /\ heap = (c1, k1) :: h' /\
      Trial.nonadjacent_loop fuel' (next_heap hand h')
        (Some ((c1 + 1)%Z, k1)) = Ok rest /\
      l = k1 :: rest).
Proof.
  destruct heap as [|[c1 k1] h'].
  - destruct fuel; simpl; intros H; left; split; congruence.
  - destruct fuel as [|fuel']; [discriminate|].
    intros H. right. exists fuel', c1, k1, h'.
    rewrite loop_step in H.
    destruct (Trial.nonadjacent_loop fuel' (next_heap hand h')
                (Some ((c1 + 1)%Z, k1))) as [rest| |] eqn:E;
      cbn [Py.bind] in H; try discriminate.
    exists rest. repeat split; congruence.
Qed.

Lemma ready_next c1 k1 h' hand :
  ready ((c1, k1) :: h') hand ->
  ready (next_heap hand h') (Some ((c1 + 1)%Z, k1)).
Proof.
  intros [Hh Hd]. inversion Hh as [|? ? Hc Hh']; subst. simpl in Hc.
  split.
  - eapply Permutation_Forall; [symmetry; apply next_heap_perm|].
    apply Forall_app; split; [|assumption].
    destruct hand as [[c k]|]; simpl; [|constructor].
    destruct (Z.eqb_spec c 0); constructor; [|constructor].
    inversion Hd; subst; simpl in *. lia.
  - constructor; [simpl; lia|constructor].
Qed.

Lemma total_next c1 k1 h' hand :
  (total (next_heap hand h') + total [((c1 + 1)%Z, k1)]
   = total ((c1, k1) :: h') + total (hand_item hand) - 1)%Z.
Proof.
  rewrite (total_perm _ _ (next_heap_perm hand h')).
  destruct hand as [[c k]|]; simpl; [|lia].
  destruct (Z.eqb_spec c 0); simpl; lia.
Qed.

Lemma weight_next k c1 k1 h' hand :
  (weight k (next_heap hand h') + weight k [((c1 + 1)%Z, k1)]
   + Z.of_nat (hit Nat.eq_dec k1 k)
   = weight k ((c1, k1) :: h') + weight k (hand_item hand))%Z.
Proof.
  rewrite (weight_perm k _ _ (next_heap_perm hand h')).
  unfold hit, owed.
  destruct hand as [[c k0]|]; simpl; unfold owed; simpl.
  - destruct (Z.eqb_spec c 0); simpl; unfold owed; simpl;
      destruct (Nat.eqb_spec k1 k), (Nat.eq_dec k1 k), (Nat.eqb_spec k0 k);
      try contradiction; lia.
  - destruct (Nat.eqb_spec k1 k), (Nat.eq_dec k1 k); try contradiction; lia.
Qed.

(** With negative counts the loop comes to its end within as many rounds
    as there are keys to yield. *)
Lemma loop_returns fuel : forall heap hand,
  ready heap hand ->
  (total heap + total (hand_item hand) < Z.of_nat fuel)%Z ->
  exists l, Trial.nonadjacent_loop fuel heap hand = Ok l.
Proof.
  induction fuel as [|fuel IH]; intros heap hand Hr Hf.
  - destruct heap as [|[c1 k1] h']; [eexists; reflexivity|].
    exfalso. destruct Hr as [Hh Hd]. inversion Hh; subst; simpl in *.
    assert (0 <= total h')%Z.
    { clear - H2. induction H2; simpl; lia. }
    assert (0 <= total (hand_item hand))%Z.
    { destruct hand; simpl; [|lia]. inversion Hd; subst. lia. }
    lia.
  - destruct heap as [|[c1 k1] h']; [eexists; reflexivity|].
    destruct (IH (next_heap hand h') (Some ((c1 + 1)%Z, k1)))
      as [rest Hrest].
    + now apply ready_next.
    + pose proof (total_next c1 k1 h' hand) as Ht.
      change (hand_item (Some ((c1 + 1)%Z, k1))) with [((c1 + 1)%Z, k1)].
      lia.
    + exists (k1 :: rest). rewrite loop_step, Hrest. reflexivity.
Qed.

Lemma count_occ_repeat (k key : nat) (n : nat) :
  count_occ Nat.eq_dec (repeat key n) k
  = (n * hit Nat.eq_dec key k)%nat.
Proof.
  unfold hit. induction n as [|n IH]; simpl; [reflexivity|].
  rewrite IH. destruct (Nat.eq_dec key k); lia.
Qed.

(** Every position is yielded as often as the heap and the hand owe. *)
Lemma loop_count fuel k : forall heap hand l,
  ready heap hand ->
  Trial.nonadjacent_loop fuel heap hand = Ok l ->
  Z.of_nat (count_occ Nat.eq_dec l k)
  = (weight k heap + weight k (hand_item hand))%Z.
Proof.
  induction fuel as [|fuel IH]; intros heap hand l Hr H;
    apply loop_inv in H as [[-> ->]|(f & c1 & k1 & h' & rest & Hf & -> & Hl & ->)];
    try discriminate.
  - destruct hand as [[c k0]|]; simpl; [|reflexivity].
    rewrite count_occ_repeat. destruct Hr as [_ Hd].
    inversion Hd; subst; simpl in *. unfold owed, hit; simpl.
    destruct (Nat.eqb_spec k0 k), (Nat.eq_dec k0 k); try contradiction; lia.
  - destruct hand as [[c k0]|]; simpl; [|reflexivity].
    rewrite count_occ_repeat. destruct Hr as [_ Hd].
    inversion Hd; subst; simpl in *. unfold owed, hit; simpl.
    destruct (Nat.eqb_spec k0 k), (Nat.eq_dec k0 k); try contradiction; lia.
  - injection Hf as <-.
    pose proof (IH _ _ _ (ready_next _ _ _ _ Hr) Hl) as IH'.
    pose proof (weight_next k c1 k1 h' hand) as Hw.
    change (hand_item (Some ((c1 + 1)%Z, k1))) with [((c1 + 1)%Z, k1)] in IH'.
    cbn [count_occ]. unfold hit in Hw.
    destruct (Nat.eq_dec k1 k); lia.
Qed.

Lemma loop_length fuel : forall heap hand l,
  ready heap hand ->
  Trial.nonadjacent_loop fuel heap hand = Ok l ->
  Z.of_nat (length l) = (total heap + total (hand_item hand))%Z.
Proof.
  induction fuel as [|fuel IH]; intros heap hand l Hr H;
    apply loop_inv in H as [[-> ->]|(f & c1 & k1 & h' & rest & Hf & -> & Hl & ->)];
    try discriminate.
  - destruct hand as [[c k0]|]; simpl; [|reflexivity].
    rewrite repeat_length. destruct Hr as [_ Hd].
    inversion Hd; subst; simpl in *. lia.
  - destruct hand as [[c k0]|]; simpl; [|reflexivity].
    rewrite repeat_length. destruct Hr as [_ Hd].
    inversion Hd; subst; simpl in *. lia.
  - injection Hf as <-.
    pose proof (IH _ _ _ (ready_next _ _ _ _ Hr) Hl) as IH'.
    pose proof (total_next c1 k1 h' hand) as Ht.
    change (hand_item (Some ((c1 + 1)%Z, k1))) with [((c1 + 1)%Z, k1)] in IH'.
    cbn [length]. lia.
Qed.

End NonAdjacent.

(** ** [_nonadjacent]: neighbours *)
Section Spread.

Lemma spread_repeat (k n : nat) : spread (repeat k n).
Proof.
  intros i x Hi _ j y _ Hj.
  apply nth_error_In, repeat_spec in Hi.
  apply nth_error_In, repeat_spec in Hj. congruence.
Qed.

Lemma spread_cons_ne (x y : nat) (l : list nat) :
  x <> y -> spread (y :: l) -> spread (x :: y :: l).
Proof.
  intros Hne Hs [|i] a Hi HSi j b Hij Hj.
  - simpl in Hi, HSi. congruence.
  - destruct j as [|j]; [lia|].
    simpl in Hi, HSi, Hj. apply (Hs i a Hi HSi j b); [lia|assumption].
Qed.

Lemma keys_next c1 k1 h' hand :
  NoDup (keys ((c1, k1) :: h') hand) ->
  NoDup (keys (next_heap hand h') (Some ((c1 + 1)%Z, k1))).
Proof.
  unfold keys. intros H.
  apply (Permutation_NoDup (l := k1 :: map snd (back hand ++ h'))).
  - simpl. rewrite <- (Permutation_map snd (next_heap_perm hand h')).
    apply Permutation_cons_append.
  - simpl in H. rewrite map_app.
    destruct hand as [[c k0]|]; simpl in *.
    + destruct (c =? 0)%Z; simpl.
      * apply NoDup_app_remove_r with (l' := [k0]).
        exact H.
      * apply (Permutation_NoDup (l := k1 :: map snd h' ++ [k0]));
          [|exact H].
        constructor. symmetry. apply Permutation_cons_append.
    + now rewrite app_nil_r in H.
Qed.

Lemma loop_spread fuel : forall heap hand l,
  NoDup (keys heap hand) ->
  Trial.nonadjacent_loop fuel heap hand = Ok l ->
  spread l.
Proof.
  induction fuel as [|fuel IH]; intros heap hand l Hk H;
    apply loop_inv in H
      as [[-> ->]|(f & c1 & k1 & h' & rest & Hf & -> & Hl & ->)];
    try discriminate.
  - destruct hand as [[c k]|]; [apply spread_repeat|].
    intros [|i] x Hi; discriminate.
  - destruct hand as [[c k]|]; [apply spread_repeat|].
    intros [|i] x Hi; discriminate.
  - injection Hf as <-.
    pose proof (keys_next _ _ _ _ Hk) as Hk'.
    pose proof (IH _ _ _ Hk' Hl) as Hs.
    apply loop_inv in Hl
      as [[Hnil ->]|(f & c2 & k2 & h2 & rest' & _ & Hh & _ & ->)].
    + apply (spread_repeat k1 (S (Z.to_nat (- (c1 + 1))))).
    + apply spread_cons_ne; [|assumption].
      unfold keys in Hk'. rewrite Hh in Hk'. simpl in Hk'.
      intros <-. inversion Hk' as [|? ? Hnot _]; subst.
      apply Hnot, in_or_app. right. now left.
Qed.

End Spread.

(** ** [_nonadjacent]: from the counts to the order *)
Section FromCounts.

Lemma items_weight (k : nat) (counts : list Z) : forall start,
  weight k (items_from start counts)
  = if (start <=? k)%nat then nth (k - start) counts 0%Z else 0%Z.
Proof.
  induction counts as [|c cs IH]; intros start; simpl.
  - destruct (start <=? k)%nat; [destruct (k - start)%nat|]; reflexivity.
  - fold (items_from (S start) cs). rewrite IH. unfold owed; cbn [fst snd].
    destruct (Nat.eqb_spec start k) as [->|Hne].
    + rewrite Nat.sub_diag, Nat.leb_refl.
      destruct (Nat.leb_spec (S k) k); cbn [nth]; lia.
    + destruct (Nat.leb_spec start k), (Nat.leb_spec (S start) k);
        try lia.
      replace (k - start)%nat with (S (k - S start)) by lia. reflexivity.
Qed.

Lemma items_total (counts : list Z) : forall start,
  total (items_from start counts) = sum_counts counts.
Proof.
  induction counts as [|c cs IH]; intros start; simpl; [reflexivity|].
  fold (items_from (S start) cs). rewrite IH. lia.
Qed.

Lemma items_negative (counts : list Z) : forall start,
  Forall (fun c => (1 <= c)%Z) counts ->
  Forall (fun it : Heapq.item => (fst it <= -1)%Z) (items_from start counts).
Proof.
  induction counts as [|c cs IH]; intros start H; simpl; constructor;
    inversion H; subst; [simpl; lia|].
  now apply IH.
Qed.

Lemma items_keys (counts : list Z) : forall start,
  map snd (items_from start counts) = seq start (length counts).
Proof.
  induction counts as [|c cs IH]; intros start; simpl; [reflexivity|].
  fold (items_from (S start) cs). now rewrite IH.
Qed.

Lemma initial_heap (counts : list Z) :
  Forall (fun c => (1 <= c)%Z) counts ->
  let heap := Heapq.heapify (items_from 0 counts) in
  Permutation heap (items_from 0 counts) /\ ready heap None /\
  NoDup (keys heap None).
Proof.
  intros Hpos heap.
  assert (Hperm : Permutation heap (items_from 0 counts))
    by apply heapify_perm.
  split; [exact Hperm|]. split.
  - split; [|constructor].
    eapply Permutation_Forall; [symmetry; exact Hperm|].
    now apply items_negative.
  - unfold keys. simpl. rewrite app_nil_r.
    apply (Permutation_NoDup (l := map snd (items_from 0 counts))).
    + symmetry. now apply Permutation_map.
    + rewrite items_keys. apply seq_NoDup.
Qed.

(** [_nonadjacent] on counts that are all at least 1 returns within
    [sum(counts)] rounds. *)
Lemma nonadjacent_returns (fuel : nat) (counts : list Z) :
  Forall (fun c => (1 <= c)%Z) counts ->
  (sum_counts counts < Z.of_nat fuel)%Z ->
  exists l, Trial._nonadjacent fuel counts = Ok l.
Proof.
  intros Hpos Hfuel. unfold Trial._nonadjacent, Py.enumerate.
  change (map _ (Py.enumerate_from 0 counts)) with (items_from 0 counts).
  destruct (initial_heap counts Hpos) as (Hperm & Hr & _).
  apply loop_returns; [exact Hr|].
  rewrite (total_perm _ _ Hperm), items_total. simpl. lia.
Qed.

(** What it returns: every position comes out as often as its count
    says, and equal neighbours are confined to a final run of one
    option. *)
Lemma nonadjacent_correct (fuel : nat) (counts : list Z) (l : list nat) :
  Forall (fun c => (1 <= c)%Z) counts ->
  Trial._nonadjacent fuel counts = Ok l ->
  Z.of_nat (length l) = sum_counts counts /\
  (forall k, Z.of_nat (count_occ Nat.eq_dec l k) = nth k counts 0%Z) /\
  spread l.
Proof.
  intros Hpos. unfold Trial._nonadjacent, Py.enumerate.
  change (map _ (Py.enumerate_from 0 counts)) with (items_from 0 counts).
  destruct (initial_heap counts Hpos) as (Hperm & Hr & Hk).
  intros Hl. split; [|split].
  - rewrite (loop_length _ _ _ _ Hr Hl), (total_perm _ _ Hperm),
      items_total. simpl. lia.
  - intros k.
    rewrite (loop_count _ k _ _ _ Hr Hl), (weight_perm k _ _ Hperm),
      items_weight. simpl. rewrite Nat.sub_0_r. lia.
  - exact (loop_spread fuel _ None l Hk Hl).
Qed.

End FromCounts.

(** ** [_construct_trial] and [__init__] *)
Section Construction.

Lemma randrange_range (start stop : Z) (g : Random.rng) c g' :
  Random.randrange start stop g = Ok (c, g') ->
  (start <= c < stop)%Z.
Proof.
  unfold Random.randrange.
  destruct (Z.ltb_spec 0 (stop - start)); [|discriminate].
  destruct g as [|r g0]; simpl; intros E; injection E as <- _.
  - lia.
  - pose proof (Z.mod_pos_bound (Z.of_nat r) (stop - start)). lia.
Qed.

Lemma randrange_empty (start stop : Z) (g : Random.rng) :
  (stop <= start)%Z -> Random.randrange start stop g = Raise ValueError.
Proof.
  intros H. unfold Random.randrange.
  destruct (Z.ltb_spec 0 (stop - start)); [lia|reflexivity].
Qed.

Lemma randrange_returns (start stop : Z) (g : Random.rng) :
  (start < stop)%Z -> exists c g', Random.randrange start stop g = Ok (c, g').
Proof.
  intros H. unfold Random.randrange.
  destruct (Z.ltb_spec 0 (stop - start)); [|lia].
  destruct (Random.below (stop - start) g). eauto.
Qed.

(** The counts drawn: one per option, from [min_repeat] up to
    [max_repeat - 1]. *)
Lemma draw_counts_range (options : list Z) (mn mx : Z) :
  forall g counts g',
    Trial.draw_counts options mn mx g = Ok (counts, g') ->
    length counts = length options /\
    Forall (fun c => (mn <= c < mx)%Z) counts.
Proof.
  induction options as [|o options IH]; intros g counts g'; simpl.
  - intros E; injection E as <- _. split; [reflexivity|constructor].
  - destruct (Random.randrange mn mx g) as [[c g1]| |] eqn:Ec;
      simpl; try discriminate.
    destruct (Trial.draw_counts options mn mx g1) as [[cs g2]| |] eqn:Ecs;
      simpl; try discriminate.
    intros E; injection E as <- _.
    destruct (IH _ _ _ Ecs) as [Hlen Hall].
    split; [simpl; congruence|].
    constructor; [eapply randrange_range; eassumption|assumption].
Qed.

Lemma draw_counts_returns (options : list Z) (mn mx : Z) :
  (mn < mx)%Z ->
  forall g, exists counts g',
    Trial.draw_counts options mn mx g = Ok (counts, g').
Proof.
  intros H. induction options as [|o options IH]; intros g; simpl.
  - eauto.
  - destruct (randrange_returns mn mx g H) as (c & g1 & ->). simpl.
    destruct (IH g1) as (cs & g2 & ->). simpl. eauto.
Qed.

Lemma sum_counts_bound (counts : list Z) (mx : Z) :
  Forall (fun c => (c < mx)%Z) counts -> (0 <= mx)%Z ->
  (sum_counts counts <= Z.of_nat (length counts) * mx)%Z.
Proof.
  intros H Hmx. induction H; simpl sum_counts; [simpl; lia|].
  rewrite length_cons, Nat2Z.inj_succ. lia.
Qed.

(** What a constructed trial holds. *)
Lemma init_inv options pt it mn mx fuel g s :
  Trial.__init__ options pt it mn mx fuel g = Ok s ->
  Trial.mode s = Trial.INIT /\ Trial.index_ptr s = 0%Z /\
  Trial.options s = options /\
  Trial.preview_time s = pt /\ Trial.image_time s = it /\
  length (Trial.option_counts s) = length options /\
  Forall (fun c => (Z.max 1 mn <= c < Z.max (Z.max 1 mn) mx)%Z)
    (Trial.option_counts s) /\
  exists l g1,
    Trial._nonadjacent fuel (Trial.option_counts s) = Ok l /\
    Trial.index_list s = fst (Random.shuffle l g1).
Proof.
  unfold Trial.__init__, Trial._construct_trial.
  destruct (Trial.draw_counts options (Z.max 1 mn)
              (Z.max (Z.max 1 mn) mx) g) as [[counts g1]| |] eqn:Ec;
    simpl; try discriminate.
  destruct (Trial._nonadjacent fuel counts) as [l| |] eqn:El;
    simpl; try discriminate.
  destruct (Random.shuffle l g1) as [l' g2] eqn:Es. simpl.
  intros E; injection E as <-. simpl.
  destruct (draw_counts_range _ _ _ _ _ _ Ec) as [Hlen Hall].
  repeat split; auto.
  exists l, g1. rewrite Es. auto.
Qed.

(** Construction succeeds when the range of counts is not empty. *)
Lemma init_returns options pt it mn mx fuel g :
  (Z.max 1 mn < mx)%Z ->
  (Z.of_nat (length options) * mx < Z.of_nat fuel)%Z ->
  exists s, Trial.__init__ options pt it mn mx fuel g = Ok s.
Proof.
  intros Hr Hf. unfold Trial.__init__, Trial._construct_trial.
  replace (Z.max (Z.max 1 mn) mx) with mx by lia.
  destruct (draw_counts_returns options (Z.max 1 mn) mx Hr g)
    as (counts & g1 & Ec).
  rewrite Ec. simpl.
  destruct (draw_counts_range _ _ _ _ _ _ Ec) as [Hlen Hall].
  destruct (nonadjacent_returns fuel counts) as [l El].
  - eapply Forall_impl; [|exact Hall]. simpl. lia.
  - pose proof (sum_counts_bound counts mx) as Hb.
    rewrite Hlen in Hb.
    assert (sum_counts counts <= Z.of_nat (length options) * mx)%Z.
    { apply Hb; [|lia]. eapply Forall_impl; [|exact Hall]. simpl. lia. }
    lia.
  - rewrite El. simpl. destruct (Random.shuffle l g1). simpl. eauto.
Qed.

(** The order of a constructed trial against its counts. *)
Lemma init_order options pt it mn mx fuel g s :
  Trial.__init__ options pt it mn mx fuel g = Ok s ->
  Z.of_nat (length (Trial.index_list s))
  = sum_counts (Trial.option_counts s) /\
  (forall k,
      Z.of_nat (count_occ Nat.eq_dec (Trial.index_list s) k)
      = nth k (Trial.option_counts s) 0%Z) /\
  Forall (fun i => (i < length (Trial.options s))%nat)
    (Trial.index_list s).
Proof.
  intros H.
  destruct (init_inv _ _ _ _ _ _ _ _ H)
    as (_ & _ & Ho & _ & _ & Hlen & Hall & l & g1 & Hl & Hs).
  assert (Hpos : Forall (fun c => (1 <= c)%Z) (Trial.option_counts s)).
  { eapply Forall_impl; [|exact Hall]. simpl. lia. }
  destruct (nonadjacent_correct _ _ _ Hpos Hl) as (Hlen' & Hcnt & _).
  pose proof (shuffle_perm _ Nat.eq_dec l g1) as Hperm.
  rewrite <- Hs in Hperm.
  assert (Hc : forall k,
    Z.of_nat (count_occ Nat.eq_dec (Trial.index_list s) k)
    = nth k (Trial.option_counts s) 0%Z).
  { intros k. rewrite <- Hcnt. f_equal.
    now apply (Permutation_count_occ Nat.eq_dec). }
  split; [|split; [exact Hc|]].
  - rewrite (Permutation_length Hperm). exact Hlen'.
  - apply Forall_forall. intros i Hi.
    apply (count_occ_In Nat.eq_dec) in Hi.
    specialize (Hc i). rewrite Ho, <- Hlen.
    destruct (Nat.lt_ge_cases i (length (Trial.option_counts s)));
      [assumption|].
    rewrite nth_overflow in Hc by assumption. lia.
Qed.

End Construction.

(** ** The state machine *)
Section StateMachine.

(** No call rebuilds the sequence or touches the options and timings. *)
Lemma step_frame (s : Trial.t) (c : Trial.call) :
  Trial.index_list (Trial.step s c) = Trial.index_list s /\
  Trial.option_counts (Trial.step s c) = Trial.option_counts s /\
  Trial.options (Trial.step s c) = Trial.options s /\
  Trial.preview_time (Trial.step s c) = Trial.preview_time s /\
  Trial.image_time (Trial.step s c) = Trial.image_time s.
Proof.
  destruct c as [| |block]; cbn [Trial.step].
  - unfold Trial.show_next_image.
    destruct (Trial.mode s) eqn:Em; cbn; auto;
      match goal with
      | |- context [if ?b then _ else _] => destruct b
      end; cbn; auto.
  - cbn. auto.
  - unfold Trial.process_results, Trial.gather. cbn [fst].
    destruct (Trial.new_option_results _ _); cbn; auto.
    destruct (Trial.collect _ _ _ _); cbn; auto.
Qed.

Lemma run_frame (calls : list Trial.call) : forall s,
  Trial.index_list (Trial.run s calls) = Trial.index_list s /\
  Trial.option_counts (Trial.run s calls) = Trial.option_counts s /\
  Trial.options (Trial.run s calls) = Trial.options s /\
  Trial.preview_time (Trial.run s calls) = Trial.preview_time s /\
  Trial.image_time (Trial.run s calls) = Trial.image_time s.
Proof.
  induction calls as [|c calls IH]; intros s; cbn [Trial.run fold_left];
    [auto|].
  destruct (IH (Trial.step s c)) as (H1 & H2 & H3 & H4 & H5).
  destruct (step_frame s c) as (F1 & F2 & F3 & F4 & F5).
  unfold Trial.run in *. repeat split; congruence.
Qed.

(** [show_next_image] reads the sequencing attributes only. *)
Lemma show_next_image_view (s1 s2 : Trial.t) :
  seq_view s1 = seq_view s2 ->
  snd (Trial.show_next_image s1) = snd (Trial.show_next_image s2) /\
  seq_view (fst (Trial.show_next_image s1))
  = seq_view (fst (Trial.show_next_image s2)).
Proof.
  destruct s1 as [m pt it opts mn mx il oc ip sel rs ors], s2.
  unfold seq_view. cbn. intros E.
  injection E as <- <- <- <- <- <-.
  unfold Trial.show_next_image. cbn.
  destruct m; cbn; auto;
    match goal with
    | |- context [if ?b then _ else _] => destruct b
    end; cbn; auto.
Qed.

Lemma advance_view (n : nat) : forall s1 s2,
  seq_view s1 = seq_view s2 ->
  fst (Trial.advance n s1) = fst (Trial.advance n s2).
Proof.
  induction n as [|n IH]; intros s1 s2 E; [reflexivity|].
  cbn [Trial.advance].
  destruct (show_next_image_view s1 s2 E) as [Hout Hview].
  destruct (Trial.show_next_image s1) as [s1' r1].
  destruct (Trial.show_next_image s2) as [s2' r2].
  cbn [fst snd] in *. subst r2.
  specialize (IH s1' s2' Hview).
  destruct (Trial.advance n s1'), (Trial.advance n s2'). cbn in *.
  f_equal; [|assumption].
  f_equal. unfold seq_view in Hview. congruence.
Qed.

(** The flashes from a position on, up to the call that completes the
    trial. *)
Lemma advance_flashes (rest : list nat) : forall pre s,
  Trial.index_list s = pre ++ rest ->
  (Trial.mode s = Trial.RUNNING /\
   Trial.index_ptr s = (Z.of_nat (length pre) - 1)%Z) \/
  (Trial.mode s = Trial.PREVIEW /\ pre = []) ->
  exists final,
    Trial.advance (S (length rest)) s
    = (map (fun i => (flash_of (Trial.options s) (Trial.image_time s) i,
                      Trial.RUNNING)) rest
       ++ [(Ok (0, Unchanged), Trial.COMPLETED)], final) /\
    Trial.mode final = Trial.COMPLETED /\
    Trial.index_ptr final = Z.of_nat (length (Trial.index_list s)) /\
    Trial.index_list final = Trial.index_list s.
Proof.
  induction rest as [|x rest IH]; intros pre s Hl Hm.
  - rewrite app_nil_r in Hl. cbn [length Trial.advance map app].
    destruct s as [m pt it opts mn mx il oc ip sel rs ors]; cbn in *.
    subst il.
    unfold Trial.show_next_image; cbn.
    destruct Hm as [[-> ->]|[-> ->]]; cbn.
    + replace (Z.of_nat (length pre) - 1 + 1)%Z with (Z.of_nat (length pre))
        by lia.
      rewrite Z.leb_refl. cbn. eexists; repeat split.
    + eexists; repeat split.
  - cbn [length]. change (Trial.advance (S (S (length rest))) s)
      with (let '(s1, r) := Trial.show_next_image s in
            let '(rs, s2) := Trial.advance (S (length rest)) s1 in
            ((r, Trial.mode s1) :: rs, s2)).
    set (s1 := Trial.set_index_ptr (Trial.set_mode s Trial.RUNNING)
                 (Z.of_nat (length pre))).
    assert (Hstep : Trial.show_next_image s
                    = (s1, flash_of (Trial.options s) (Trial.image_time s) x)).
    { assert (Hx : nth_error (pre ++ x :: rest) (length pre) = Some x).
      { rewrite nth_error_app2 by lia. now rewrite Nat.sub_diag. }
      apply index_of_nat in Hx.
      subst s1. destruct s as [m pt it opts mn mx il oc ip sel rs ors]; cbn in *.
    subst il.
      unfold Trial.show_next_image; cbn.
      destruct Hm as [[-> ->]|[-> ->]]; cbn.
      - replace (Z.of_nat (length pre) - 1 + 1)%Z
          with (Z.of_nat (length pre)) by lia.
        destruct (Z.leb_spec
                    (Z.of_nat (length (pre ++ x :: rest)))
                    (Z.of_nat (length pre))) as [Hle|_].
        { rewrite length_app in Hle. cbn in Hle. lia. }
        cbn. rewrite Hx. reflexivity.
      - reflexivity. }
    rewrite Hstep.
    destruct (IH (pre ++ [x]) s1) as (final & Hadv & Hmode & Hptr & Hil).
    + subst s1. cbn. rewrite Hl, <- app_assoc. reflexivity.
    + left. subst s1. cbn. split; [reflexivity|].
      rewrite length_app. cbn. lia.
    + exists final. rewrite Hadv. subst s1. cbn in *.
      repeat split; assumption.
Qed.

(** Every call keeps the cursor within the order. *)
Lemma step_cursor (s : Trial.t) (c : Trial.call) :
  cursor_ok s -> cursor_ok (Trial.step s c).
Proof.
  unfold cursor_ok. destruct c as [| |block]; cbn [Trial.step].
  - destruct s as [m pt it opts mn mx il oc ip sel rs ors];
      unfold Trial.show_next_image; cbn.
    intros [Hb Hr].
    destruct m; cbn; try (split; [lia|intros; try discriminate; auto]).
    + destruct (Z.leb_spec (Z.of_nat (length il)) 0); cbn;
        (split; [lia|intros; try discriminate; lia]).
    + destruct (Z.leb_spec (Z.of_nat (length il)) (ip + 1)); cbn;
        (split; [specialize (Hr eq_refl); lia
                |intros; try discriminate; lia]).
  - cbn. intros _. split; [lia|discriminate].
  - unfold Trial.process_results, Trial.gather. cbn [fst].
    destruct (Trial.new_option_results _ _); cbn; auto.
    destruct (Trial.collect _ _ _ _); cbn; auto.
Qed.

End StateMachine.

(** ** The sequence builder *)

(** C8: for every list of counts that are all at least 1, the order that
    [_construct_trial] builds from them ([_nonadjacent], then
    [random.shuffle]) is as long as the sum of the counts and holds every
    position exactly as often as its count says; and no later call
    ([show_next_image], [reset], [process_results]) changes the order or
    the counts, so this stays true for the whole life of the trial. *)
Theorem order_holds_the_counts (counts : list Z) (fuel : nat)
    (g : Random.rng) :
  Forall (fun c => (1 <= c)%Z) counts ->
  (sum_counts counts < Z.of_nat fuel)%Z ->
  exists l,
    Trial._nonadjacent fuel counts = Ok l /\
    let order := fst (Random.shuffle l g) in
    Z.of_nat (length order) = sum_counts counts /\
    (forall k, Z.of_nat (count_occ Nat.eq_dec order k) = nth k counts 0%Z) /\
    (forall s calls,
        Trial.index_list s = order -> Trial.option_counts s = counts ->
        Trial.index_list (Trial.run s calls) = order /\
        Trial.option_counts (Trial.run s calls) = counts).
Proof.
  intros Hpos Hfuel.
  destruct (nonadjacent_returns fuel counts Hpos Hfuel) as [l Hl].
  exists l. split; [exact Hl|].
  destruct (nonadjacent_correct fuel counts l Hpos Hl) as (Hlen & Hcnt & _).
  pose proof (shuffle_perm _ Nat.eq_dec l g) as Hperm.
  cbv zeta. split; [|split].
  - rewrite (Permutation_length Hperm). exact Hlen.
  - intros k. rewrite <- Hcnt. f_equal.
    now apply (Permutation_count_occ Nat.eq_dec).
  - intros s calls Hil Hoc.
    destruct (run_frame calls s) as (H1 & H2 & _). split; congruence.
Qed.

Lemma order_holds_the_counts_witness :
  exists l,
    Trial._nonadjacent 4 [2; 1]%Z = Ok l /\
    let order := fst (Random.shuffle l [1; 1]%nat) in
    Z.of_nat (length order) = sum_counts [2; 1]%Z /\
    (forall k,
        Z.of_nat (count_occ Nat.eq_dec order k) = nth k [2; 1]%Z 0%Z) /\
    (forall s calls,
        Trial.index_list s = order -> Trial.option_counts s = [2; 1]%Z ->
        Trial.index_list (Trial.run s calls) = order /\
        Trial.option_counts (Trial.run s calls) = [2; 1]%Z).
Proof.
  apply (order_holds_the_counts [2; 1]%Z 4 [1; 1]%nat).
  - repeat constructor; discriminate.
  - reflexivity.
Defined.

(** The same for a trial as [__init__] builds it, with the counts it
    drew, at every later state. *)
Lemma built_trial_keeps_the_counts (options : list Z) (pt it : Q)
    (mn mx : Z) (fuel : nat) (g : Random.rng) (s : Trial.t)
    (calls : list Trial.call) :
  Trial.__init__ options pt it mn mx fuel g = Ok s ->
  let s' := Trial.run s calls in
  Z.of_nat (length (Trial.index_list s'))
  = sum_counts (Trial.option_counts s') /\
  (forall k,
      Z.of_nat (count_occ Nat.eq_dec (Trial.index_list s') k)
      = nth k (Trial.option_counts s') 0%Z).
Proof.
  intros H. cbv zeta.
  destruct (init_order _ _ _ _ _ _ _ _ H) as (Hlen & Hcnt & _).
  destruct (run_frame calls s) as (-> & -> & _).
  split; assumption.
Qed.

(** C2, on the failing input: with two options and counts drawn from
    [range(1, 3)], the draws 1, 0 give the counts [[2, 1]], for which
    [_nonadjacent] yields 0, 1, 0; the shuffle draws 1, 1 then turn this
    into 0, 0, 1, where option 0 is flashed twice in a row while option 1
    is still to come. *)
Theorem shuffle_brings_neighbours_together :
  Trial._nonadjacent 10 [2; 1]%Z = Ok [0; 1; 0]%nat /\
  Trial._construct_trial [10; 20]%Z 1 3 10 [1; 0; 1; 1]%nat
  = Ok ([0; 0; 1]%nat, [2; 1]%Z, []) /\
  ~ spread [0; 0; 1]%nat.
Proof.
  split; [reflexivity|]. split; [reflexivity|].
  intros H.
  specialize (H 0%nat 0%nat eq_refl eq_refl 2%nat 1%nat (Nat.le_0_l 2) eq_refl).
  discriminate.
Qed.

(** C4, on the failing input: with three options and
    [min_repeat = max_repeat = 3] the constructor raises [ValueError],
    whatever the random source, since [randrange(3, 3)] has an empty
    range. *)
Theorem init_min_equal_max_raises (o1 o2 o3 : Z) (pt it : Q) (fuel : nat)
    (g : Random.rng) :
  Trial.__init__ [o1; o2; o3] pt it 3 3 fuel g = Raise ValueError.
Proof. reflexivity. Qed.

(** More generally the count [max_repeat] itself is never drawn, and the
    constructor raises as soon as there is an option and [max_repeat] does
    not exceed [min_repeat]. *)
Lemma init_empty_range_raises (o : Z) (options : list Z) (pt it : Q)
    (mn mx : Z) (fuel : nat) (g : Random.rng) :
  (mx <= Z.max 1 mn)%Z ->
  Trial.__init__ (o :: options) pt it mn mx fuel g = Raise ValueError.
Proof.
  intros H. unfold Trial.__init__, Trial._construct_trial.
  cbn [Trial.draw_counts]. rewrite randrange_empty by lia. reflexivity.
Qed.

(** ** The trial state machine *)

(** C6: a trial as [__init__] leaves it, with at least one option, is
    driven by [2 + len(index_list)] calls of [show_next_image] through
    PREVIEW, one RUNNING flash per entry of the order, to COMPLETED: the
    first call shows the preview and returns [preview_time], every flash
    returns [image_time], the last call returns 0; in COMPLETED and in
    ABORTED a call changes nothing and returns 0. *)
Theorem show_next_image_drives_the_trial (options : list Z) (pt it : Q)
    (mn mx : Z) (fuel : nat) (g : Random.rng) (s : Trial.t) :
  Trial.__init__ options pt it mn mx fuel g = Ok s ->
  options <> [] ->
  exists final,
    Trial.advance (2 + length (Trial.index_list s)) s
    = ((Ok (pt, Preview (Trial.elements_per_side (length options)) options),
        Trial.PREVIEW)
       :: map (fun i => (Ok (it, Flash i (nth i options 0%Z)),
                         Trial.RUNNING))
              (Trial.index_list s)
       ++ [(Ok (0, Unchanged), Trial.COMPLETED)], final) /\
    Trial.mode final = Trial.COMPLETED /\
    (forall s',
        Trial.mode s' = Trial.COMPLETED \/ Trial.mode s' = Trial.ABORTED ->
        Trial.show_next_image s' = (s', Ok (0, Unchanged))).
Proof.
  intros Hinit Hne.
  destruct (init_inv _ _ _ _ _ _ _ _ Hinit)
    as (Hm & _ & Ho & Hpt & Hit & _).
  destruct (init_order _ _ _ _ _ _ _ _ Hinit) as (_ & _ & Hwf).
  assert (Hside : Trial.elements_per_side (length options) <> 0%nat).
  { unfold Trial.elements_per_side.
    destruct options as [|o os]; [congruence|].
    pose proof (proj2 (Nat.sqrt_up_pos (length (o :: os)))) as Hp.
    cbn [length] in *. lia. }
  set (s1 := Trial.set_mode s Trial.PREVIEW).
  assert (Hfirst : Trial.show_next_image s
                   = (s1, Ok (pt, Preview
                        (Trial.elements_per_side (length options)) options))).
  { unfold Trial.show_next_image, Trial._display_preview_image.
    rewrite Hm. cbn. rewrite Ho, Hpt.
    destruct (Nat.eqb_spec (Trial.elements_per_side (length options)) 0);
      [contradiction|reflexivity]. }
  destruct (advance_flashes (Trial.index_list s) [] s1)
    as (final & Hadv & Hmode & _).
  { reflexivity. }
  { right. split; reflexivity. }
  exists final. split; [|split; [exact Hmode|]].
  - change (2 + length (Trial.index_list s))%nat
      with (S (S (length (Trial.index_list s)))).
    change (Trial.advance (S (S (length (Trial.index_list s)))) s)
      with (let '(s1, r) := Trial.show_next_image s in
            let '(rs, s2) :=
              Trial.advance (S (length (Trial.index_list s))) s1 in
            ((r, Trial.mode s1) :: rs, s2)).
    rewrite Hfirst.
    change (Trial.index_list s1) with (Trial.index_list s) in Hadv.
    rewrite Hadv. cbn.
    f_equal. f_equal. f_equal.
    apply map_ext_in. intros i Hi. f_equal.
    rewrite Forall_forall in Hwf. specialize (Hwf i Hi).
    unfold flash_of. rewrite Ho in *. rewrite Hit.
    rewrite (index_of_nat _ options i (nth i options 0%Z)); [reflexivity|].
    now apply nth_error_nth'.
  - intros s' [H|H]; unfold Trial.show_next_image; rewrite H; reflexivity.
Qed.

Lemma show_next_image_drives_the_trial_witness :
  exists s,
    Trial.__init__ [10; 20]%Z 1000 100 1 3 10 [1; 0; 1; 1]%nat = Ok s /\
    exists final,
      Trial.advance (2 + length (Trial.index_list s)) s
      = ((Ok (1000, Preview (Trial.elements_per_side 2) [10; 20]%Z),
          Trial.PREVIEW)
         :: map (fun i => (Ok (100, Flash i (nth i [10; 20]%Z 0%Z)),
                           Trial.RUNNING))
                (Trial.index_list s)
         ++ [(Ok (0, Unchanged), Trial.COMPLETED)], final) /\
      Trial.mode final = Trial.COMPLETED /\
      (forall s',
          Trial.mode s' = Trial.COMPLETED \/ Trial.mode s' = Trial.ABORTED ->
          Trial.show_next_image s' = (s', Ok (0, Unchanged))).
Proof.
  eexists. split; [reflexivity|].
  apply (show_next_image_drives_the_trial
           [10; 20]%Z 1000 100 1 3 10 [1; 0; 1; 1]%nat).
  - reflexivity.
  - discriminate.
Defined.

(** C7: [reset] puts the mode back to INIT and the cursor to 0, returns
    [preview_time] and leaves the order and the counts as they are; so
    whatever was called in between, a run after [reset] returns and shows
    exactly what a run after [reset] did before: the same preview and the
    same flashes in the same order. *)
Theorem reset_replays_the_same_sequence (s : Trial.t) :
  Trial.mode (fst (Trial.reset s)) = Trial.INIT /\
  Trial.index_ptr (fst (Trial.reset s)) = 0%Z /\
  snd (Trial.reset s) = Trial.preview_time s /\
  Trial.index_list (fst (Trial.reset s)) = Trial.index_list s /\
  Trial.option_counts (fst (Trial.reset s)) = Trial.option_counts s /\
  (forall calls n,
      fst (Trial.advance n (fst (Trial.reset (Trial.run s calls))))
      = fst (Trial.advance n (fst (Trial.reset s)))).
Proof.
  repeat split.
  intros calls n. apply advance_view.
  destruct (run_frame calls s) as (H1 & _ & H3 & H4 & H5).
  unfold seq_view. cbn. congruence.
Qed.

(** C9: whether [process_results] returns or raises, the state it leaves
    differs from the one it found in [results] and [option_results] only:
    mode, cursor, order and counts are untouched, and [results] holds the
    samples of the block. *)
Theorem process_results_writes_the_buffers_only (s : Trial.t)
    (block : list BlockResult) :
  same_but_buffers s (fst (Trial.process_results s block)) /\
  Trial.results (fst (Trial.process_results s block)) = Some block.
Proof.
  unfold same_but_buffers, Trial.process_results, Trial.gather. cbn [fst].
  destruct (Trial.new_option_results _ _); cbn; [|repeat split..].
  destruct (Trial.collect _ _ _ _); cbn. repeat split.
Qed.

(** C10: starting from a trial as the constructor leaves it (INIT, cursor
    0), after any sequence of calls the cursor lies between 0 and
    [len(index_list)], and whenever the mode is RUNNING it is a valid
    position of [index_list], so the lookup of the flash succeeds. *)
Theorem cursor_stays_in_bounds (s : Trial.t) (calls : list Trial.call) :
  Trial.mode s = Trial.INIT ->
  Trial.index_ptr s = 0%Z ->
  let s' := Trial.run s calls in
  (0 <= Trial.index_ptr s' <= Z.of_nat (length (Trial.index_list s')))%Z /\
  (Trial.mode s' = Trial.RUNNING ->
   (0 <= Trial.index_ptr s' < Z.of_nat (length (Trial.index_list s')))%Z /\
   exists im_idx,
     Py.index (Trial.index_list s') (Trial.index_ptr s') = Ok im_idx).
Proof.
  intros Hm Hp.
  assert (Hok : cursor_ok (Trial.run s calls)).
  { assert (H0 : cursor_ok s).
    { split; [lia|]. congruence. }
    clear Hm Hp. revert s H0.
    induction calls as [|c calls IH]; intros s H0; [exact H0|].
    apply IH, step_cursor, H0. }
  cbv zeta. destruct Hok as [Hb Hr]. split; [exact Hb|].
  intros Hrun. specialize (Hr Hrun). split; [lia|].
  destruct (nth_error (Trial.index_list (Trial.run s calls))
              (Z.to_nat (Trial.index_ptr (Trial.run s calls))))
    as [x|] eqn:E.
  - exists x. rewrite <- (Z2Nat.id (Trial.index_ptr (Trial.run s calls)))
      by lia.
    now apply index_of_nat.
  - apply nth_error_None in E. lia.
Qed.

Lemma cursor_stays_in_bounds_witness :
  let s := Trial.mk Trial.INIT 1000 100 [10; 20]%Z 1 3 [0; 1; 0]%nat
             [2; 1]%Z 0 None None None in
  let s' := Trial.run s [Trial.CallShowNextImage; Trial.CallShowNextImage;
                         Trial.CallShowNextImage] in
  (0 <= Trial.index_ptr s' <= Z.of_nat (length (Trial.index_list s')))%Z /\
  (Trial.mode s' = Trial.RUNNING ->
   (0 <= Trial.index_ptr s' < Z.of_nat (length (Trial.index_list s')))%Z /\
   exists im_idx,
     Py.index (Trial.index_list s') (Trial.index_ptr s') = Ok im_idx).
Proof.
  intros s.
  apply (cursor_stays_in_bounds s
           [Trial.CallShowNextImage; Trial.CallShowNextImage;
            Trial.CallShowNextImage]); reflexivity.
Defined.

(** ** [sorted] rearranges, and orders what [<] orders *)
Section ListSortFacts.
Variables (A : Type) (lt : A -> A -> bool).

Lemma insort_perm (a : list A) (x : A) :
  Permutation (Py.insort lt a x) (x :: a).
Proof.
  unfold Py.insort. symmetry.
  rewrite <- (firstn_skipn (Py.bisect lt (length a) x a 0 (length a)) a)
    at 1.
  apply Permutation_middle.
Qed.

Lemma binarysort_perm (rest : list A) : forall a,
  Permutation (Py.binarysort lt a rest) (a ++ rest).
Proof.
  induction rest as [|x rest IH]; intros a; cbn.
  - now rewrite app_nil_r.
  - unfold Py.binarysort in IH. rewrite IH, insort_perm.
    apply (Permutation_middle a rest x).
Qed.

Lemma list_sort_perm (l : list A) : Permutation (Py.list_sort lt l) l.
Proof.
  unfold Py.list_sort. destruct (Py.count_run lt l) as [n d].
  rewrite binarysort_perm.
  transitivity (firstn n l ++ skipn n l);
    [|rewrite firstn_skipn; reflexivity].
  apply Permutation_app_tail.
  destruct d; [symmetry; apply Permutation_rev|reflexivity].
Qed.

(** *** The result is in order when [lt] orders the elements met *)
Variable P : A -> Prop.
Hypothesis lt_asym : forall a b, P a -> P b -> lt a b = true -> lt b a = false.
Hypothesis le_trans : forall a b c, P a -> P b -> P c ->
  lt b a = false -> lt c b = false -> lt c a = false.

(** [a] is not after [b]. *)
Let R (a b : A) : Prop := P a /\ P b /\ lt b a = false.

Lemma R_trans (a b c : A) : R a b -> R b c -> R a c.
Proof.
  intros (Pa & Pb & H1) (_ & Pc & H2). repeat split; auto.
  exact (le_trans a b c Pa Pb Pc H1 H2).
Qed.

Lemma strongly (R' : A -> A -> Prop) (l : list A) :
  (forall a b c, R' a b -> R' b c -> R' a c) ->
  Sorted R' l -> StronglySorted R' l.
Proof.
  intros Ht. apply Sorted_StronglySorted. exact Ht.
Qed.

Lemma StronglySorted_app (R' : A -> A -> Prop) (l1 l2 : list A) :
  StronglySorted R' l1 -> StronglySorted R' l2 ->
  (forall a b, In a l1 -> In b l2 -> R' a b) ->
  StronglySorted R' (l1 ++ l2).
Proof.
  induction 1 as [|x l1 Hs IH Hx]; intros H2 Hc; cbn; [assumption|].
  constructor.
  - apply IH; [assumption|]. intros a b Ha Hb. apply Hc; [now right|assumption].
  - apply Forall_app. split; [assumption|].
    apply Forall_forall. intros b Hb. apply Hc; [now left|assumption].
Qed.

Lemma StronglySorted_rev (R' : A -> A -> Prop) (l : list A) :
  StronglySorted R' l -> StronglySorted (fun a b => R' b a) (rev l).
Proof.
  induction 1 as [|x l Hs IH Hx]; cbn; [constructor|].
  apply StronglySorted_app; [assumption|repeat constructor|].
  intros a b Ha [<-|[]]. apply in_rev in Ha.
  rewrite Forall_forall in Hx. now apply Hx.
Qed.

Lemma run_asc_sorted (l : list A) : forall prev,
  P prev -> Forall P l ->
  Sorted R (prev :: firstn (Py.run_asc lt prev l) l).
Proof.
  induction l as [|x l IH]; intros prev Hp Hl; cbn.
  - repeat constructor.
  - inversion Hl as [|? ? Hx Hl']; subst.
    destruct (lt x prev) eqn:E; cbn.
    + repeat constructor.
    + constructor; [now apply IH|].
      constructor. repeat split; assumption.
Qed.

Lemma run_desc_sorted (l : list A) : forall prev,
  P prev -> Forall P l ->
  Sorted (fun a b => R b a) (prev :: firstn (Py.run_desc lt prev l) l).
Proof.
  induction l as [|x l IH]; intros prev Hp Hl; cbn.
  - repeat constructor.
  - inversion Hl as [|? ? Hx Hl']; subst.
    destruct (lt x prev) eqn:E; cbn.
    + constructor; [now apply IH|].
      constructor. repeat split; try assumption.
      now apply lt_asym.
    + repeat constructor.
Qed.

Lemma sorted_split (a : list A) : forall p x,
  StronglySorted R a -> nth_error a p = Some x ->
  Forall (fun y => R y x) (firstn p a) /\ Forall (R x) (skipn (S p) a).
Proof.
  induction a as [|y a IH]; intros [|p] x Hs Hn; cbn in Hn; try discriminate.
  - injection Hn as <-. inversion Hs; subst. split; [constructor|assumption].
  - inversion Hs as [|? ? Hs' Hy]; subst.
    destruct (IH _ _ Hs' Hn) as [H1 H2]. split; [|exact H2].
    cbn. constructor; [|exact H1].
    rewrite Forall_forall in Hy. apply Hy. eapply nth_error_In; eassumption.
Qed.

Lemma firstn_succ_nth (a : list A) : forall p x,
  nth_error a p = Some x -> firstn (S p) a = firstn p a ++ [x].
Proof.
  induction a as [|y a IH]; intros [|p] x Hn; cbn in Hn; try discriminate.
  - now injection Hn as <-.
  - cbn. f_equal. now apply IH.
Qed.

Lemma skipn_nth (a : list A) : forall p x,
  nth_error a p = Some x -> skipn p a = x :: skipn (S p) a.
Proof.
  induction a as [|y a IH]; intros [|p] x Hn; cbn in Hn; try discriminate.
  - now injection Hn as <-.
  - now apply IH.
Qed.

(** The place that the search finds: nothing before it is after the
    pivot, everything from it on is. *)
Lemma bisect_place (pivot : A) (a : list A) :
  P pivot -> Forall P a -> StronglySorted R a ->
  forall fuel l r,
    (l <= r <= length a)%nat -> (r - l <= fuel)%nat ->
    Forall (fun y => lt pivot y = false) (firstn l a) ->
    Forall (fun y => lt pivot y = true) (skipn r a) ->
    let k := Py.bisect lt fuel pivot a l r in
    (k <= length a)%nat /\
    Forall (fun y => lt pivot y = false) (firstn k a) /\
    Forall (fun y => lt pivot y = true) (skipn k a).
Proof.
  intros Hp HP Hs.
  induction fuel as [|fuel IH]; intros l r Hlr Hf Hl Hr;
    cbn [Py.bisect]; cbv zeta.
  - assert (l = r) by lia. subst r. split; [lia|]. split; assumption.
  - destruct (Nat.ltb_spec l r) as [Hlt|Hge].
    + set (p := (l + (r - l) / 2)%nat).
      assert (Hpr : (l <= p < r)%nat).
      { subst p. split; [lia|].
        assert ((r - l) / 2 < r - l)%nat by (apply Nat.div_lt; lia). lia. }
      destruct (nth_error a p) as [x|] eqn:Ex;
        [|apply nth_error_None in Ex; lia].
      destruct (sorted_split a p x Hs Ex) as [Hbefore Hafter].
      assert (Px : P x).
      { rewrite Forall_forall in HP. apply HP.
        eapply nth_error_In; eassumption. }
      destruct (lt pivot x) eqn:E.
      * apply (IH l p); [lia|lia|assumption|].
        rewrite (skipn_nth a p x Ex). constructor; [assumption|].
        eapply Forall_impl; [|exact Hafter].
        intros y (_ & Py & Hxy).
        destruct (lt pivot y) eqn:Ey; [reflexivity|].
        rewrite (le_trans x y pivot Px Py Hp Hxy Ey) in E. discriminate.
      * apply (IH (S p) r); [lia|lia| |assumption].
        rewrite (firstn_succ_nth a p x Ex). apply Forall_app. split.
        -- eapply Forall_impl; [|exact Hbefore].
           intros y (Py & _ & Hyx).
           exact (le_trans y x pivot Py Px Hp Hyx E).
        -- repeat constructor. assumption.
    + assert (l = r) by lia. subst r. split; [lia|]. split; assumption.
Qed.

Lemma insort_sorted (a : list A) (pivot : A) :
  P pivot -> Forall P a -> StronglySorted R a ->
  StronglySorted R (Py.insort lt a pivot).
Proof.
  intros Hp HP Hs. unfold Py.insort.
  destruct (bisect_place pivot a Hp HP Hs (length a) 0 (length a))
    as (Hk & Hb & Ha); [lia|lia|constructor|rewrite skipn_all; constructor|].
  set (k := Py.bisect lt (length a) pivot a 0 (length a)) in *.
  assert (Hs' : StronglySorted R (firstn k a ++ skipn k a))
    by now rewrite firstn_skipn.
  assert (HPf : Forall P (firstn k a)).
  { apply Forall_forall. intros y Hy. rewrite Forall_forall in HP.
    apply HP. rewrite <- (firstn_skipn k a). apply in_or_app. now left. }
  assert (HPs : Forall P (skipn k a)).
  { apply Forall_forall. intros y Hy. rewrite Forall_forall in HP.
    apply HP. rewrite <- (firstn_skipn k a). apply in_or_app. now right. }
  clearbody k. clear Hs Hk HP.
  induction (firstn k a) as [|y f IH]; cbn in *.
  - constructor; [assumption|].
    rewrite Forall_forall in Ha, HPs. apply Forall_forall. intros z Hz.
    repeat split; auto.
  - inversion Hs' as [|? ? Hs'' Hy]; subst.
    inversion Hb as [|? ? Hby Hb']; subst.
    inversion HPf as [|? ? Py HPf']; subst.
    constructor; [now apply IH|].
    apply Forall_app in Hy. destruct Hy as [Hy1 Hy2].
    apply Forall_app. split; [assumption|].
    constructor; [repeat split; assumption|assumption].
Qed.

Lemma binarysort_sorted (rest : list A) : forall a,
  Forall P a -> Forall P rest -> StronglySorted R a ->
  StronglySorted R (Py.binarysort lt a rest).
Proof.
  induction rest as [|x rest IH]; intros a Ha Hr Hs; cbn; [assumption|].
  inversion Hr as [|? ? Hx Hr']; subst.
  apply IH; [|assumption|now apply insort_sorted].
  eapply Permutation_Forall; [symmetry; apply insort_perm|].
  now constructor.
Qed.

Lemma list_sort_sorted (l : list A) :
  Forall P l ->
  StronglySorted (fun a b => lt b a = false) (Py.list_sort lt l).
Proof.
  intros HP.
  assert (H : StronglySorted R (Py.list_sort lt l)).
  { unfold Py.list_sort.
    destruct (Py.count_run lt l) as [n d] eqn:Ec.
    assert (Hf : Forall P (firstn n l)).
    { apply Forall_forall. intros y Hy. rewrite Forall_forall in HP.
      apply HP. rewrite <- (firstn_skipn n l). apply in_or_app. now left. }
    assert (Hsk : Forall P (skipn n l)).
    { apply Forall_forall. intros y Hy. rewrite Forall_forall in HP.
      apply HP. rewrite <- (firstn_skipn n l). apply in_or_app. now right. }
    apply binarysort_sorted; [| assumption |].
    - destruct d; [|assumption].
      eapply Permutation_Forall; [apply Permutation_rev|assumption].
    - destruct l as [|x [|y l]]; cbn in Ec.
      + injection Ec as <- <-. constructor.
      + injection Ec as <- <-. repeat constructor.
      + inversion HP as [|? ? Px HP']; subst.
        inversion HP' as [|? ? Py HP'']; subst.
        destruct (lt y x) eqn:E; injection Ec as <- <-.
        * apply (StronglySorted_rev (fun a b => R b a)).
          apply strongly; [intros a b c H1 H2; exact (R_trans c b a H2 H1)|].
          cbn [Nat.add firstn]. constructor.
          -- now apply run_desc_sorted.
          -- constructor. repeat split; auto.
        * apply strongly; [exact R_trans|].
          cbn [Nat.add firstn]. constructor.
          -- now apply run_asc_sorted.
          -- constructor. repeat split; auto. }
  clear HP. induction H as [|x l' Hs IH Hx]; constructor; [assumption|].
  eapply Forall_impl; [|exact Hx]. intros y (_ & _ & Hy). exact Hy.
Qed.

End ListSortFacts.
(** ** Floats *)
Section Floats.

(** *** Signs *)

Lemma binary_round_aux_sign (m e : Z) (l : location) :
  sign_clear (binary_round_aux prec emax false m e l).
Proof.
  unfold binary_round_aux.
  destruct (shr_fexp prec emax m e l) as [mrs e1].
  destruct (shr_fexp prec emax _ e1 loc_Exact) as [mrs2 e2].
  destruct (shr_m mrs2); [reflexivity| |exact I].
  destruct (Z.leb e2 _); reflexivity.
Qed.

Lemma binary_normalize_sign (z e : Z) :
  (0 <= z)%Z -> sign_clear (binary_normalize prec emax z e false).
Proof.
  intros Hz. destruct z as [|p|p]; [reflexivity| |lia].
  cbn [binary_normalize]. unfold binary_round.
  destruct (shl_align p e _) as [mz ez]. apply binary_round_aux_sign.
Qed.

Lemma SFadd_sign (x y : spec_float) :
  sign_clear x -> sign_clear y -> sign_clear (SFadd prec emax x y).
Proof.
  destruct x as [sx|sx| |sx mx ex], y as [sy|sy| |sy my ey]; cbn;
    intros Hx Hy; subst; cbn; auto.
  apply (binary_normalize_sign (Z.pos _ + Z.pos _)). lia.
Qed.

Lemma SFmul_sign (x : spec_float) : sign_clear (SFmul prec emax x x).
Proof.
  destruct x as [s|s| |s m e]; cbn; try (destruct s; reflexivity); auto.
  replace (xorb s s) with false by (destruct s; reflexivity).
  apply binary_round_aux_sign.
Qed.

Lemma SFdiv_sign (x y : spec_float) :
  sign_clear x -> sign_clear y -> sign_clear (SFdiv prec emax x y).
Proof.
  destruct x as [sx|sx| |sx mx ex], y as [sy|sy| |sy my ey]; cbn;
    intros Hx Hy; subst; cbn; auto.
  destruct (SFdiv_core_binary prec emax (Zpos mx) ex (Zpos my) ey)
    as [[mz ez] lz].
  apply binary_round_aux_sign.
Qed.

Lemma SFsqrt_sign (x : spec_float) :
  sign_clear x -> sign_clear (SFsqrt prec emax x).
Proof.
  destruct x as [s|s| |s m e]; cbn; intros H; subst; cbn; auto.
  destruct (SFsqrt_core_binary prec emax (Zpos m) e) as [[mz ez] lz].
  apply binary_round_aux_sign.
Qed.


Lemma not_negative_zero : not_negative 0%float.
Proof. reflexivity. Qed.

Lemma not_negative_add (x y : float) :
  not_negative x -> not_negative y -> not_negative (x + y)%float.
Proof. unfold not_negative. rewrite add_spec. apply SFadd_sign. Qed.

Lemma not_negative_square (x : float) : not_negative (x * x)%float.
Proof. unfold not_negative. rewrite mul_spec. apply SFmul_sign. Qed.

Lemma not_negative_div (x y : float) :
  not_negative x -> not_negative y -> not_negative (x / y)%float.
Proof. unfold not_negative. rewrite div_spec. apply SFdiv_sign. Qed.

Lemma not_negative_sqrt (x : float) :
  not_negative x -> not_negative (PrimFloat.sqrt x).
Proof. unfold not_negative. rewrite sqrt_spec. apply SFsqrt_sign. Qed.

Lemma not_negative_of_count (n : Z) : not_negative (Np.of_count n).
Proof.
  unfold not_negative, Np.of_count. rewrite of_uint63_spec.
  apply binary_normalize_sign. apply Uint63.to_Z_bounded.
Qed.

Lemma sum_not_negative (l : list float) : forall acc,
  Forall not_negative l -> not_negative acc ->
  not_negative (fold_left PrimFloat.add l acc).
Proof.
  induction l as [|x l IH]; intros acc Hl Ha; cbn [fold_left]; [exact Ha|].
  inversion Hl; subst. apply IH; [assumption|].
  now apply not_negative_add.
Qed.

Lemma add_blocks_not_negative (a : list float) : forall r0 r1 r2 r3 r4 r5 r6 r7,
  Forall not_negative a ->
  Forall not_negative [r0; r1; r2; r3; r4; r5; r6; r7] ->
  match Np.add_blocks (r0, r1, r2, r3, r4, r5, r6, r7) a with
  | ((s0, s1, s2, s3, s4, s5, s6, s7), rest) =>
      Forall not_negative [s0; s1; s2; s3; s4; s5; s6; s7] /\
      Forall not_negative rest
  end.
Proof.
  remember (length a) as n eqn:En. revert a En.
  induction n as [n IH] using lt_wf_ind.
  intros a En r0 r1 r2 r3 r4 r5 r6 r7 Ha Hr. subst n.
  destruct a as [|a0 [|a1 [|a2 [|a3 [|a4 [|a5 [|a6 [|a7 a']]]]]]]];
    cbn [Np.add_blocks]; try (split; assumption).
  repeat match goal with
         | H : Forall _ (_ :: _) |- _ => inversion H; clear H; subst
         end.
  apply (IH (length a')).
  - cbn [length]. lia.
  - reflexivity.
  - assumption.
  - repeat constructor; now apply not_negative_add.
Qed.

Lemma sum_block_not_negative (a : list float) :
  Forall not_negative a -> not_negative (Np.sum_block a).
Proof.
  intros Ha.
  assert (Hshort : not_negative (fold_left PrimFloat.add a 0%float))
    by (apply sum_not_negative; [assumption|apply not_negative_zero]).
  destruct a as [|a0 [|a1 [|a2 [|a3 [|a4 [|a5 [|a6 [|a7 a']]]]]]]];
    cbn [Np.sum_block]; try exact Hshort.
  clear Hshort.
  repeat match goal with
         | H : Forall _ (_ :: _) |- _ => inversion H; clear H; subst
         end.
  pose proof (add_blocks_not_negative a' a0 a1 a2 a3 a4 a5 a6 a7
                ltac:(assumption) ltac:(repeat constructor; assumption))
    as H.
  destruct (Np.add_blocks (a0, a1, a2, a3, a4, a5, a6, a7) a')
    as [[[[[[[[s0 s1] s2] s3] s4] s5] s6] s7] rest].
  destruct H as [Hs Hrest].
  repeat match goal with
         | H : Forall _ (_ :: _) |- _ => inversion H; clear H; subst
         end.
  apply sum_not_negative; [assumption|].
  repeat apply not_negative_add; assumption.
Qed.

Lemma pairwise_sum_not_negative (depth : nat) : forall a,
  Forall not_negative a -> not_negative (Np.pairwise_sum depth a).
Proof.
  induction depth as [|depth IH]; intros a Ha; cbn [Np.pairwise_sum];
    [now apply sum_block_not_negative|].
  destruct (length a <=? 128)%nat; [now apply sum_block_not_negative|].
  set (n2 := (length a / 2 - (length a / 2) mod 8)%nat).
  rewrite <- (firstn_skipn n2 a) in Ha. apply Forall_app in Ha.
  destruct Ha as [H1 H2].
  apply not_negative_add; apply IH; assumption.
Qed.

Lemma mean_not_negative (l : list float) :
  Forall not_negative l -> not_negative (Np.mean l).
Proof.
  intros Hl. unfold Np.mean, Np.sum. apply not_negative_div.
  - apply not_negative_add; [apply not_negative_zero|].
    now apply pairwise_sum_not_negative.
  - apply not_negative_of_count.
Qed.

(** The cuts of [pairwise_sum] never run out: a greater depth gives the
    same sum. *)
Lemma pairwise_sum_depth (depth : nat) : forall a,
  (length a <= depth + 128)%nat ->
  Np.pairwise_sum (S depth) a = Np.pairwise_sum depth a.
Proof.
  induction depth as [|depth IH]; intros a Ha.
  - cbn [Np.pairwise_sum].
    destruct (Nat.leb_spec (length a) 128); [reflexivity|lia].
  - change (Np.pairwise_sum (S (S depth)) a)
      with (if (length a <=? 128)%nat then Np.sum_block a
            else (Np.pairwise_sum (S depth)
                    (firstn (length a / 2 - (length a / 2) mod 8) a)
                  + Np.pairwise_sum (S depth)
                      (skipn (length a / 2 - (length a / 2) mod 8) a))%float).
    change (Np.pairwise_sum (S depth) a)
      with (if (length a <=? 128)%nat then Np.sum_block a
            else (Np.pairwise_sum depth
                    (firstn (length a / 2 - (length a / 2) mod 8) a)
                  + Np.pairwise_sum depth
                      (skipn (length a / 2 - (length a / 2) mod 8) a))%float).
    destruct (Nat.leb_spec (length a) 128) as [|Hbig]; [reflexivity|].
    pose proof (Nat.div_mod_eq (length a) 2) as Hdiv.
    pose proof (Nat.mod_upper_bound (length a) 2 ltac:(lia)) as Hm2.
    pose proof (Nat.mod_upper_bound (length a / 2) 8 ltac:(lia)) as Hm8.
    rewrite !IH; [reflexivity| |].
    + rewrite length_skipn. lia.
    + rewrite length_firstn. lia.
Qed.

(** Adding [0.0] twice is adding it once. *)
Lemma zero_add_twice (x : float) : (0 + (0 + x))%float = (0 + x)%float.
Proof.
  apply Prim2SF_inj. rewrite !add_spec.
  change (Prim2SF 0%float) with (S754_zero false).
  destruct (Prim2SF x) as [[|]|[|]| |s m e]; reflexivity.
Qed.

(** The sum of fewer than eight elements. *)
Lemma sum_short (l : list float) :
  (length l < 8)%nat ->
  Np.sum l = (0 + fold_left PrimFloat.add l 0)%float.
Proof.
  intros Hl. unfold Np.sum.
  assert (H : Np.pairwise_sum (length l) l = Np.sum_block l).
  { destruct (length l) as [|k] eqn:E; cbn [Np.pairwise_sum];
      [reflexivity|].
    rewrite E.
    destruct (Nat.leb_spec (S k) 128); [reflexivity|lia]. }
  rewrite H.
  destruct l as [|a0 [|a1 [|a2 [|a3 [|a4 [|a5 [|a6 [|a7 a']]]]]]]];
    try reflexivity.
  cbn [length] in Hl. lia.
Qed.

(** The deviation is never negative, whatever the data. *)
Lemma std_not_negative (l : list float) : not_negative (Np.std l).
Proof.
  unfold Np.std. apply not_negative_sqrt, mean_not_negative.
  apply Forall_forall. intros v Hv. apply in_map_iff in Hv.
  destruct Hv as (x & <- & _). apply not_negative_square.
Qed.

(** *** The order *)
Lemma SFltb_place (x y : spec_float) :
  x <> S754_nan -> y <> S754_nan ->
  (SFltb x y = true <-> before (place x) (place y)).
Proof.
  intros Hx Hy. unfold SFltb.
  destruct x as [sx|sx| |sx mx ex], y as [sy|sy| |sy my ey];
    try congruence; cbn;
    try (destruct sx); try (destruct sy); cbn;
    try (split; [discriminate|lia]); try (split; [lia|reflexivity]);
    try (split; [reflexivity|lia]).
  - rewrite Pos.compare_cont_spec, Pos.compare_antisym. cbn.
    destruct (Z.compare_spec ex ey) as [->|H|H].
    + destruct (Pos.compare_spec my mx) as [->|H'|H']; cbn;
        (split; [try discriminate; lia|try reflexivity; lia]).
    + split; [discriminate|lia].
    + split; [lia|reflexivity].
  - rewrite Pos.compare_cont_spec. cbn.
    destruct (Z.compare_spec ex ey) as [->|H|H].
    + destruct (Pos.compare_spec mx my) as [->|H'|H']; cbn;
        (split; [try discriminate; lia|try reflexivity; lia]).
    + split; [lia|reflexivity].
    + split; [discriminate|lia].
Qed.


Lemma SFcompare_place (x y : spec_float) :
  x <> S754_nan -> y <> S754_nan ->
  exists c,
    SFcompare x y = Some c /\
    (c = Lt <-> before (place x) (place y)) /\
    (c = Gt <-> before (place y) (place x)).
Proof.
  intros Hx Hy.
  destruct x as [sx|sx| |sx mx ex], y as [sy|sy| |sy my ey];
    try congruence; cbn;
    try (destruct sx); try (destruct sy); cbn;
    try (eexists; split; [reflexivity|];
         split; split; intros; try discriminate; try reflexivity; lia).
  - rewrite Pos.compare_cont_spec. cbn.
    destruct (Z.compare_spec ex ey) as [->|H|H].
    + destruct (Pos.compare_spec mx my) as [->|H'|H']; cbn;
        (eexists; split; [reflexivity|];
         split; split; intros; try discriminate; try reflexivity; lia).
    + eexists; split; [reflexivity|];
        split; split; intros; try discriminate; try reflexivity; lia.
    + eexists; split; [reflexivity|];
        split; split; intros; try discriminate; try reflexivity; lia.
  - rewrite Pos.compare_cont_spec. cbn.
    destruct (Z.compare_spec ex ey) as [->|H|H].
    + destruct (Pos.compare_spec mx my) as [->|H'|H']; cbn;
        (eexists; split; [reflexivity|];
         split; split; intros; try discriminate; try reflexivity; lia).
    + eexists; split; [reflexivity|];
        split; split; intros; try discriminate; try reflexivity; lia.
    + eexists; split; [reflexivity|];
        split; split; intros; try discriminate; try reflexivity; lia.
Qed.

Lemma is_nan_spec (x : float) :
  PrimFloat.is_nan x = true <-> Prim2SF x = S754_nan.
Proof.
  unfold PrimFloat.is_nan. rewrite eqb_spec. unfold SFeqb.
  destruct (Prim2SF x) as [s|s| |s m e] eqn:E.
  - cbn. split; discriminate.
  - destruct s; cbn; split; discriminate.
  - cbn. split; reflexivity.
  - destruct (SFcompare_place (S754_finite s m e) (S754_finite s m e))
      as (c & -> & H1 & H2); try discriminate.
    destruct c.
    + cbn. split; discriminate.
    + exfalso. pose proof (proj1 H1 eq_refl) as H.
      destruct s; cbn in H; lia.
    + exfalso. pose proof (proj1 H2 eq_refl) as H.
      destruct s; cbn in H; lia.
Qed.

Lemma not_nan_spec (x : float) : not_nan x <-> Prim2SF x <> S754_nan.
Proof.
  unfold not_nan. rewrite <- is_nan_spec.
  destruct (PrimFloat.is_nan x); split; congruence.
Qed.

Lemma ltb_place (x y : float) :
  not_nan x -> not_nan y ->
  ((x <? y)%float = true
   <-> before (place (Prim2SF x)) (place (Prim2SF y))).
Proof.
  intros Hx Hy. rewrite ltb_spec.
  apply SFltb_place; now apply not_nan_spec.
Qed.

Lemma leb_place (x y : float) :
  not_nan x -> not_nan y ->
  ((x <=? y)%float = true
   <-> ~ before (place (Prim2SF y)) (place (Prim2SF x))).
Proof.
  intros Hx Hy. rewrite leb_spec. unfold SFleb.
  apply not_nan_spec in Hx, Hy.
  destruct (SFcompare_place _ _ Hx Hy) as (c & -> & H1 & H2).
  destruct c.
  - split; [|reflexivity]. intros _ H. apply H2 in H. discriminate.
  - split; [|reflexivity]. intros _ H. apply H2 in H. discriminate.
  - split; [discriminate|]. intros H. exfalso. apply H. now apply H2.
Qed.

Lemma before_asym (a b : Z * Z * Z) : before a b -> ~ before b a.
Proof. destruct a as [[a1 a2] a3], b as [[b1 b2] b3]. cbn. lia. Qed.

Lemma before_total (a b c : Z * Z * Z) :
  ~ before b a -> ~ before c b -> ~ before c a.
Proof.
  destruct a as [[a1 a2] a3], b as [[b1 b2] b3], c as [[c1 c2] c3].
  cbn. lia.
Qed.

Lemma ltb_false_place (x y : float) :
  not_nan x -> not_nan y ->
  ((x <? y)%float = false
   <-> ~ before (place (Prim2SF x)) (place (Prim2SF y))).
Proof.
  intros Hx Hy. pose proof (ltb_place x y Hx Hy) as [H1 H2].
  destruct (x <? y)%float; split; intros H; try reflexivity.
  - discriminate.
  - exfalso. apply H. now apply H1.
  - intros Hb. apply H2 in Hb. discriminate.
Qed.

(** [<] orders the floats that are not nan. *)
Lemma ltb_asym (a b : float) :
  not_nan a -> not_nan b -> (a <? b)%float = true -> (b <? a)%float = false.
Proof.
  intros Ha Hb H. apply ltb_false_place; auto.
  apply before_asym. now apply ltb_place.
Qed.

Lemma ltb_le_trans (a b c : float) :
  not_nan a -> not_nan b -> not_nan c ->
  (b <? a)%float = false -> (c <? b)%float = false ->
  (c <? a)%float = false.
Proof.
  intros Ha Hb Hc H1 H2.
  apply ltb_false_place in H1, H2; auto.
  apply ltb_false_place; auto.
  eapply before_total; eassumption.
Qed.

Lemma leb_of_ltb (a b : float) :
  not_nan a -> not_nan b -> (b <? a)%float = false -> fle a b.
Proof.
  intros Ha Hb H. apply leb_place; auto. now apply ltb_false_place.
Qed.

(** Negation reverses the order. *)
Lemma is_nan_opp (x : float) :
  PrimFloat.is_nan (- x)%float = PrimFloat.is_nan x.
Proof.
  destruct (PrimFloat.is_nan x) eqn:E.
  - apply is_nan_spec. apply is_nan_spec in E.
    rewrite opp_spec, E. reflexivity.
  - destruct (PrimFloat.is_nan (- x)%float) eqn:E'; [|reflexivity].
    apply is_nan_spec in E'. rewrite opp_spec in E'.
    assert (Prim2SF x = S754_nan) by (destruct (Prim2SF x); cbn in E'; congruence).
    apply is_nan_spec in H. congruence.
Qed.

Lemma ltb_opp (x y : float) : (- x <? - y)%float = (y <? x)%float.
Proof.
  rewrite !ltb_spec, !opp_spec. unfold SFltb.
  destruct (Prim2SF x) as [sx|sx| |sx mx ex],
           (Prim2SF y) as [sy|sy| |sy my ey]; cbn;
    try (destruct sx); try (destruct sy); cbn; try reflexivity.
  - rewrite !Pos.compare_cont_spec, (Z.compare_antisym ex ey),
      (Pos.compare_antisym mx my). cbn.
    destruct (ex ?= ey)%Z; cbn; try reflexivity.
    destruct (mx ?= my)%positive; reflexivity.
  - rewrite !Pos.compare_cont_spec, (Z.compare_antisym ex ey),
      (Pos.compare_antisym mx my). cbn.
    destruct (ex ?= ey)%Z; cbn; try reflexivity.
    destruct (mx ?= my)%positive; reflexivity.
Qed.

(** *** A deviation of zero *)

Lemma zero_not_negative (sd : float) :
  not_negative sd -> (sd =? 0)%float = true ->
  Prim2SF sd = S754_zero false.
Proof.
  unfold not_negative. rewrite eqb_spec. unfold SFeqb.
  change (Prim2SF 0%float) with (S754_zero false).
  destruct (Prim2SF sd) as [s|s| |s m e]; cbn; try discriminate.
  - intros ->. reflexivity.
  - destruct s; discriminate.
  - destruct s; discriminate.
Qed.

(** A quotient by [0.0] or by [nan] is [inf] or [nan], and not below
    2. *)
Lemma quotient_of_no_deviation (t sd : float) :
  Prim2SF sd = S754_zero false \/ Prim2SF sd = S754_nan ->
  (PrimFloat.abs t / sd <? 2)%float = false.
Proof.
  intros H. rewrite ltb_spec, div_spec, abs_spec. unfold SFltb.
  change (Prim2SF 2%float) with (S754_finite false 4503599627370496 (-51)).
  destruct H as [-> | ->];
    destruct (Prim2SF t) as [s|s| |s m e]; reflexivity.
Qed.

(** *** Division by 1 is exact *)

Lemma div_eucl_pair (a b : Z) : Z.div_eucl a b = (a / b, a mod b)%Z.
Proof. unfold Z.div, Z.modulo. now destruct (Z.div_eucl a b). Qed.

Lemma SFdiv_one (x : spec_float) :
  valid_binary x = true ->
  SFdiv prec emax x (S754_finite false 4503599627370496 (-52)) = x.
Proof.
  destruct x as [s|s| |s m e]; cbn [SFdiv]; intros Hv;
    rewrite ?xorb_false_r; try reflexivity.
  cbn [valid_binary] in Hv. unfold bounded, canonical_mantissa in Hv.
  apply andb_prop in Hv. destruct Hv as [Hc Hb].
  apply Z.eqb_eq in Hc. apply Z.leb_le in Hb.
  unfold fexp, SpecFloat.emin, prec, emax in Hc, Hb.
  set (d := Z.pos (digits2_pos m)) in *.
  assert (Hd : (0 < d)%Z) by (subst d; lia).
  unfold SFdiv_core_binary.
  change (Zdigits2 (Z.pos m)) with d.
  change (Zdigits2 (Z.pos 4503599627370496)) with 53%Z.
  unfold fexp, SpecFloat.emin, prec, emax.
  destruct (Z.eq_dec e (-1074)) as [->|Hne].
  - (* the smallest exponent *)
    assert (Hd53 : (d <= 53)%Z) by lia.
    replace (Z.min (Z.max (d + -1074 - (53 + -52) - 53) (3 - 1024 - 53))
                   (-1074 - -52))%Z with (-1074)%Z by lia.
    change (-1074 - -52 - -1074)%Z with 52%Z.
    rewrite div_eucl_pair.
    rewrite Z.shiftl_mul_pow2 by lia.
    change (2 ^ 52)%Z with 4503599627370496%Z.
    rewrite Z.div_mul, Z.mod_mul by lia.
    cbn [new_location Z.even new_location_even Z.eqb].
    unfold binary_round_aux, shr_fexp, fexp, SpecFloat.emin, prec, emax.
    change (Zdigits2 (Z.pos m)) with d.
    replace (Z.max (d + -1074 - 53) (3 - 1024 - 53) - -1074)%Z with 0%Z
      by lia.
    cbn [shr shr_record_of_loc shr_m loc_of_shr_record round_nearest_even].
    change (Zdigits2 (Z.pos m)) with d.
    replace (Z.max (d + -1074 - 53) (3 - 1024 - 53) - -1074)%Z with 0%Z
      by lia.
    cbn. reflexivity.
  - assert (Hd53 : d = 53%Z) by lia.
    replace (Z.min (Z.max (d + e - (53 + -52) - 53) (3 - 1024 - 53))
                   (e - -52))%Z with (e - 1)%Z by lia.
    replace (e - -52 - (e - 1))%Z with 53%Z by lia.
    rewrite div_eucl_pair.
    rewrite Z.shiftl_mul_pow2 by lia.
    replace (Z.pos m * 2 ^ 53)%Z with (Z.pos m~0 * 4503599627370496)%Z
      by (change (2 ^ 53)%Z with (2 * 4503599627370496)%Z; lia).
    rewrite Z.div_mul, Z.mod_mul by lia.
    cbn [new_location Z.even new_location_even Z.eqb].
    unfold binary_round_aux, shr_fexp, fexp, SpecFloat.emin, prec, emax.
    change (Zdigits2 (Z.pos m~0)) with (Z.pos (Pos.succ (digits2_pos m))).
    rewrite Pos2Z.inj_succ. fold d. rewrite Hd53.
    replace (Z.max (Z.succ 53 + (e - 1) - 53) (3 - 1024 - 53) - (e - 1))%Z
      with 1%Z by lia.
    cbn [shr shr_record_of_loc iter_pos shr_1 shr_m loc_of_shr_record
         round_nearest_even orb].
    change (Zdigits2 (Z.pos m)) with d. rewrite Hd53.
    replace (e - 1 + 1)%Z with e by lia.
    replace (Z.max (53 + e - 53) (3 - 1024 - 53) - e)%Z with 0%Z by lia.
    cbn [shr shr_m].
    replace (e <=? 1024 - 53)%Z with true by (symmetry; apply Z.leb_le; lia).
    reflexivity.
Qed.


Lemma div_one (x : float) : (x / 1)%float = x.
Proof.
  apply Prim2SF_inj. rewrite div_spec.
  change (Prim2SF 1%float) with (S754_finite false 4503599627370496 (-52)).
  apply SFdiv_one, Prim2SF_valid.
Qed.

(** *** Integers that a float holds exactly *)

Lemma digits2_pos_bound (p : positive) : forall n,
  (0 <= n)%Z -> (Z.pos p < 2 ^ n)%Z -> (Z.pos (digits2_pos p) <= n)%Z.
Proof.
  induction p as [p IH|p IH|]; intros n Hn Hp; cbn [digits2_pos].
  - assert (Hn1 : (1 <= n)%Z).
    { destruct (Z.eq_dec n 0) as [->|]; [cbn in Hp; lia|lia]. }
    replace n with (Z.succ (n - 1)) in Hp by lia.
    rewrite Z.pow_succ_r in Hp by lia.
    specialize (IH (n - 1)%Z). lia.
  - assert (Hn1 : (1 <= n)%Z).
    { destruct (Z.eq_dec n 0) as [->|]; [cbn in Hp; lia|lia]. }
    replace n with (Z.succ (n - 1)) in Hp by lia.
    rewrite Z.pow_succ_r in Hp by lia.
    specialize (IH (n - 1)%Z). lia.
  - destruct (Z.eq_dec n 0) as [->|]; [cbn in Hp; lia|lia].
Qed.

Lemma digits2_pos_iter (k p : positive) :
  digits2_pos (Pos.iter xO p k) = (digits2_pos p + k)%positive.
Proof.
  induction k as [|k IH] using Pos.peano_ind.
  - cbn. lia.
  - rewrite Pos.iter_succ. cbn [digits2_pos]. rewrite IH. lia.
Qed.

Lemma digits2_pos_upper (p : positive) :
  (Z.pos p < 2 ^ Z.pos (digits2_pos p))%Z.
Proof.
  induction p as [p IH|p IH|]; cbn [digits2_pos].
  - rewrite Pos2Z.inj_succ, Z.pow_succ_r by lia. lia.
  - rewrite Pos2Z.inj_succ, Z.pow_succ_r by lia. lia.
  - cbn. lia.
Qed.

Lemma digits2_pos_lower (p : positive) :
  (2 ^ (Z.pos (digits2_pos p) - 1) <= Z.pos p)%Z.
Proof.
  induction p as [p IH|p IH|]; cbn [digits2_pos].
  - rewrite Pos2Z.inj_succ.
    replace (Z.succ (Z.pos (digits2_pos p)) - 1)%Z
      with (Z.succ (Z.pos (digits2_pos p) - 1)) by lia.
    rewrite Z.pow_succ_r by lia. lia.
  - rewrite Pos2Z.inj_succ.
    replace (Z.succ (Z.pos (digits2_pos p)) - 1)%Z
      with (Z.succ (Z.pos (digits2_pos p) - 1)) by lia.
    rewrite Z.pow_succ_r by lia. lia.
  - cbn. lia.
Qed.

(** The digits of a number between two powers of 2. *)
Lemma digits2_pos_between (p : positive) (n : Z) :
  (1 <= n)%Z -> (2 ^ (n - 1) <= Z.pos p < 2 ^ n)%Z ->
  Z.pos (digits2_pos p) = n.
Proof.
  intros Hn [Hl Hu].
  pose proof (digits2_pos_bound p n ltac:(lia) Hu) as H1.
  pose proof (digits2_pos_upper p) as H2.
  destruct (Z.lt_ge_cases (Z.pos (digits2_pos p)) n) as [Hlt|]; [|lia].
  exfalso.
  assert (2 ^ Z.pos (digits2_pos p) <= 2 ^ (n - 1))%Z
    by (apply Z.pow_le_mono_r; lia).
  lia.
Qed.

Lemma shr_m_of_loc (m : Z) (l : location) :
  shr_m (shr_record_of_loc m l) = m.
Proof. destruct l as [|[]]; reflexivity. Qed.

Lemma loc_of_loc (m : Z) (l : location) :
  loc_of_shr_record (shr_record_of_loc m l) = l.
Proof. destruct l as [|[]]; reflexivity. Qed.

(** Rounding a mantissa of 53 digits gives one of 53 digits, or [2^53]. *)
Lemma round_53 (m : positive) (l : location) :
  Z.pos (digits2_pos m) = 53%Z ->
  exists m1,
    round_nearest_even (Z.pos m) l = Z.pos m1 /\
    (Z.pos (digits2_pos m1) = 53%Z \/ m1 = 9007199254740992%positive).
Proof.
  intros Hd.
  pose proof (digits2_pos_upper m) as Hu.
  pose proof (digits2_pos_lower m) as Hl. rewrite Hd in Hu, Hl.
  change (2 ^ (53 - 1))%Z with 4503599627370496%Z in Hl.
  change (2 ^ 53)%Z with 9007199254740992%Z in Hu.
  assert (Hsucc : exists m1, (Z.pos m + 1)%Z = Z.pos m1 /\
            (Z.pos (digits2_pos m1) = 53%Z \/ m1 = 9007199254740992%positive)).
  { exists (m + 1)%positive. split; [lia|].
    destruct (Z.eq_dec (Z.pos (m + 1)) 9007199254740992) as [E|E].
    - right. lia.
    - left. apply digits2_pos_between; [lia|].
      change (2 ^ (53 - 1))%Z with 4503599627370496%Z.
      change (2 ^ 53)%Z with 9007199254740992%Z. lia. }
  assert (Hsame : exists m1, Z.pos m = Z.pos m1 /\
            (Z.pos (digits2_pos m1) = 53%Z \/ m1 = 9007199254740992%positive))
    by (exists m; auto).
  destruct l as [|[]]; cbn [round_nearest_even]; auto.
  destruct (Z.even (Z.pos m)); auto.
Qed.

(** The end of [binary_round_aux] on such a mantissa. *)
Lemma renormalize (m1 : positive) (e1 : Z) :
  Z.pos (digits2_pos m1) = 53%Z \/ m1 = 9007199254740992%positive ->
  (-1074 <= e1 <= 970)%Z ->
  exists m2 e2,
    (let '(mrs, e) := shr_fexp prec emax (Z.pos m1) e1 loc_Exact in
     match shr_m mrs with
     | Z0 => S754_zero false
     | Z.pos m => if (e <=? emax - prec)%Z then S754_finite false m e
                  else S754_infinity false
     | Z.neg _ => S754_nan
     end) = S754_finite false m2 e2 /\
    (e2 = e1 \/ (e2 = (e1 + 1)%Z /\ m2 = 4503599627370496%positive)).
Proof.
  intros [Hd| ->] He; unfold shr_fexp, fexp, SpecFloat.emin, prec, emax.
  - change (Zdigits2 (Z.pos m1)) with (Z.pos (digits2_pos m1)). rewrite Hd.
    replace (Z.max (53 + e1 - 53) (3 - 1024 - 53) - e1)%Z with 0%Z by lia.
    cbn [shr shr_record_of_loc shr_m].
    replace (e1 <=? 1024 - 53)%Z with true
      by (symmetry; apply Z.leb_le; lia).
    exists m1, e1. auto.
  - change (Zdigits2 (Z.pos 9007199254740992)) with 54%Z.
    replace (Z.max (54 + e1 - 53) (3 - 1024 - 53) - e1)%Z with 1%Z by lia.
    cbn [shr shr_record_of_loc iter_pos shr_1 shr_m orb].
    replace (e1 + 1 <=? 1024 - 53)%Z with true
      by (symmetry; apply Z.leb_le; lia).
    exists 4503599627370496%positive, (e1 + 1)%Z. auto.
Qed.

(** [binary_round_aux] on a mantissa of 53 or of 54 digits: the exponent
    goes up by the digits beyond 53, and by one more only when the
    mantissa comes out as [2^52]. *)
Lemma binary_round_aux_near (m : positive) (e : Z) (l : location) (d : Z) :
  Z.pos (digits2_pos m) = d -> (d = 53 \/ d = 54)%Z ->
  (-1074 <= e <= 960)%Z ->
  exists m2 e2,
    binary_round_aux prec emax false (Z.pos m) e l = S754_finite false m2 e2 /\
    (e2 = (e + (d - 53))%Z \/
     (e2 = (e + (d - 53) + 1)%Z /\ m2 = 4503599627370496%positive)).
Proof.
  intros Hd Hcase He. unfold binary_round_aux.
  destruct Hcase as [->| ->].
  - unfold shr_fexp at 1. unfold fexp, SpecFloat.emin, prec, emax.
    change (Zdigits2 (Z.pos m)) with (Z.pos (digits2_pos m)). rewrite Hd.
    replace (Z.max (53 + e - 53) (3 - 1024 - 53) - e)%Z with 0%Z by lia.
    cbn [shr]. rewrite shr_m_of_loc, loc_of_loc.
    destruct (round_53 m l Hd) as (m1 & -> & Hm1).
    replace (e + (53 - 53))%Z with e by lia.
    apply (renormalize m1 e Hm1). lia.
  - unfold shr_fexp at 1. unfold fexp, SpecFloat.emin, prec, emax.
    change (Zdigits2 (Z.pos m)) with (Z.pos (digits2_pos m)). rewrite Hd.
    replace (Z.max (54 + e - 53) (3 - 1024 - 53) - e)%Z with 1%Z by lia.
    cbn [shr iter_pos].
    assert (Hhalf : exists m' l',
              shr_1 (shr_record_of_loc (Z.pos m) l)
              = shr_record_of_loc (Z.pos m') l' /\
              Z.pos (digits2_pos m') = 53%Z).
    { destruct m as [m'|m'|]; cbn [digits2_pos] in Hd; try discriminate;
        exists m'.
      - destruct l as [|[]]; cbn;
          [exists (loc_Inexact Eq)|exists (loc_Inexact Gt)
          |exists (loc_Inexact Gt)|exists (loc_Inexact Gt)];
          (split; [reflexivity|lia]).
      - destruct l as [|[]]; cbn;
          [exists loc_Exact|exists (loc_Inexact Lt)
          |exists (loc_Inexact Lt)|exists (loc_Inexact Lt)];
          (split; [reflexivity|lia]). }
    destruct Hhalf as (m' & l' & -> & Hd').
    rewrite shr_m_of_loc, loc_of_loc.
    destruct (round_53 m' l' Hd') as (m1 & -> & Hm1).
    replace (e + (54 - 53))%Z with (e + 1)%Z by lia.
    apply (renormalize m1 (e + 1) Hm1). lia.
Qed.

Lemma pos_iter_xO (k p : positive) :
  Z.pos (Pos.iter xO p k) = (Z.pos p * 2 ^ Z.pos k)%Z.
Proof.
  induction k as [|k IH] using Pos.peano_ind.
  - cbn. lia.
  - rewrite Pos.iter_succ, Pos2Z.inj_succ, Z.pow_succ_r by lia.
    rewrite Pos2Z.inj_xO, IH. lia.
Qed.

(** An integer from 1 to [2^53] as a float: a mantissa of 53 digits, and
    the exponent that makes the value the integer. *)
Lemma binary_normalize_canonical (z : Z) :
  (1 <= z < 2 ^ 53)%Z ->
  exists m e,
    binary_normalize prec emax z 0 false = S754_finite false m e /\
    Z.pos (digits2_pos m) = 53%Z /\ (-52 <= e <= 0)%Z /\
    Z.pos m = (z * 2 ^ (- e))%Z.
Proof.
  intros Hz. destruct z as [|p|p]; try lia.
  cbn [binary_normalize]. unfold binary_round.
  pose proof (digits2_pos_bound p 53 ltac:(lia) ltac:(lia)) as Hd.
  set (d := Z.pos (digits2_pos p)) in *.
  assert (Hd0 : (1 <= d)%Z) by (subst d; lia).
  unfold shl_align, fexp, SpecFloat.emin, prec, emax.
  replace (Z.max (d + 0 - 53) (3 - 1024 - 53) - 0)%Z with (d - 53)%Z by lia.
  destruct (d - 53)%Z as [|k|k] eqn:Ek; try lia.
  - exists p, 0%Z.
    unfold binary_round_aux, shr_fexp, fexp, SpecFloat.emin, prec, emax.
    change (Zdigits2 (Z.pos p)) with d.
    replace (Z.max (d + 0 - 53) (3 - 1024 - 53) - 0)%Z with 0%Z by lia.
    cbn [shr shr_record_of_loc shr_m loc_of_shr_record round_nearest_even].
    change (Zdigits2 (Z.pos p)) with d.
    replace (Z.max (d + 0 - 53) (3 - 1024 - 53) - 0)%Z with 0%Z by lia.
    cbn [shr shr_m]. split; [reflexivity|].
    fold d. repeat split; try lia.
  - exists (Pos.iter xO p k), (Z.max (d + 0 - 53) (3 - 1024 - 53)).
    replace (Z.max (d + 0 - 53) (3 - 1024 - 53)) with (Z.neg k) by lia.
    unfold binary_round_aux, shr_fexp, fexp, SpecFloat.emin, prec, emax.
    assert (Hdk : Z.pos (digits2_pos (Pos.iter xO p k)) = 53%Z).
    { rewrite digits2_pos_iter. fold d in Hd. lia. }
    change (Zdigits2 (Z.pos (Pos.iter xO p k)))
      with (Z.pos (digits2_pos (Pos.iter xO p k))).
    rewrite Hdk.
    replace (Z.max (53 + Z.neg k - 53) (3 - 1024 - 53) - Z.neg k)%Z
      with 0%Z by lia.
    cbn [shr shr_record_of_loc shr_m loc_of_shr_record round_nearest_even].
    change (Zdigits2 (Z.pos (Pos.iter xO p k)))
      with (Z.pos (digits2_pos (Pos.iter xO p k))).
    rewrite Hdk.
    replace (Z.max (53 + Z.neg k - 53) (3 - 1024 - 53) - Z.neg k)%Z
      with 0%Z by lia.
    cbn [shr shr_m].
    replace (Z.neg k <=? 1024 - 53)%Z with true
      by (symmetry; apply Z.leb_le; lia).
    split; [reflexivity|]. split; [reflexivity|]. split; [lia|].
    rewrite pos_iter_xO. reflexivity.
Qed.

(** The bounds of a mantissa of 53 digits. *)
Lemma mantissa_53 (m : positive) :
  Z.pos (digits2_pos m) = 53%Z ->
  (4503599627370496 <= Z.pos m < 9007199254740992)%Z.
Proof.
  intros Hd. pose proof (digits2_pos_upper m) as Hu.
  pose proof (digits2_pos_lower m) as Hl. rewrite Hd in Hu, Hl.
  change (2 ^ (53 - 1))%Z with 4503599627370496%Z in Hl.
  change (2 ^ 53)%Z with 9007199254740992%Z in Hu. lia.
Qed.

(** The floats of two integers are in the order of the integers. *)
Lemma canonical_order (a b : Z) (ma mb : positive) (ea eb : Z) :
  (0 < a <= b)%Z ->
  Z.pos (digits2_pos ma) = 53%Z -> Z.pos (digits2_pos mb) = 53%Z ->
  (-52 <= ea <= 0)%Z -> (-52 <= eb <= 0)%Z ->
  Z.pos ma = (a * 2 ^ (- ea))%Z -> Z.pos mb = (b * 2 ^ (- eb))%Z ->
  (ea < eb)%Z \/ (ea = eb /\ (Z.pos ma <= Z.pos mb)%Z).
Proof.
  intros Hab Hda Hdb Hea Heb Ha Hb.
  pose proof (mantissa_53 ma Hda) as Hma.
  pose proof (mantissa_53 mb Hdb) as Hmb.
  destruct (Z.lt_trichotomy ea eb) as [Hlt|[Heq|Hgt]].
  - left. exact Hlt.
  - right. split; [exact Heq|]. subst eb. rewrite Ha, Hb.
    apply Z.mul_le_mono_nonneg_r; [apply Z.pow_nonneg|]; lia.
  - exfalso.
    assert (Hsplit : (2 ^ (- eb) = 2 ^ (- ea) * 2 ^ (ea - eb))%Z).
    { rewrite <- Z.pow_add_r by lia. f_equal. lia. }
    assert (Htwo : (2 <= 2 ^ (ea - eb))%Z).
    { change 2%Z with (2 ^ 1)%Z at 1. apply Z.pow_le_mono_r; lia. }
    assert (Hpos : (0 < 2 ^ (- ea))%Z) by (apply Z.pow_pos_nonneg; lia).
    rewrite Hsplit in Hb.
    assert (Z.pos ma * 2 <= Z.pos mb)%Z; [|lia].
    rewrite Ha, Hb.
    transitivity (a * 2 ^ (- ea) * 2 ^ (ea - eb))%Z.
    + apply Z.mul_le_mono_nonneg_l; [|exact Htwo].
      apply Z.mul_nonneg_nonneg; lia.
    + rewrite Z.mul_assoc.
      apply Z.mul_le_mono_nonneg_r; [lia|].
      apply Z.mul_le_mono_nonneg_r; lia.
Qed.

(** The quotient of two mantissas of 53 digits, the first one scaled by
    [2^53]. *)
Lemma quotient_bounds (ma mb : positive) :
  Z.pos (digits2_pos ma) = 53%Z -> Z.pos (digits2_pos mb) = 53%Z ->
  let q := (Z.pos ma * 2 ^ 53 / Z.pos mb)%Z in
  (2 ^ 52 <= q < 2 ^ 54)%Z /\
  ((Z.pos ma < Z.pos mb)%Z -> (q < 2 ^ 53)%Z).
Proof.
  intros Hda Hdb q. subst q.
  pose proof (mantissa_53 ma Hda) as Hma.
  pose proof (mantissa_53 mb Hdb) as Hmb.
  change (2 ^ 52)%Z with 4503599627370496%Z.
  change (2 ^ 53)%Z with 9007199254740992%Z.
  change (2 ^ 54)%Z with 18014398509481984%Z.
  repeat split.
  - apply Z.div_le_lower_bound; lia.
  - apply Z.div_lt_upper_bound; lia.
  - intros Hlt. apply Z.div_lt_upper_bound; lia.
Qed.

(** The quotient of the floats of two integers in order is at most 1. *)
Lemma SFdiv_at_most_one (ma mb : positive) (ea eb : Z) :
  Z.pos (digits2_pos ma) = 53%Z -> Z.pos (digits2_pos mb) = 53%Z ->
  (-52 <= ea <= 0)%Z -> (-52 <= eb <= 0)%Z ->
  (ea < eb)%Z \/ (ea = eb /\ (Z.pos ma <= Z.pos mb)%Z) ->
  exists m e,
    SFdiv prec emax (S754_finite false ma ea) (S754_finite false mb eb)
    = S754_finite false m e /\
    ((e < -52)%Z \/ (e = (-52)%Z /\ m = 4503599627370496%positive)).
Proof.
  intros Hda Hdb Hea Heb Hord.
  destruct (quotient_bounds ma mb Hda Hdb) as [Hq Hq'].
  pose proof (mantissa_53 ma Hda) as Hma.
  pose proof (mantissa_53 mb Hdb) as Hmb.
  unfold SFdiv. cbn [xorb]. unfold SFdiv_core_binary.
  change (Zdigits2 (Z.pos ma)) with (Z.pos (digits2_pos ma)).
  change (Zdigits2 (Z.pos mb)) with (Z.pos (digits2_pos mb)).
  rewrite Hda, Hdb. unfold fexp, SpecFloat.emin, prec, emax.
  replace (Z.min (Z.max (53 + ea - (53 + eb) - 53) (3 - 1024 - 53)) (ea - eb))
    with (ea - eb - 53)%Z by lia.
  replace (ea - eb - (ea - eb - 53))%Z with 53%Z by lia.
  cbv zeta. cbv iota beta. rewrite Z.shiftl_mul_pow2 by lia.
  rewrite div_eucl_pair.
  set (q := (Z.pos ma * 2 ^ 53 / Z.pos mb)%Z) in *.
  set (r := (Z.pos ma * 2 ^ 53 mod Z.pos mb)%Z).
  set (l := new_location (Z.pos mb) r).
  change (2 ^ 52)%Z with 4503599627370496%Z in Hq.
  change (2 ^ 53)%Z with 9007199254740992%Z in Hq'.
  change (2 ^ 54)%Z with 18014398509481984%Z in Hq.
  destruct q as [|pq|pq] eqn:Eq; try lia.
  destruct (Z.eq_dec (Z.pos ma) (Z.pos mb)) as [Esame|Hne].
  - (* the same mantissa: the quotient is exact *)
    assert (E53 : pq = 9007199254740992%positive).
    { assert (q = 9007199254740992%Z); [|lia]. subst q.
      rewrite Esame, Z.mul_comm.
      rewrite Z.div_mul by lia. reflexivity. }
    assert (Er : l = loc_Exact).
    { subst l r. rewrite Esame, Z.mul_comm, Z.mod_mul by lia.
      unfold new_location, new_location_even, new_location_odd.
      destruct (Z.even (Z.pos mb)); reflexivity. }
    rewrite Er, E53.
    destruct Hord as [Hlt|[-> _]].
    + destruct (binary_round_aux_near 9007199254740992 (ea - eb - 53)
                  loc_Exact 54 eq_refl ltac:(lia) ltac:(lia))
        as (m2 & e2 & Hr & He2).
      exists m2, e2. split; [exact Hr|]. lia.
    + replace (eb - eb - 53)%Z with (-53)%Z by lia.
      exists 4503599627370496%positive, (-52)%Z.
      split; [vm_compute; reflexivity|].
      right. split; reflexivity.
  - destruct Hord as [Hlt|[-> Hle]].
    + assert (Hd : (Z.pos (digits2_pos pq) = 53 \/
                    Z.pos (digits2_pos pq) = 54)%Z).
      { destruct (Z.lt_ge_cases (Z.pos pq) 9007199254740992).
        - left. apply digits2_pos_between; [lia|].
          change (2 ^ (53 - 1))%Z with 4503599627370496%Z.
          change (2 ^ 53)%Z with 9007199254740992%Z. lia.
        - right. apply digits2_pos_between; [lia|].
          change (2 ^ (54 - 1))%Z with 9007199254740992%Z.
          change (2 ^ 54)%Z with 18014398509481984%Z. lia. }
      destruct (binary_round_aux_near pq (ea - eb - 53) l _ eq_refl Hd
                  ltac:(lia)) as (m2 & e2 & Hr & He2).
      exists m2, e2. split; [exact Hr|]. lia.
    + assert (Hd : Z.pos (digits2_pos pq) = 53%Z).
      { apply digits2_pos_between; [lia|].
        change (2 ^ (53 - 1))%Z with 4503599627370496%Z.
        change (2 ^ 53)%Z with 9007199254740992%Z.
        specialize (Hq' ltac:(lia)). lia. }
      destruct (binary_round_aux_near pq (eb - eb - 53) l 53 Hd
                  ltac:(lia) ltac:(lia)) as (m2 & e2 & Hr & He2).
      exists m2, e2. split; [exact Hr|]. lia.
Qed.

(** A float of 53 digits times 1 is the same float. *)
Lemma SFmul_one (m : positive) (e : Z) :
  Z.pos (digits2_pos m) = 53%Z -> (-1022 <= e <= 971)%Z ->
  SFmul prec emax (S754_finite false m e)
    (S754_finite false 4503599627370496 (-52))
  = S754_finite false m e.
Proof.
  intros Hd He. unfold SFmul. cbn [xorb].
  assert (Hm : (m * 4503599627370496)%positive
               = Pos.iter xO m 52%positive).
  { apply Pos2Z.inj. rewrite pos_iter_xO. reflexivity. }
  rewrite Hm. unfold binary_round_aux.
  unfold shr_fexp at 1. unfold fexp, SpecFloat.emin, prec, emax.
  change (Zdigits2 (Z.pos (Pos.iter xO m 52)))
    with (Z.pos (digits2_pos (Pos.iter xO m 52))).
  rewrite digits2_pos_iter, Pos2Z.inj_add, Hd.
  replace (Z.max (53 + 52 + (e + -52) - 53) (3 - 1024 - 53) - (e + -52))%Z
    with 52%Z by lia.
  cbn [shr shr_record_of_loc]. cbn [Pos.iter iter_pos shr_1 orb].
  cbn [shr_m loc_of_shr_record round_nearest_even].
  unfold shr_fexp, fexp, SpecFloat.emin, prec, emax.
  change (Zdigits2 (Z.pos m)) with (Z.pos (digits2_pos m)). rewrite Hd.
  replace (Z.max (53 + (e + -52 + 52) - 53) (3 - 1024 - 53)
           - (e + -52 + 52))%Z with 0%Z by lia.
  cbn [shr shr_record_of_loc shr_m].
  replace (e + -52 + 52 <=? 1024 - 53)%Z with true
    by (symmetry; apply Z.leb_le; lia).
  f_equal. lia.
Qed.

(** Such a float is finite, positive and valid. *)
Lemma binary_normalize_exact (z : Z) :
  (1 <= z < 2 ^ 53)%Z ->
  exists m e,
    binary_normalize prec emax z 0 false = S754_finite false m e /\
    valid_binary (S754_finite false m e) = true.
Proof.
  intros Hz.
  destruct (binary_normalize_canonical z Hz) as (m & e & Hn & Hd & He & _).
  exists m, e. split; [exact Hn|].
  cbn [valid_binary]. unfold bounded, canonical_mantissa, fexp,
    SpecFloat.emin, prec, emax. rewrite Hd.
  apply andb_true_intro. split; [apply Z.eqb_eq; lia|apply Z.leb_le; lia].
Qed.

(** The float of a count from 1 to [2^53] is finite and not zero. *)
Lemma float_of_int_exact (z : Z) :
  (1 <= z < 2 ^ 53)%Z ->
  exists f, Np.float_of_int z = Ok f /\ (f =? 0)%float = false.
Proof.
  intros Hz. destruct (binary_normalize_exact z Hz) as (m & e & Hn & Hv).
  unfold Np.float_of_int. rewrite Hn.
  set (f := SF2Prim (S754_finite false m e)).
  assert (Hf : Prim2SF f = S754_finite false m e)
    by (apply Prim2SF_SF2Prim; exact Hv).
  assert (Hi : PrimFloat.is_infinity f = false).
  { unfold PrimFloat.is_infinity. rewrite eqb_spec, abs_spec, Hf.
    reflexivity. }
  rewrite Hi. exists f. split; [reflexivity|].
  rewrite eqb_spec, Hf. reflexivity.
Qed.

(** The float of a count from 1 to [2^53]. *)
Lemma of_count_canonical (n : Z) :
  (1 <= n < 2 ^ 53)%Z ->
  exists m e,
    Prim2SF (Np.of_count n) = S754_finite false m e /\
    Z.pos (digits2_pos m) = 53%Z /\ (-52 <= e <= 0)%Z /\
    Z.pos m = (n * 2 ^ (- e))%Z.
Proof.
  intros Hn. unfold Np.of_count.
  rewrite of_uint63_spec, Uint63.of_Z_spec.
  rewrite Z.mod_small.
  - apply binary_normalize_canonical. exact Hn.
  - change (2 ^ 53)%Z with 9007199254740992%Z in Hn.
    change Uint63.wB with 9223372036854775808%Z. lia.
Qed.

Lemma float_of_int_canonical (z : Z) :
  (1 <= z < 2 ^ 53)%Z ->
  exists f m e,
    Np.float_of_int z = Ok f /\
    Prim2SF f = S754_finite false m e /\
    Z.pos (digits2_pos m) = 53%Z /\ (-52 <= e <= 0)%Z /\
    Z.pos m = (z * 2 ^ (- e))%Z.
Proof.
  intros Hz.
  destruct (binary_normalize_exact z Hz) as (m' & e' & Hn' & Hv).
  destruct (binary_normalize_canonical z Hz) as (m & e & Hn & Hd & He & Hm).
  rewrite Hn in Hn'. injection Hn' as <- <-.
  unfold Np.float_of_int. rewrite Hn.
  set (f := SF2Prim (S754_finite false m e)).
  assert (Hf : Prim2SF f = S754_finite false m e)
    by (apply Prim2SF_SF2Prim; exact Hv).
  assert (Hi : PrimFloat.is_infinity f = false).
  { unfold PrimFloat.is_infinity. rewrite eqb_spec, abs_spec, Hf.
    reflexivity. }
  rewrite Hi. exists f, m, e. auto.
Qed.

(** Beyond the largest float, the conversion raises. *)
Lemma float_of_int_overflow :
  Np.float_of_int (2 ^ 1024) = Raise OverflowError /\
  exists f, Np.float_of_int (2 ^ 1024 - 2 ^ 970 - 1) = Ok f.
Proof. split; [|eexists]; vm_compute; reflexivity. Qed.

End Floats.

(** ** [avg_best_two] and the ranking *)
Section Ranking.

Lemma StronglySorted_impl (A : Type) (P : A -> Prop) (R R' : A -> A -> Prop)
    (l : list A) :
  (forall a b, P a -> P b -> R a b -> R' a b) ->
  Forall P l -> StronglySorted R l -> StronglySorted R' l.
Proof.
  intros Himp HP Hs. induction Hs as [|x l Hs IH Hx]; [constructor|].
  inversion HP as [|? ? Px HP']; subst.
  constructor; [now apply IH|].
  rewrite Forall_forall in *. intros y Hy. apply Himp; auto.
Qed.

(** [sorted] puts floats that are not nan in ascending order. *)
Lemma sorted_floats (l : list float) :
  Forall not_nan l -> StronglySorted fle (Py.list_sort PrimFloat.ltb l).
Proof.
  intros Hl.
  apply (StronglySorted_impl float not_nan
           (fun a b => (b <? a)%float = false)).
  - intros a b Ha Hb. now apply leb_of_ltb.
  - eapply Permutation_Forall; [symmetry; apply list_sort_perm|exact Hl].
  - apply (list_sort_sorted float PrimFloat.ltb not_nan ltb_asym
             ltb_le_trans l Hl).
Qed.

(** With two samples or more, none of them nan, the statistic is the
    mean of the two smallest values. *)
Lemma avg_best_two_smallest (r : OptionResult.t) :
  (2 <= length (OptionResult.eegs r))%nat ->
  Forall not_nan (OptionResult.eegs r) ->
  exists a b,
    two_smallest (OptionResult.eegs r) a b /\
    OptionResult.avg_best_two r = Np.mean [a; b].
Proof.
  intros Hlen Hn. unfold OptionResult.avg_best_two.
  pose proof (list_sort_perm float PrimFloat.ltb (OptionResult.eegs r))
    as Hperm.
  pose proof (sorted_floats (OptionResult.eegs r) Hn) as Hs.
  pose proof (Permutation_length Hperm) as Hl.
  destruct (Py.list_sort PrimFloat.ltb (OptionResult.eegs r))
    as [|a [|b rest]]; cbn [length] in Hl; try lia.
  exists a, b. split; [|reflexivity].
  exists rest. split; [now symmetry|].
  inversion Hs as [|? ? Hs' Ha]; subst.
  inversion Hs' as [|? ? _ Hb]; subst.
  inversion Ha; subst. split; assumption.
Qed.

Lemma rank_perm (rs : list OptionResult.t) : Permutation (Trial.rank rs) rs.
Proof. apply list_sort_perm. Qed.

Lemma rank_key_not_nan (r : OptionResult.t) :
  not_nan (Trial.rank_key r) <-> not_nan (OptionResult.avg_best_two r).
Proof. unfold not_nan, Trial.rank_key. now rewrite is_nan_opp. Qed.

(** When no statistic is nan, the ranking is in descending order of
    [avg_best_two]. *)
Lemma rank_descending (rs : list OptionResult.t) :
  Forall (fun r => not_nan (OptionResult.avg_best_two r)) rs ->
  StronglySorted
    (fun x y => fle (OptionResult.avg_best_two y)
                    (OptionResult.avg_best_two x))
    (Trial.rank rs).
Proof.
  intros Hn.
  set (P := fun r => not_nan (Trial.rank_key r)).
  assert (HP : Forall P rs).
  { eapply Forall_impl; [|exact Hn]. intros r. apply rank_key_not_nan. }
  apply (StronglySorted_impl OptionResult.t P
           (fun a b => (Trial.rank_key b <? Trial.rank_key a)%float = false)).
  - intros a b Ha Hb H. unfold Trial.rank_key in H. rewrite ltb_opp in H.
    apply leb_of_ltb; [now apply rank_key_not_nan..|exact H].
  - eapply Permutation_Forall; [symmetry; apply rank_perm|exact HP].
  - apply (list_sort_sorted OptionResult.t
             (fun x y => (Trial.rank_key x <? Trial.rank_key y)%float) P).
    + intros a b Ha Hb. now apply ltb_asym.
    + intros a b c Ha Hb Hc. now apply ltb_le_trans.
    + exact HP.
Qed.

End Ranking.

(** ** Gathering the samples *)
Section Gathering.

(** A fresh object per option: no sample yet, the id of the option and
    its count. *)
Lemma new_option_results_inv (option_counts : list Z) (options : list Z) :
  forall start rs,
    Trial.new_option_results option_counts
      (Py.enumerate_from start options) = Ok rs ->
    length rs = length options /\
    forall i r, nth_error rs i = Some r ->
      OptionResult.eegs r = [] /\
      nth_error options i = Some (OptionResult.idx r) /\
      nth_error option_counts (start + i)
      = Some (OptionResult.expected_counts r).
Proof.
  induction options as [|o options IH]; intros start rs; simpl.
  - intros E; injection E as <-. split; [reflexivity|].
    intros [|i] r; discriminate.
  - destruct (Py.index option_counts (Z.of_nat start)) as [c| |] eqn:Ec;
      simpl; try discriminate.
    destruct (Trial.new_option_results option_counts
                (Py.enumerate_from (S start) options)) as [rs'| |] eqn:Ers;
      simpl; try discriminate.
    intros E; injection E as <-.
    destruct (IH _ _ Ers) as [Hlen Hnth].
    split; [simpl; congruence|].
    intros [|i] r; simpl.
    + intros E; injection E as <-. simpl.
      rewrite Nat.add_0_r. apply index_of_nat_inv in Ec. auto.
    + intros Hr. destruct (Hnth _ _ Hr) as (H1 & H2 & H3).
      rewrite Nat.add_succ_r. auto.
Qed.

(** The loop over the block appends every sample to the object of the
    option its flash showed, and to the list of all values. *)
Lemma collect_inv (index_list : list nat) (block : list BlockResult) :
  forall rs eegs0 filled eegs,
    Trial.collect index_list block rs eegs0 = (filled, Ok eegs) ->
    eegs = eegs0 ++ map eeg block /\
    length filled = length rs /\
    forall i r0, nth_error rs i = Some r0 ->
      exists r, nth_error filled i = Some r /\
        OptionResult.eegs r
        = OptionResult.eegs r0
          ++ map eeg (filter (resolves index_list i) block) /\
        OptionResult.idx r = OptionResult.idx r0 /\
        OptionResult.expected_counts r = OptionResult.expected_counts r0.
Proof.
  induction block as [|b block IH]; intros rs eegs0 filled eegs; simpl.
  - intros E; injection E as <- <-.
    rewrite app_nil_r. split; [reflexivity|]. split; [reflexivity|].
    intros i r0 H. exists r0. rewrite app_nil_r. auto.
  - unfold resolves.
    destruct (Py.index index_list (image_id b - 1)) as [j| |] eqn:Ej;
      simpl; try (intros E; discriminate).
    destruct (Py.index rs (Z.of_nat j)) as [rj| |] eqn:Erj;
      simpl; try (intros E; discriminate).
    intros E. destruct (IH _ _ _ _ E) as (He & Hlen & Hnth).
    apply index_of_nat_inv in Erj.
    split; [rewrite He, <- app_assoc; reflexivity|].
    split; [rewrite Hlen; apply setitem_length|].
    intros i r0 Hi. fold (resolves index_list i).
    destruct (Nat.eqb_spec j i) as [->|Hne].
    + assert (r0 = rj) by congruence. subst r0.
      destruct (Hnth i (OptionResult.append rj (eeg b) (sort_position b)))
        as (r & Hr & H1 & H2 & H3).
      { eapply setitem_same; eassumption. }
      exists r. split; [assumption|]. simpl in H1, H2, H3.
      rewrite H1, <- app_assoc. auto.
    + destruct (Hnth i r0) as (r & Hr & H1 & H2 & H3).
      { rewrite setitem_other; assumption. }
      exists r. auto.
Qed.

(** What [gather] hands on: one object per option, in the order of the
    options, holding the samples of the flashes of that option in the
    order of the block, and all values of the block. *)
Lemma gather_inv (s : Trial.t) (block : list BlockResult) filled eegs :
  snd (Trial.gather s block) = Ok (filled, eegs) ->
  Trial.option_results (fst (Trial.gather s block)) = Some filled /\
  eegs = map eeg block /\
  length filled = length (Trial.options s) /\
  forall i r, nth_error filled i = Some r ->
    OptionResult.eegs r
    = map eeg (filter (resolves (Trial.index_list s) i) block) /\
    nth_error (Trial.options s) i = Some (OptionResult.idx r) /\
    nth_error (Trial.option_counts s) i
    = Some (OptionResult.expected_counts r).
Proof.
  unfold Trial.gather. cbn [Trial.option_counts Trial.set_results
    Trial.options Trial.index_list].
  destruct (Trial.new_option_results (Trial.option_counts s)
              (Py.enumerate (Trial.options s))) as [rs| |] eqn:Enew;
    try discriminate.
  destruct (Trial.collect (Trial.index_list s) block rs [])
    as [filled' r] eqn:Ecol.
  cbn [fst snd]. destruct r as [eegs'| |]; try discriminate.
  cbn [Py.bind]. intros E; injection E as <- <-.
  destruct (new_option_results_inv _ _ _ _ Enew) as [Hlen0 Hnew].
  destruct (collect_inv _ _ _ _ _ _ Ecol) as (He & Hlen & Hcol).
  split; [reflexivity|]. split; [exact He|]. split; [congruence|].
  intros i r Hr.
  assert (Hi : (i < length rs)%nat).
  { rewrite <- Hlen. apply nth_error_Some. congruence. }
  destruct (nth_error rs i) as [r0|] eqn:Er0;
    [|apply nth_error_None in Er0; lia].
  destruct (Hcol _ _ Er0) as (r' & Hr' & H1 & H2 & H3).
  assert (r' = r) by congruence. subst r'.
  destruct (Hnew _ _ Er0) as (N1 & N2 & N3).
  rewrite H1, N1, H2, H3. auto.
Qed.

End Gathering.

(** ** The confidences *)
Section Confidences.

Lemma num_correct_count (med sd : float) (r : OptionResult.t) :
  Trial.num_correct med sd r
  = Z.of_nat (count_above_half med sd (OptionResult.eegs r)).
Proof.
  unfold Trial.num_correct, count_above_half.
  generalize (OptionResult.eegs r). intros l.
  assert (H : forall acc,
    fold_left Z.add
      (map (fun eeg0 =>
              if (0.5 <? PrimFloat.abs (Trial.z med sd eeg0))%float
              then 1%Z else 0%Z) l) acc
    = (acc + Z.of_nat
         (length
            (filter
               (fun v => (0.5 <? PrimFloat.abs (Trial.z med sd v))%float)
               l)))%Z).
  { induction l as [|v l IH]; intros acc; cbn [map fold_left filter length];
      [lia|].
    rewrite IH.
    destruct (0.5 <? PrimFloat.abs (Trial.z med sd v))%float;
      cbn [length]; lia. }
  rewrite H. lia.
Qed.

(** The confidence of one option, as the scoring pass computes it. *)
Lemma confidence_inv (med sd : float) (r : OptionResult.t) (c : float) :
  Trial.confidence med sd r = Ok c ->
  exists count,
    Np.float_of_int (OptionResult.expected_counts r) = Ok count /\
    (count =? 0)%float = false /\
    let pc :=
      (Np.of_count
         (Z.of_nat (count_above_half med sd (OptionResult.eegs r)))
       * 1 / count)%float in
    Trial.percentage_correct med sd r = Ok pc /\
    c = (Trial.z med sd (OptionResult.average_eeg r) * pc)%float.
Proof.
  unfold Trial.confidence, Trial.percentage_correct.
  rewrite num_correct_count.
  destruct (Np.float_of_int (OptionResult.expected_counts r))
    as [count| |]; cbn [Py.bind]; try discriminate.
  destruct (count =? 0)%float eqn:E; cbn [Py.bind]; [discriminate|].
  intros H; injection H as <-.
  exists count. split; [reflexivity|]. split; [exact E|].
  cbv zeta. split; reflexivity.
Qed.

Lemma confidences_of_inv (med sd : float) (rs : list OptionResult.t) :
  forall cs,
    Trial.confidences_of med sd rs = Ok cs ->
    Forall2 (fun r c => Trial.confidence med sd r = Ok c) rs cs.
Proof.
  induction rs as [|r rs IH]; intros cs; simpl.
  - intros E; injection E as <-. constructor.
  - destruct (Trial.confidence med sd r) as [c| |] eqn:Ec;
      simpl; try discriminate.
    destruct (Trial.confidences_of med sd rs) as [cs'| |] eqn:Ecs;
      simpl; try discriminate.
    intros E; injection E as <-. constructor; auto.
Qed.

(** The [RankResult] of a scoring pass: ids and confidences of the ranked
    options, position by position. *)
Lemma rank_result_inv (s : Trial.t) (block : list BlockResult)
    (result : RankResult) :
  Trial.rank_result s block = Ok result ->
  exists filled,
    snd (Trial.gather s block) = Ok (filled, map eeg block) /\
    option_ids result = map OptionResult.idx (Trial.rank filled) /\
    Forall2
      (fun r c =>
         Trial.confidence (Np.median (map eeg block))
           (Np.std (map eeg block)) r = Ok c)
      (Trial.rank filled) (confidences result).
Proof.
  unfold Trial.rank_result.
  destruct (snd (Trial.gather s block)) as [[filled eegs]| |] eqn:Eg;
    cbn [Py.bind]; try discriminate.
  destruct (gather_inv _ _ _ _ Eg) as (_ & -> & _).
  unfold Trial.score.
  destruct (Trial.confidences_of _ _ _) as [cs| |] eqn:Ecs;
    cbn [Py.bind]; try discriminate.
  intros E; injection E as <-. cbn.
  exists filled. split; [reflexivity|]. split; [reflexivity|].
  now apply confidences_of_inv.
Qed.

Lemma rank_result_length (s : Trial.t) (block : list BlockResult)
    (result : RankResult) :
  Trial.rank_result s block = Ok result ->
  length (option_ids result) = length (Trial.options s) /\
  length (confidences result) = length (Trial.options s).
Proof.
  intros H. destruct (rank_result_inv _ _ _ H) as (filled & Hg & Hids & Hcs).
  destruct (gather_inv _ _ _ _ Hg) as (_ & _ & Hlen & _).
  pose proof (Permutation_length (rank_perm filled)) as Hp.
  split.
  - rewrite Hids, length_map. congruence.
  - rewrite <- (Forall2_length Hcs). congruence.
Qed.

(** What the test does with a [RankResult] that has a confidence. *)
Lemma separation_cases (result : RankResult) (best : float)
    (cs : list float) :
  confidences result = best :: cs ->
  Trial.separation result
  = if Trial.not_a_good_result best (Np.mean cs) (Np.std cs)
    then Raise RuntimeError else Ok result.
Proof.
  intros E. unfold Trial.separation, Trial.others. rewrite E. reflexivity.
Qed.

(** What [process_results] returns is the [RankResult] of the pass. *)
Lemma returned_result (s : Trial.t) (block : list BlockResult)
    (result : RankResult) :
  snd (Trial.process_results s block) = Ok result ->
  Trial.rank_result s block = Ok result.
Proof.
  unfold Trial.process_results. cbn [snd].
  destruct (Trial.rank_result s block) as [r| |]; cbn [Py.bind];
    try discriminate.
  unfold Trial.separation.
  destruct (Py.index (confidences r) 0); cbn [Py.bind]; try discriminate.
  destruct (Trial.not_a_good_result _ _ _); congruence.
Qed.

(** A deviation that is [0.0] or [nan] does not reject. *)
Lemma no_deviation_no_rejection (best avg sd : float) :
  not_negative sd ->
  (sd =? 0)%float = true \/ PrimFloat.is_nan sd = true ->
  Trial.not_a_good_result best avg sd = false.
Proof.
  intros Hs H. unfold Trial.not_a_good_result.
  apply quotient_of_no_deviation. destruct H as [H|H].
  - left. now apply zero_not_negative.
  - right. now apply is_nan_spec.
Qed.

End Confidences.

(** ** The scoring pass *)

(** C1, the claim as stated fails: for an option with the samples 1, 2, 3
    the statistic is 1.5, the mean of 1 and 2, and not 2.5, the mean of
    the two largest values. *)
Lemma avg_best_two_is_not_the_two_largest :
  (2 <= length [1; 2; 3]%float)%nat /\
  OptionResult.avg_best_two (OptionResult.mk [1; 2; 3]%float [] 0 3) = 1.5%float /\
  mean_of_two_largest [1; 2; 3]%float = 2.5%float /\
  (OptionResult.avg_best_two (OptionResult.mk [1; 2; 3]%float [] 0 3)
   =? mean_of_two_largest [1; 2; 3]%float)%float = false.
Proof.
  split; [repeat constructor|].
  split; [vm_compute; reflexivity|].
  split; vm_compute; reflexivity.
Qed.

(** C1, as amended: for options with at least two samples each, none of
    them nan, [avg_best_two] of each option is [np.mean] of its two
    smallest signal values; the ranking of the scoring pass is a
    rearrangement of the options; and when no statistic is nan it is in
    descending order of this statistic and gives [option_ids] their
    order in what [process_results] returns. *)
Theorem ranking_by_the_two_smallest (rs : list OptionResult.t) :
  Forall (fun r => (2 <= length (OptionResult.eegs r))%nat /\
                   Forall not_nan (OptionResult.eegs r)) rs ->
  Forall (fun r => exists a b,
              two_smallest (OptionResult.eegs r) a b /\
              OptionResult.avg_best_two r = Np.mean [a; b]) rs /\
  Permutation (Trial.rank rs) rs /\
  (Forall (fun r => not_nan (OptionResult.avg_best_two r)) rs ->
   StronglySorted
     (fun x y => fle (OptionResult.avg_best_two y)
                     (OptionResult.avg_best_two x))
     (Trial.rank rs) /\
   forall s block eegs result,
     snd (Trial.gather s block) = Ok (rs, eegs) ->
     snd (Trial.process_results s block) = Ok result ->
     option_ids result = map OptionResult.idx (Trial.rank rs)).
Proof.
  intros Hlen. split; [|split].
  - eapply Forall_impl; [|exact Hlen].
    intros r [Hr Hn]. now apply avg_best_two_smallest.
  - apply rank_perm.
  - intros Hn. split; [now apply rank_descending|].
    intros s block eegs result Hg Hp.
    apply returned_result in Hp.
    destruct (rank_result_inv _ _ _ Hp) as (filled & Hg' & Hids & _).
    rewrite Hg in Hg'. injection Hg' as <- _. exact Hids.
Qed.

Lemma ranking_by_the_two_smallest_witness :
  let rs := [OptionResult.mk [3; 1; 2]%float [] 7 3;
             OptionResult.mk [5; 4]%float [] 8 2]
  in
  Forall (fun r => exists a b,
              two_smallest (OptionResult.eegs r) a b /\
              OptionResult.avg_best_two r = Np.mean [a; b]) rs /\
  Permutation (Trial.rank rs) rs /\
  (Forall (fun r => not_nan (OptionResult.avg_best_two r)) rs ->
   StronglySorted
     (fun x y => fle (OptionResult.avg_best_two y)
                     (OptionResult.avg_best_two x))
     (Trial.rank rs) /\
   forall s block eegs result,
     snd (Trial.gather s block) = Ok (rs, eegs) ->
     snd (Trial.process_results s block) = Ok result ->
     option_ids result = map OptionResult.idx (Trial.rank rs)).
Proof.
  intros rs. apply (ranking_by_the_two_smallest rs).
  repeat constructor.
Defined.

(** C3, the claim as stated fails: in [two_option_trial] with
    [two_option_block] the confidences come out as -1 for the top option
    and 1 for the other one, so the deviation of the others is 0; the
    specification rejects, but the quotient is [inf], the comparison with
    2 is false and the result is returned. *)
Lemma zero_deviation_is_accepted :
  exists best,
    Trial.rank_result two_option_trial two_option_block
    = Ok two_option_result /\
    (2 <= length (Trial.options two_option_trial))%nat /\
    Py.index (confidences two_option_result) 0 = Ok best /\
    best = (-1)%float /\
    Np.std (Trial.others two_option_result) = 0%float /\
    ~ (snd (Trial.process_results two_option_trial two_option_block)
       = Raise RuntimeError
       <-> stated_rejection best
             (Np.mean (Trial.others two_option_result))
             (Np.std (Trial.others two_option_result))).
Proof.
  eexists.
  split; [vm_compute; reflexivity|].
  split; [repeat constructor|].
  split; [vm_compute; reflexivity|].
  split; [reflexivity|].
  split; [vm_compute; reflexivity|].
  intros [_ H].
  assert (Hz : stated_rejection (-1)%float
                 (Np.mean (Trial.others two_option_result))
                 (Np.std (Trial.others two_option_result))).
  { left. vm_compute. reflexivity. }
  specialize (H Hz). vm_compute in H. discriminate.
Qed.

(** C3, as amended: in a scoring pass with at least two options that gets
    as far as the test, [process_results] raises the rejection exactly
    when the quotient [|best - mean| / deviation] of the top confidence
    and of the mean and the deviation of the other confidences, as the
    floats compute it, is below 2, and returns the [RankResult]
    otherwise; the deviation is never negative, and when it is 0 (or
    nan) the quotient is [inf] or [nan] and the [RankResult] is
    returned. *)
Theorem rejection_rule (s : Trial.t) (block : list BlockResult)
    (result : RankResult) :
  Trial.rank_result s block = Ok result ->
  (2 <= length (Trial.options s))%nat ->
  exists best,
    Py.index (confidences result) 0 = Ok best /\
    let rest_mean := Np.mean (Trial.others result) in
    let rest_std := Np.std (Trial.others result) in
    (snd (Trial.process_results s block) = Raise RuntimeError
     <-> insufficient best rest_mean rest_std) /\
    (~ insufficient best rest_mean rest_std
     -> snd (Trial.process_results s block) = Ok result) /\
    not_negative rest_std /\
    ((rest_std =? 0)%float = true \/ PrimFloat.is_nan rest_std = true
     -> snd (Trial.process_results s block) = Ok result).
Proof.
  intros Hr Hn.
  destruct (rank_result_length _ _ _ Hr) as [_ Hlen].
  destruct (confidences result) as [|best cs] eqn:Ec;
    [cbn in Hlen; lia|].
  exists best. split; [reflexivity|]. cbv zeta.
  assert (Hsep : snd (Trial.process_results s block)
                 = if Trial.not_a_good_result best
                        (Np.mean (Trial.others result))
                        (Np.std (Trial.others result))
                   then Raise RuntimeError else Ok result).
  { unfold Trial.process_results. cbn [snd]. rewrite Hr. cbn [Py.bind].
    unfold Trial.separation. rewrite Ec. reflexivity. }
  rewrite Hsep.
  pose proof (no_deviation_no_rejection best (Np.mean (Trial.others result))
                (Np.std (Trial.others result))
                (std_not_negative (Trial.others result))) as Hz.
  unfold insufficient.
  change (PrimFloat.abs (best - Np.mean (Trial.others result))
          / Np.std (Trial.others result) <? 2)%float
    with (Trial.not_a_good_result best (Np.mean (Trial.others result))
            (Np.std (Trial.others result))).
  destruct (Trial.not_a_good_result best (Np.mean (Trial.others result))
              (Np.std (Trial.others result))).
  - split; [split; [reflexivity|reflexivity]|].
    split; [intros H; exfalso; now apply H|].
    split; [apply std_not_negative|].
    intros H. specialize (Hz H). discriminate.
  - split; [split; discriminate|].
    split; [reflexivity|].
    split; [apply std_not_negative|reflexivity].
Qed.

Lemma rejection_rule_witness :
  exists best,
    Py.index (confidences three_option_result) 0 = Ok best /\
    let rest_mean := Np.mean (Trial.others three_option_result) in
    let rest_std := Np.std (Trial.others three_option_result) in
    (snd (Trial.process_results three_option_trial three_option_block)
     = Raise RuntimeError
     <-> insufficient best rest_mean rest_std) /\
    (~ insufficient best rest_mean rest_std
     -> snd (Trial.process_results three_option_trial three_option_block)
        = Ok three_option_result) /\
    not_negative rest_std /\
    ((rest_std =? 0)%float = true \/ PrimFloat.is_nan rest_std = true
     -> snd (Trial.process_results three_option_trial three_option_block)
        = Ok three_option_result).
Proof.
  apply (rejection_rule three_option_trial three_option_block
           three_option_result).
  - vm_compute. reflexivity.
  - repeat constructor.
Defined.

(** In that pass the top confidence lies one deviation from the mean of
    the other two, and the pass is rejected; the two-option pass above is
    returned. *)
Lemma rejection_and_acceptance_happen :
  snd (Trial.process_results three_option_trial three_option_block)
  = Raise RuntimeError /\
  snd (Trial.process_results two_option_trial two_option_block)
  = Ok two_option_result.
Proof. split; vm_compute; reflexivity. Qed.



(* ================================================================== *)
(** * Part III: further properties of the code *)
(* ================================================================== *)

(** ** More on [_nonadjacent] and the construction *)
Section MoreSequencing.

(** The loop pops only from a heap that is not empty: it never raises. *)
Lemma loop_never_raises fuel : forall heap hand e,
  Trial.nonadjacent_loop fuel heap hand <> Raise e.
Proof.
  induction fuel as [|fuel IH]; intros heap hand e;
    destruct heap as [|[c1 k1] h']; try discriminate.
  rewrite loop_step.
  destruct (Trial.nonadjacent_loop fuel (next_heap hand h')
              (Some ((c1 + 1)%Z, k1))) as [rest| |] eqn:E;
    cbn [Py.bind]; try discriminate.
  exfalso. exact (IH _ _ _ E).
Qed.

(** With a positive count in hand and no negative count in a heap that is
    not empty, the loop goes on for ever. *)
Lemma loop_runs_on fuel : forall (heap : Heapq.heap) c k,
  heap <> [] ->
  Forall (fun it : Heapq.item => (0 <= fst it)%Z) heap ->
  (1 <= c)%Z ->
  Trial.nonadjacent_loop fuel heap (Some (c, k)) = OutOfFuel.
Proof.
  induction fuel as [|fuel IH]; intros heap c k Hne Hall Hc;
    destruct heap as [|[c1 k1] h']; try congruence; [reflexivity|].
  rewrite loop_step.
  inversion Hall as [|? ? Hc1 Hh']; subst. cbn [fst] in Hc1.
  rewrite IH; [reflexivity| | |lia].
  - cbn [next_heap]. destruct (Z.eqb_spec c 0); [lia|].
    intros E.
    pose proof (Permutation_length (heappush_perm h' (c, k))) as Hl.
    rewrite E in Hl. discriminate.
  - cbn [next_heap]. destruct (Z.eqb_spec c 0); [lia|].
    eapply Permutation_Forall; [symmetry; apply heappush_perm|].
    constructor; [cbn; lia|assumption].
Qed.

Lemma items_not_negative (counts : list Z) :
  Forall (fun c => (c <= 0)%Z) counts ->
  forall start,
    Forall (fun it : Heapq.item => (0 <= fst it)%Z) (items_from start counts).
Proof.
  induction 1 as [|c cs Hc _ IH]; intros start; simpl; constructor.
  - cbn. lia.
  - apply IH.
Qed.

Lemma enumerate_from_length (A : Type) (l : list A) : forall start,
  length (Py.enumerate_from start l) = length l.
Proof. induction l as [|x l IH]; intros start; simpl; auto. Qed.

End MoreSequencing.

(** X1: for counts that are all at least 1, [_nonadjacent] returns (within
    [sum(counts)] rounds) a sequence in which two neighbours are equal only
    inside a final run of one single option. *)
Theorem nonadjacent_spreads_the_options (counts : list Z) (fuel : nat) :
  Forall (fun c => (1 <= c)%Z) counts ->
  (sum_counts counts < Z.of_nat fuel)%Z ->
  exists l, Trial._nonadjacent fuel counts = Ok l /\ spread l.
Proof.
  intros Hpos Hfuel.
  destruct (nonadjacent_returns fuel counts Hpos Hfuel) as [l Hl].
  exists l. split; [exact Hl|].
  now destruct (nonadjacent_correct fuel counts l Hpos Hl) as (_ & _ & Hs).
Qed.

Lemma nonadjacent_spreads_the_options_witness :
  exists l, Trial._nonadjacent 8 [3; 1; 3]%Z = Ok l /\ spread l.
Proof.
  apply (nonadjacent_spreads_the_options [3; 1; 3]%Z 8).
  - repeat constructor; discriminate.
  - reflexivity.
Defined.

(** X2: with two options or more and no positive count, the generator
    never comes to an end: whatever the number of rounds allowed, the loop
    is still running. *)
Theorem nonadjacent_without_counts_runs_for_ever (counts : list Z)
    (fuel : nat) :
  (2 <= length counts)%nat ->
  Forall (fun c => (c <= 0)%Z) counts ->
  Trial._nonadjacent fuel counts = OutOfFuel.
Proof.
  intros Hlen Hall. unfold Trial._nonadjacent, Py.enumerate.
  change (map _ (Py.enumerate_from 0 counts)) with (items_from 0 counts).
  pose proof (heapify_perm (items_from 0 counts)) as Hperm.
  pose proof (items_not_negative counts Hall 0) as Hitems.
  assert (Hheap : Forall (fun it : Heapq.item => (0 <= fst it)%Z)
                    (Heapq.heapify (items_from 0 counts))).
  { eapply Permutation_Forall; [symmetry; exact Hperm|exact Hitems]. }
  pose proof (Permutation_length Hperm) as Hl.
  unfold items_from in Hl at 2. rewrite length_map in Hl.
  rewrite enumerate_from_length in Hl.
  destruct (Heapq.heapify (items_from 0 counts)) as [|[c1 k1] [|it h']];
    cbn [length] in Hl; try lia.
  destruct fuel as [|fuel]; [reflexivity|].
  rewrite loop_step. cbn [next_heap].
  inversion Hheap as [|? ? Hc1 Hrest]; subst. cbn [fst] in Hc1.
  rewrite loop_runs_on; [reflexivity|discriminate|assumption|lia].
Qed.

Lemma nonadjacent_without_counts_runs_for_ever_witness :
  Trial._nonadjacent 50 [0; 0; -1]%Z = OutOfFuel.
Proof.
  apply (nonadjacent_without_counts_runs_for_ever [0; 0; -1]%Z 50).
  - repeat constructor.
  - repeat constructor; discriminate.
Defined.

(** X3: a single option is yielded [max(1, count)] times: once even when
    its count is 0 or negative. *)
Theorem nonadjacent_of_one_option (c : Z) (fuel : nat) :
  Trial._nonadjacent (S fuel) [c]
  = Ok (repeat 0%nat (Z.to_nat (Z.max 1 c))).
Proof.
  unfold Trial._nonadjacent. cbn [Py.enumerate Py.enumerate_from map fst snd
    Heapq.heapify Py.sorted fold_right Py.insert].
  rewrite loop_step. cbn [next_heap].
  replace (Trial.nonadjacent_loop fuel [] (Some ((- c + 1)%Z, 0%nat)))
    with (Ok (A := list nat) (repeat 0%nat (Z.to_nat (- (- c + 1)))))
    by (destruct fuel; reflexivity).
  cbn [Py.bind]. f_equal.
  replace (Z.to_nat (Z.max 1 c)) with (S (Z.to_nat (- (- c + 1)))) by lia.
  reflexivity.
Qed.

(** X4: the constructor raises exactly when there is an option and
    [max_repeat] does not exceed [max(1, min_repeat)], and what it raises
    then is [ValueError]. *)
Theorem init_raises_on_an_empty_range_only (options : list Z) (pt it : Q)
    (mn mx : Z) (fuel : nat) (g : Random.rng) (e : exn) :
  Trial.__init__ options pt it mn mx fuel g = Raise e
  <-> e = ValueError /\ options <> [] /\ (mx <= Z.max 1 mn)%Z.
Proof.
  split.
  - unfold Trial.__init__, Trial._construct_trial.
    destruct (Z_lt_le_dec (Z.max 1 mn) mx) as [Hlt|Hle].
    + replace (Z.max (Z.max 1 mn) mx) with mx by lia.
      destruct (draw_counts_returns options (Z.max 1 mn) mx Hlt g)
        as (counts & g1 & ->).
      cbn [Py.bind].
      destruct (Trial._nonadjacent fuel counts) as [l| |] eqn:El;
        cbn [Py.bind].
      * destruct (Random.shuffle l g1). discriminate.
      * exfalso. exact (loop_never_raises _ _ _ _ El).
      * discriminate.
    + destruct options as [|o options].
      * cbn [Trial.draw_counts Py.bind].
        destruct (Trial._nonadjacent fuel []) as [l| |] eqn:El;
          cbn [Py.bind].
        -- destruct (Random.shuffle l g). discriminate.
        -- exfalso. exact (loop_never_raises _ _ _ _ El).
        -- discriminate.
      * cbn [Trial.draw_counts]. rewrite randrange_empty by lia.
        cbn [Py.bind]. intros E; injection E as <-.
        repeat split; [discriminate|lia].
  - intros (-> & Hne & Hle). destruct options as [|o options]; [congruence|].
    now apply init_empty_range_raises.
Qed.

(** X5: in a trial that the constructor returns there is one count per
    option, [min_repeat] is at least 1, every position of the order is the
    position of an option, and every option is flashed at least
    [min_repeat] times and fewer than [max_repeat] times. *)
Theorem built_trial_is_well_formed (options : list Z) (pt it : Q)
    (mn mx : Z) (fuel : nat) (g : Random.rng) (s : Trial.t) :
  Trial.__init__ options pt it mn mx fuel g = Ok s ->
  length (Trial.option_counts s) = length (Trial.options s) /\
  (1 <= Trial.min_repeat s)%Z /\
  Forall (fun i => (i < length (Trial.options s))%nat) (Trial.index_list s) /\
  (forall k, (k < length (Trial.options s))%nat ->
     (Trial.min_repeat s
      <= Z.of_nat (count_occ Nat.eq_dec (Trial.index_list s) k)
      < Trial.max_repeat s)%Z).
Proof.
  intros H.
  destruct (init_inv _ _ _ _ _ _ _ _ H)
    as (_ & _ & Ho & _ & _ & Hlen & Hall & _).
  destruct (init_order _ _ _ _ _ _ _ _ H) as (_ & Hcnt & Hwf).
  assert (Hmin : Trial.min_repeat s = Z.max 1 mn /\
                 Trial.max_repeat s = Z.max (Z.max 1 mn) mx).
  { unfold Trial.__init__ in H.
    destruct (Trial._construct_trial _ _ _ _ _) as [[[il oc] g']| |];
      cbn [Py.bind] in H; try discriminate.
    injection H as <-. split; reflexivity. }
  destruct Hmin as [Hmin Hmax].
  split; [congruence|]. split; [lia|]. split; [exact Hwf|].
  intros k Hk. rewrite Hcnt, Hmin, Hmax.
  rewrite Forall_forall in Hall. apply Hall.
  apply nth_In. rewrite Hlen, <- Ho. exact Hk.
Qed.

Lemma built_trial_is_well_formed_witness :
  exists s,
    Trial.__init__ [10; 20]%Z 1000 100 1 3 10 [1; 0; 1; 1]%nat = Ok s /\
    length (Trial.option_counts s) = length (Trial.options s) /\
    (1 <= Trial.min_repeat s)%Z /\
    Forall (fun i => (i < length (Trial.options s))%nat)
      (Trial.index_list s) /\
    (forall k, (k < length (Trial.options s))%nat ->
       (Trial.min_repeat s
        <= Z.of_nat (count_occ Nat.eq_dec (Trial.index_list s) k)
        < Trial.max_repeat s)%Z).
Proof.
  eexists. split; [reflexivity|].
  apply (built_trial_is_well_formed
           [10; 20]%Z 1000 100 1 3 10 [1; 0; 1; 1]%nat).
  reflexivity.
Defined.

(** ** More on the state machine *)
Section MoreStateMachine.

Lemma run_cursor (calls : list Trial.call) : forall s,
  cursor_ok s -> cursor_ok (Trial.run s calls).
Proof.
  induction calls as [|c calls IH]; intros s H; [exact H|].
  apply IH, step_cursor, H.
Qed.

(** The cells of the grid: the quotient and the remainder by a side that
    is long enough both stay below the side. *)
Lemma cell_indexes (n counter : nat) :
  (counter < n)%nat ->
  (0 < Trial.elements_per_side n)%nat /\
  (counter / Trial.elements_per_side n < Trial.elements_per_side n)%nat /\
  (counter mod Trial.elements_per_side n < Trial.elements_per_side n)%nat.
Proof.
  intros Hc. unfold Trial.elements_per_side.
  assert (Hn : (0 < n)%nat) by lia.
  pose proof (proj2 (Nat.sqrt_up_pos n) Hn) as He.
  destruct (Nat.sqrt_up_spec n Hn) as [_ Hsq]. cbn in Hsq.
  split; [exact He|]. split.
  - apply Nat.Div0.div_lt_upper_bound. lia.
  - apply Nat.mod_upper_bound. lia.
Qed.

End MoreStateMachine.

(** X6: on a trial that the constructor returned with at least one option,
    [show_next_image] never raises, whatever was called before: in INIT it
    shows the preview and returns [preview_time]; in PREVIEW and RUNNING it
    either flashes an option of the trial and returns [image_time], or
    completes the trial and returns 0; in COMPLETED and ABORTED it returns
    0 and changes nothing. *)
Theorem show_next_image_of_a_built_trial_returns (options : list Z)
    (pt it : Q) (mn mx : Z) (fuel : nat) (g : Random.rng) (s0 : Trial.t)
    (calls : list Trial.call) :
  Trial.__init__ options pt it mn mx fuel g = Ok s0 ->
  options <> [] ->
  let s := Trial.run s0 calls in
  let s' := fst (Trial.show_next_image s) in
  exists w d,
    snd (Trial.show_next_image s) = Ok (w, d) /\
    match Trial.mode s with
    | Trial.INIT =>
        w = pt /\ Trial.mode s' = Trial.PREVIEW /\
        d = Preview (Trial.elements_per_side (length options)) options
    | Trial.PREVIEW | Trial.RUNNING =>
        (w = it /\ Trial.mode s' = Trial.RUNNING /\
         exists i id, d = Flash i id /\ nth_error options i = Some id /\
           nth_error (Trial.index_list s0) (Z.to_nat (Trial.index_ptr s'))
           = Some i) \/
        (w = 0 /\ Trial.mode s' = Trial.COMPLETED /\ d = Unchanged)
    | Trial.COMPLETED | Trial.ABORTED => w = 0 /\ s' = s /\ d = Unchanged
    end.
Proof.
  intros Hinit Hne s s'.
  destruct (init_inv _ _ _ _ _ _ _ _ Hinit)
    as (Hm0 & Hp0 & Ho0 & Hpt0 & Hit0 & _).
  destruct (init_order _ _ _ _ _ _ _ _ Hinit) as (_ & _ & Hwf0).
  destruct (run_frame calls s0) as (Hil & _ & Ho & Hpt & Hit).
  assert (Hc : cursor_ok s).
  { apply run_cursor. split; [lia|congruence]. }
  fold s in Hil, Ho, Hpt, Hit. subst s'.
  rewrite Ho0 in *. rewrite Hpt0 in Hpt. rewrite Hit0 in Hit.
  destruct Hc as [Hb Hr].
  destruct s as [m pt' it' opts mn' mx' il oc ip sel rs ors].
  cbn in Hil, Ho, Hpt, Hit, Hb, Hr. subst pt' it' opts il.
  assert (Hside : Trial.elements_per_side (length options) <> 0%nat).
  { destruct options as [|o os]; [congruence|].
    destruct (cell_indexes (length (o :: os)) 0) as [H _];
      cbn [length] in *; lia. }
  assert (Hflash : forall p,
    (0 <= p < Z.of_nat (length (Trial.index_list s0)))%Z ->
    exists i id,
      Py.index (Trial.index_list s0) p = Ok i /\
      Py.index options (Z.of_nat i) = Ok id /\
      nth_error options i = Some id /\
      nth_error (Trial.index_list s0) (Z.to_nat p) = Some i).
  { intros p Hp.
    destruct (nth_error (Trial.index_list s0) (Z.to_nat p)) as [i|] eqn:Ei;
      [|apply nth_error_None in Ei; lia].
    assert (Hi : (i < length options)%nat).
    { rewrite Forall_forall in Hwf0. apply Hwf0.
      eapply nth_error_In; eassumption. }
    destruct (nth_error options i) as [id|] eqn:Eid;
      [|apply nth_error_None in Eid; lia].
    exists i, id. repeat split; auto.
    - rewrite <- (Z2Nat.id p) by lia. now apply index_of_nat.
    - now apply index_of_nat. }
  unfold Trial.show_next_image. cbn.
  destruct m; cbn.
  - unfold Trial._display_preview_image. cbn.
    destruct (Nat.eqb_spec (Trial.elements_per_side (length options)) 0);
      [contradiction|].
    cbn. eexists. eexists. repeat split.
  - destruct (Z.leb_spec (Z.of_nat (length (Trial.index_list s0))) 0); cbn.
    + eexists. eexists. split; [reflexivity|]. right. repeat split.
    + destruct (Hflash 0%Z) as (i & id & H1 & H2 & H3 & H4); [lia|].
      rewrite H1. cbn. rewrite H2. cbn.
      eexists. eexists. split; [reflexivity|]. left.
      repeat split. exists i, id. auto.
  - specialize (Hr eq_refl).
    destruct (Z.leb_spec (Z.of_nat (length (Trial.index_list s0))) (ip + 1));
      cbn.
    + eexists. eexists. split; [reflexivity|]. right. repeat split.
    + destruct (Hflash (ip + 1)%Z) as (i & id & H1 & H2 & H3 & H4); [lia|].
      rewrite H1. cbn. rewrite H2. cbn.
      eexists. eexists. split; [reflexivity|]. left.
      repeat split. exists i, id. auto.
  - eexists. eexists. repeat split.
  - eexists. eexists. repeat split.
Qed.

Lemma show_next_image_of_a_built_trial_returns_witness :
  exists s0,
    Trial.__init__ [10; 20]%Z 1000 100 1 3 10 [1; 0; 1; 1]%nat = Ok s0 /\
    let s := Trial.run s0 [Trial.CallShowNextImage; Trial.CallShowNextImage]
    in
    let s' := fst (Trial.show_next_image s) in
    exists w d,
      snd (Trial.show_next_image s) = Ok (w, d) /\
      match Trial.mode s with
      | Trial.INIT =>
          w = 1000 /\ Trial.mode s' = Trial.PREVIEW /\
          d = Preview (Trial.elements_per_side 2) [10; 20]%Z
      | Trial.PREVIEW | Trial.RUNNING =>
          (w = 100 /\ Trial.mode s' = Trial.RUNNING /\
           exists i id, d = Flash i id /\
             nth_error [10; 20]%Z i = Some id /\
             nth_error (Trial.index_list s0)
               (Z.to_nat (Trial.index_ptr s')) = Some i) \/
          (w = 0 /\ Trial.mode s' = Trial.COMPLETED /\ d = Unchanged)
      | Trial.COMPLETED | Trial.ABORTED =>
          w = 0 /\ s' = s /\ d = Unchanged
      end.
Proof.
  eexists. split; [reflexivity|].
  apply (show_next_image_of_a_built_trial_returns
           [10; 20]%Z 1000 100 1 3 10 [1; 0; 1; 1]%nat).
  - reflexivity.
  - discriminate.
Defined.

(** X7: a trial without any option can be constructed, whatever the
    repeat range; its first [show_next_image] raises [ZeroDivisionError]
    after the mode has moved on to PREVIEW, and the next call completes
    the trial without a flash. *)
Theorem trial_without_options (pt it : Q) (mn mx : Z) (fuel : nat)
    (g : Random.rng) :
  exists s,
    Trial.__init__ [] pt it mn mx fuel g = Ok s /\
    Trial.index_list s = [] /\
    snd (Trial.show_next_image s) = Raise ZeroDivisionError /\
    Trial.mode (fst (Trial.show_next_image s)) = Trial.PREVIEW /\
    snd (Trial.show_next_image (fst (Trial.show_next_image s)))
    = Ok (0, Unchanged) /\
    Trial.mode (fst (Trial.show_next_image (fst (Trial.show_next_image s))))
    = Trial.COMPLETED.
Proof.
  eexists. split.
  - unfold Trial.__init__, Trial._construct_trial, Trial._nonadjacent.
    cbn [Trial.draw_counts Py.bind Py.enumerate Py.enumerate_from map
         Heapq.heapify Py.sorted fold_right].
    replace (Trial.nonadjacent_loop fuel [] None)
      with (Ok (A := list nat) []) by (destruct fuel; reflexivity).
    reflexivity.
  - repeat split.
Qed.

(** X8: in a window of [size] with at least one option, the preview grid
    has one cell per option, every cell lies inside the window, and when
    the window is at least [elements_per_side] wide and high no two
    options get the same cell. *)
Theorem preview_cells_fit_the_window (w h : Z) (n : nat) :
  (0 < n)%nat -> (0 <= w)%Z -> (0 <= h)%Z ->
  exists cells,
    Trial.preview_cells (w, h) n = Ok cells /\
    length cells = n /\
    Forall (fun r =>
              (0 <= Trial.rect_left r)%Z /\ (0 <= Trial.rect_width r)%Z /\
              (Trial.rect_left r + Trial.rect_width r <= w)%Z /\
              (0 <= Trial.rect_top r)%Z /\ (0 <= Trial.rect_height r)%Z /\
              (Trial.rect_top r + Trial.rect_height r <= h)%Z) cells /\
    ((Z.of_nat (Trial.elements_per_side n) <= w)%Z ->
     (Z.of_nat (Trial.elements_per_side n) <= h)%Z ->
     NoDup (map (fun r => (Trial.rect_left r, Trial.rect_top r)) cells)).
Proof.
  intros Hn Hw Hh. unfold Trial.preview_cells.
  set (e := Trial.elements_per_side n).
  assert (He : (0 < e)%nat) by (apply (cell_indexes n 0 Hn)).
  destruct (Nat.eqb_spec e 0); [lia|].
  eexists. split; [reflexivity|]. cbn [fst snd].
  assert (Hgw : (0 <= w / Z.of_nat e)%Z) by (apply Z.div_pos; lia).
  assert (Hgh : (0 <= h / Z.of_nat e)%Z) by (apply Z.div_pos; lia).
  assert (Hmw : (Z.of_nat e * (w / Z.of_nat e) <= w)%Z)
    by (apply Z.mul_div_le; lia).
  assert (Hmh : (Z.of_nat e * (h / Z.of_nat e) <= h)%Z)
    by (apply Z.mul_div_le; lia).
  split; [now rewrite length_map, length_seq|]. split.
  - apply Forall_forall. intros r Hr.
    apply in_map_iff in Hr. destruct Hr as (c & <- & Hc).
    apply in_seq in Hc.
    destruct (cell_indexes n c) as (_ & Hrow & Hcol); [lia|]. fold e in Hrow, Hcol.
    cbn. nia.
  - intros Hew Heh.
    assert (Hgw1 : (1 <= w / Z.of_nat e)%Z)
      by (apply Z.div_le_lower_bound; lia).
    assert (Hgh1 : (1 <= h / Z.of_nat e)%Z)
      by (apply Z.div_le_lower_bound; lia).
    rewrite map_map. cbn.
    apply NoDup_map_NoDup_ForallPairs; [|apply seq_NoDup].
    intros c1 c2 _ _ E. injection E as E1 E2.
    apply Z.mul_cancel_r in E1; [|lia]. apply Z.mul_cancel_r in E2; [|lia].
    apply Nat2Z.inj in E1. apply Nat2Z.inj in E2.
    rewrite (Nat.div_mod_eq c1 e), (Nat.div_mod_eq c2 e). congruence.
Qed.

Lemma preview_cells_fit_the_window_witness :
  exists cells,
    Trial.preview_cells (640%Z, 480%Z) 5 = Ok cells /\
    length cells = 5%nat /\
    Forall (fun r =>
              (0 <= Trial.rect_left r)%Z /\ (0 <= Trial.rect_width r)%Z /\
              (Trial.rect_left r + Trial.rect_width r <= 640)%Z /\
              (0 <= Trial.rect_top r)%Z /\ (0 <= Trial.rect_height r)%Z /\
              (Trial.rect_top r + Trial.rect_height r <= 480)%Z) cells /\
    ((Z.of_nat (Trial.elements_per_side 5) <= 640)%Z ->
     (Z.of_nat (Trial.elements_per_side 5) <= 480)%Z ->
     NoDup (map (fun r => (Trial.rect_left r, Trial.rect_top r)) cells)).
Proof.
  apply (preview_cells_fit_the_window 640 480 5).
  - repeat constructor.
  - discriminate.
  - discriminate.
Defined.

(** ** More on the scoring pass *)
Section MoreScoring.

(** A single value has no deviation: [0.0], or [nan] when the value is
    [inf] or [nan]. *)
Lemma std_single (c : float) :
  Np.std [c] = PrimFloat.nan \/ Np.std [c] = 0%float.
Proof.
  unfold Np.std, Np.mean.
  rewrite !sum_short by (cbn [map length]; lia).
  cbn [map length fold_left]. rewrite !zero_add_twice.
  change (Np.of_count (Z.of_nat 1)) with 1%float.
  rewrite !div_one.
  set (r := PrimFloat.sqrt _).
  assert (H : Prim2SF r = S754_nan \/ Prim2SF r = S754_zero false).
  { subst r. rewrite sqrt_spec, add_spec, mul_spec, sub_spec, add_spec.
    change (Prim2SF 0%float) with (S754_zero false).
    destruct (Prim2SF c) as [s|s| |s m e].
    - destruct s; cbn; auto.
    - destruct s; cbn; auto.
    - cbn. auto.
    - unfold SF64sqrt, SF64add, SF64mul, SF64sub.
      cbn [SFadd SFsub]. rewrite Z.sub_diag. cbn. auto. }
  destruct H as [H|H]; [left|right]; apply Prim2SF_inj; rewrite H;
    reflexivity.
Qed.

(** Before the test the pass raises [IndexError], [ZeroDivisionError] or
    [OverflowError] only. *)
Lemma index_raises (A : Type) (l : list A) (i : Z) (e : exn) :
  Py.index l i = Raise e -> e = IndexError.
Proof.
  unfold Py.index.
  destruct (_ || _)%bool; [congruence|].
  destruct (nth_error l _); congruence.
Qed.

Lemma index_in_time (A : Type) (l : list A) (i : Z) :
  Py.index l i <> OutOfFuel.
Proof.
  unfold Py.index.
  destruct (_ || _)%bool; [congruence|].
  destruct (nth_error l _); congruence.
Qed.

Lemma new_option_results_raises (option_counts : list Z)
    (opts : list (nat * Z)) :
  match Trial.new_option_results option_counts opts with
  | Ok _ => True
  | Raise e => e = IndexError
  | OutOfFuel => False
  end.
Proof.
  induction opts as [|[i o] opts IH]; cbn; [exact I|].
  destruct (Py.index option_counts (Z.of_nat i)) as [c| |] eqn:Ec; cbn.
  - destruct (Trial.new_option_results option_counts opts); cbn; auto.
  - eapply index_raises; eassumption.
  - eapply index_in_time; eassumption.
Qed.

Lemma collect_raises (index_list : list nat) (block : list BlockResult) :
  forall rs eegs0,
    match snd (Trial.collect index_list block rs eegs0) with
    | Ok _ => True
    | Raise e => e = IndexError
    | OutOfFuel => False
    end.
Proof.
  induction block as [|b block IH]; intros rs eegs0; cbn; [exact I|].
  destruct (Py.index index_list (image_id b - 1)) as [j| |] eqn:Ej; cbn.
  - destruct (Py.index rs (Z.of_nat j)) as [r| |] eqn:Er; cbn.
    + apply IH.
    + eapply index_raises; eassumption.
    + eapply index_in_time; eassumption.
  - eapply index_raises; eassumption.
  - eapply index_in_time; eassumption.
Qed.

Lemma float_of_int_raises (z : Z) :
  match Np.float_of_int z with
  | Ok _ => True
  | Raise e => e = OverflowError
  | OutOfFuel => False
  end.
Proof.
  unfold Np.float_of_int. destruct (PrimFloat.is_infinity _); auto.
Qed.

Lemma confidences_of_raises (med sd : float) (rs : list OptionResult.t) :
  match Trial.confidences_of med sd rs with
  | Ok _ => True
  | Raise e => e = ZeroDivisionError \/ e = OverflowError
  | OutOfFuel => False
  end.
Proof.
  induction rs as [|r rs IH]; cbn; [exact I|].
  unfold Trial.confidence, Trial.percentage_correct.
  pose proof (float_of_int_raises (OptionResult.expected_counts r)) as Hf.
  destruct (Np.float_of_int (OptionResult.expected_counts r))
    as [count|e|]; cbn; [|auto|auto].
  destruct (count =? 0)%float; cbn; [auto|].
  destruct (Trial.confidences_of med sd rs); cbn; auto.
Qed.

Lemma rank_result_raises (s : Trial.t) (block : list BlockResult) :
  match Trial.rank_result s block with
  | Ok _ => True
  | Raise e => e = IndexError \/ e = ZeroDivisionError \/ e = OverflowError
  | OutOfFuel => False
  end.
Proof.
  unfold Trial.rank_result, Trial.gather. cbn [Trial.set_results
    Trial.option_counts Trial.options Trial.index_list].
  pose proof (new_option_results_raises (Trial.option_counts s)
                (Py.enumerate (Trial.options s))) as Hn.
  destruct (Trial.new_option_results _ _) as [rs| |]; cbn; auto.
  pose proof (collect_raises (Trial.index_list s) block rs []) as Hc.
  destruct (Trial.collect _ _ _ _) as [filled r]. cbn in *.
  destruct r as [eegs| |]; cbn; auto.
  unfold Trial.score.
  pose proof (confidences_of_raises (Np.median eegs) (Np.std eegs)
                (Trial.rank filled)) as Hs.
  destruct (Trial.confidences_of _ _ _); cbn; tauto.
Qed.

End MoreScoring.

(** X9: with one or two options [process_results] never raises the
    rejection: there is at most one other confidence, its deviation is
    [0.0] or [nan], and the comparison with 2 is false. *)
Theorem two_options_are_never_rejected (s : Trial.t)
    (block : list BlockResult) :
  (length (Trial.options s) <= 2)%nat ->
  snd (Trial.process_results s block) <> Raise RuntimeError.
Proof.
  intros Hlen. unfold Trial.process_results. cbn [snd].
  pose proof (rank_result_raises s block) as Hr.
  destruct (Trial.rank_result s block) as [result| |] eqn:Er;
    cbn [Py.bind];
    [|intros E; injection E as ->; destruct Hr as [?|[?|?]]; discriminate
     |discriminate].
  destruct (rank_result_length _ _ _ Er) as [_ Hc].
  destruct (confidences result) as [|best cs] eqn:Ec.
  - unfold Trial.separation. rewrite Ec. discriminate.
  - rewrite (separation_cases result best cs Ec).
    rewrite no_deviation_no_rejection; [discriminate|apply std_not_negative|].
    destruct cs as [|c [|c' cs]]; cbn [length] in Hc; try lia.
    + right. reflexivity.
    + destruct (std_single c) as [E|E]; rewrite E; [right|left]; reflexivity.
Qed.

Lemma two_options_are_never_rejected_witness :
  snd (Trial.process_results two_option_trial two_option_block)
  <> Raise RuntimeError.
Proof.
  apply (two_options_are_never_rejected two_option_trial two_option_block).
  repeat constructor.
Defined.

(** ** Which passes return *)
Section Returning.

Lemma index_out_of_range (A : Type) (l : list A) (i : Z) :
  (i < - Z.of_nat (length l) \/ Z.of_nat (length l) <= i)%Z ->
  Py.index l i = Raise IndexError.
Proof.
  intros H. unfold Py.index.
  destruct (Z.ltb_spec i 0) as [Hi|Hi].
  - destruct (Z.ltb_spec (i + Z.of_nat (length l)) 0); [reflexivity|].
    destruct (Z.leb_spec (Z.of_nat (length l)) (i + Z.of_nat (length l)));
      [reflexivity|lia].
  - destruct (Z.ltb_spec i 0); [lia|].
    destruct (Z.leb_spec (Z.of_nat (length l)) i); [reflexivity|lia].
Qed.

Lemma index_in_range (A : Type) (l : list A) (i : Z) :
  (0 <= i < Z.of_nat (length l))%Z ->
  exists x, Py.index l i = Ok x /\ In x l.
Proof.
  intros H.
  destruct (nth_error l (Z.to_nat i)) as [x|] eqn:E;
    [|apply nth_error_None in E; lia].
  exists x. split; [|eapply nth_error_In; eassumption].
  rewrite <- (Z2Nat.id i) by lia. now apply index_of_nat.
Qed.

Lemma new_option_results_returns (option_counts : list Z)
    (options : list Z) : forall start,
  (start + length options <= length option_counts)%nat ->
  exists rs,
    Trial.new_option_results option_counts
      (Py.enumerate_from start options) = Ok rs.
Proof.
  induction options as [|o options IH]; intros start H; cbn.
  - eauto.
  - destruct (index_in_range _ option_counts (Z.of_nat start))
      as (c & -> & _); [cbn [length] in H; lia|].
    destruct (IH (S start)) as [rs ->]; [cbn [length] in H; lia|].
    cbn. eauto.
Qed.

Lemma collect_returns (index_list : list nat) (block : list BlockResult) :
  Forall (fun b => (1 <= image_id b <= Z.of_nat (length index_list))%Z)
    block ->
  forall rs eegs0,
    Forall (fun i => (i < length rs)%nat) index_list ->
    exists filled eegs,
      Trial.collect index_list block rs eegs0 = (filled, Ok eegs).
Proof.
  induction 1 as [|b block Hb _ IH]; intros rs eegs0 Hwf; cbn.
  - eauto.
  - destruct (index_in_range _ index_list (image_id b - 1))
      as (j & -> & Hj); [lia|].
    cbn. rewrite Forall_forall in Hwf. pose proof (Hwf _ Hj) as Hlt.
    destruct (index_in_range _ rs (Z.of_nat j)) as (r & -> & _); [lia|].
    cbn. apply IH.
    apply Forall_forall. intros i Hi. rewrite setitem_length. now apply Hwf.
Qed.

Lemma confidences_of_returns (med sd : float) (rs : list OptionResult.t) :
  Forall (fun r => (1 <= OptionResult.expected_counts r < 2 ^ 53)%Z) rs ->
  exists cs, Trial.confidences_of med sd rs = Ok cs.
Proof.
  induction 1 as [|r rs Hr _ [cs IH]]; cbn; [eauto|].
  unfold Trial.confidence, Trial.percentage_correct.
  destruct (float_of_int_exact _ Hr) as (count & -> & Hz).
  cbn [Py.bind]. rewrite Hz. cbn [Py.bind]. rewrite IH. cbn. eauto.
Qed.

(** An out-of-range flash number anywhere in the block stops the loop with
    [IndexError]. *)
Lemma collect_out_of_range (index_list : list nat)
    (block : list BlockResult) :
  Exists (fun b =>
            (image_id b <= - Z.of_nat (length index_list) \/
             Z.of_nat (length index_list) < image_id b)%Z) block ->
  forall rs eegs0,
    snd (Trial.collect index_list block rs eegs0) = Raise IndexError.
Proof.
  induction block as [|b block IH]; intros Hex rs eegs0;
    [inversion Hex|].
  cbn.
  destruct (Py.index index_list (image_id b - 1)) as [j| |] eqn:Ej; cbn.
  - destruct (Py.index rs (Z.of_nat j)) as [r| |] eqn:Er; cbn.
    + apply IH. inversion Hex as [? ? Hbad|]; subst; [|assumption].
      rewrite index_out_of_range in Ej by lia. discriminate.
    + f_equal. eapply index_raises; eassumption.
    + exfalso. eapply index_in_time; eassumption.
  - f_equal. eapply index_raises; eassumption.
  - exfalso. eapply index_in_time; eassumption.
Qed.

(** The ids of the filled objects are the ids of the options, in their
    order. *)
Lemma gather_ids (s : Trial.t) (block : list BlockResult) filled eegs :
  snd (Trial.gather s block) = Ok (filled, eegs) ->
  map OptionResult.idx filled = Trial.options s.
Proof.
  intros Hg. destruct (gather_inv _ _ _ _ Hg) as (_ & _ & Hlen & Hnth).
  apply nth_error_ext. intros n. rewrite nth_error_map.
  destruct (nth_error filled n) as [r|] eqn:E; cbn.
  - destruct (Hnth _ _ E) as (_ & H & _). now rewrite H.
  - symmetry. apply nth_error_None. rewrite <- Hlen.
    now apply nth_error_None.
Qed.

End Returning.

(** A state whose counts and order fit its options takes a well-numbered
    block as far as the test. *)
Lemma pass_reaches_the_test (s : Trial.t) (block : list BlockResult) :
  length (Trial.option_counts s) = length (Trial.options s) ->
  Forall (fun c => (1 <= c < 2 ^ 53)%Z) (Trial.option_counts s) ->
  Forall (fun i => (i < length (Trial.options s))%nat) (Trial.index_list s) ->
  Forall (fun b =>
            (1 <= image_id b <= Z.of_nat (length (Trial.index_list s)))%Z)
    block ->
  exists result, Trial.rank_result s block = Ok result.
Proof.
  intros Hlen Hall Hwf Hblock.
  unfold Trial.rank_result.
  assert (Hg : exists filled eegs,
             snd (Trial.gather s block) = Ok (filled, eegs)).
  { unfold Trial.gather. cbn [Trial.set_results Trial.option_counts
      Trial.options Trial.index_list].
    destruct (new_option_results_returns (Trial.option_counts s)
                (Trial.options s) 0) as [rs Hrs].
    { rewrite Hlen. cbn. lia. }
    unfold Py.enumerate. rewrite Hrs.
    destruct (new_option_results_inv _ _ _ _ Hrs) as [Hlrs _].
    destruct (collect_returns (Trial.index_list s) block Hblock rs [])
      as (filled & eegs & Hc).
    - rewrite Hlrs. exact Hwf.
    - rewrite Hc. cbn. eauto. }
  destruct Hg as (filled & eegs & Hg). rewrite Hg. cbn [Py.bind].
  destruct (gather_inv _ _ _ _ Hg) as (_ & _ & _ & Hnth).
  unfold Trial.score.
  destruct (confidences_of_returns (Np.median eegs) (Np.std eegs)
              (Trial.rank filled)) as [cs Hcs].
  { eapply Permutation_Forall; [symmetry; apply rank_perm|].
    apply Forall_forall. intros r Hr.
    apply In_nth_error in Hr. destruct Hr as [i Hi].
    destruct (Hnth _ _ Hi) as (_ & _ & Hexp).
    apply nth_error_In in Hexp.
    rewrite Forall_forall in Hall. now apply Hall. }
  rewrite Hcs. cbn. eauto.
Qed.

(** Such a state scores a well-numbered block to the end. *)
Lemma scored_or_rejected (s : Trial.t) (block : list BlockResult) :
  Trial.options s <> [] ->
  length (Trial.option_counts s) = length (Trial.options s) ->
  Forall (fun c => (1 <= c < 2 ^ 53)%Z) (Trial.option_counts s) ->
  Forall (fun i => (i < length (Trial.options s))%nat) (Trial.index_list s) ->
  Forall (fun b =>
            (1 <= image_id b <= Z.of_nat (length (Trial.index_list s)))%Z)
    block ->
  (exists result,
      snd (Trial.process_results s block) = Ok result /\
      length (option_ids result) = length (Trial.options s) /\
      length (confidences result) = length (Trial.options s)) \/
  snd (Trial.process_results s block) = Raise RuntimeError.
Proof.
  intros Hne Hlen Hall Hwf Hblock.
  destruct (pass_reaches_the_test s block Hlen Hall Hwf Hblock)
    as [result Hr].
  destruct (rank_result_length _ _ _ Hr) as [Hl1 Hl2].
  unfold Trial.process_results. cbn [snd]. rewrite Hr. cbn [Py.bind].
  destruct (confidences result) as [|best cs] eqn:Ec.
  - destruct (Trial.options s); [congruence|discriminate].
  - rewrite (separation_cases result best cs Ec).
    destruct (Trial.not_a_good_result _ _ _); [now right|].
    left. exists result. rewrite Ec. auto.
Qed.

(** The counts of a built trial, at any later state. *)
Lemma built_counts (options : list Z) (pt it : Q) (mn mx : Z) (fuel : nat)
    (g : Random.rng) (s0 : Trial.t) (calls : list Trial.call) :
  Trial.__init__ options pt it mn mx fuel g = Ok s0 ->
  (mx <= 2 ^ 53)%Z ->
  let s := Trial.run s0 calls in
  Trial.options s = options /\
  Trial.index_list s = Trial.index_list s0 /\
  length (Trial.option_counts s) = length (Trial.options s) /\
  Forall (fun c => (1 <= c < 2 ^ 53)%Z) (Trial.option_counts s) /\
  Forall (fun i => (i < length (Trial.options s))%nat) (Trial.index_list s).
Proof.
  intros Hinit Hmx s.
  destruct (init_inv _ _ _ _ _ _ _ _ Hinit)
    as (_ & _ & Ho0 & _ & _ & Hlen0 & Hall0 & _).
  destruct (init_order _ _ _ _ _ _ _ _ Hinit) as (_ & _ & Hwf0).
  destruct (run_frame calls s0) as (Hil & Hoc & Ho & _).
  fold s in Hil, Hoc, Ho.
  split; [congruence|]. split; [exact Hil|].
  split; [rewrite Hoc, Ho, Ho0; exact Hlen0|].
  split; [rewrite Hoc; eapply Forall_impl; [|exact Hall0]; cbv beta; lia|].
  rewrite Hil, Ho. exact Hwf0.
Qed.


(** A count beyond the largest float ends the pass in [OverflowError]:
    [num_correct * 1.0 / r.expected_counts] converts the count to a float
    first. *)
Lemma huge_count_overflows :
  snd (Trial.process_results
         (Trial.mk Trial.COMPLETED 1000 100 [10; 20]%Z 1 3
            [0; 1; 0; 1]%nat [2 ^ 1024; 2]%Z 4 None None None)
         two_option_block)
  = Raise OverflowError.
Proof. vm_compute. reflexivity. Qed.

(** X11: for a trial that the constructor returned with at least one
    option and counts that a float holds exactly ([max_repeat] at most
    [2^53]), at any later state, a block whose flash numbers all lie
    between 1 and [len(index_list)] is scored to the end: the call either
    returns a [RankResult] with one id and one confidence per option, or
    raises the rejection; no other exception comes out. *)
Theorem well_numbered_block_is_scored (options : list Z) (pt it : Q)
    (mn mx : Z) (fuel : nat) (g : Random.rng) (s0 : Trial.t)
    (calls : list Trial.call) (block : list BlockResult) :
  Trial.__init__ options pt it mn mx fuel g = Ok s0 ->
  options <> [] ->
  (mx <= 2 ^ 53)%Z ->
  Forall (fun b =>
            (1 <= image_id b <= Z.of_nat (length (Trial.index_list s0)))%Z)
    block ->
  let s := Trial.run s0 calls in
  (exists result,
      snd (Trial.process_results s block) = Ok result /\
      length (option_ids result) = length options /\
      length (confidences result) = length options) \/
  snd (Trial.process_results s block) = Raise RuntimeError.
Proof.
  intros Hinit Hne Hmx Hblock s.
  destruct (built_counts _ _ _ _ _ _ _ _ calls Hinit Hmx)
    as (Ho & Hil & Hlen & Hall & Hwf).
  fold s in Ho, Hil, Hlen, Hall, Hwf.
  rewrite <- Ho.
  apply scored_or_rejected; try assumption.
  - rewrite Ho. exact Hne.
  - rewrite Hil. exact Hblock.
Qed.

Lemma well_numbered_block_is_scored_witness :
  exists s0,
    Trial.__init__ [10; 20]%Z 1000 100 1 3 10 [1; 0; 1; 1]%nat = Ok s0 /\
    let block := [mkBlockResult 1 4 0; mkBlockResult 3 2 0;
                  mkBlockResult 2 7 0] in
    let s := Trial.run s0 [Trial.CallShowNextImage] in
    (exists result,
        snd (Trial.process_results s block) = Ok result /\
        length (option_ids result) = length [10; 20]%Z /\
        length (confidences result) = length [10; 20]%Z) \/
    snd (Trial.process_results s block) = Raise RuntimeError.
Proof.
  eexists. split; [reflexivity|].
  apply (well_numbered_block_is_scored
           [10; 20]%Z 1000 100 1 3 10 [1; 0; 1; 1]%nat).
  - reflexivity.
  - discriminate.
  - discriminate.
  - repeat constructor; discriminate.
Defined.

(** X12: as soon as one sample of the block carries a flash number above
    [len(index_list)], or at or below [-len(index_list)],
    [process_results] raises [IndexError]; [results] then holds the block
    all the same. *)
Theorem out_of_range_sample_raises (s : Trial.t)
    (block : list BlockResult) :
  Exists (fun b =>
            (image_id b <= - Z.of_nat (length (Trial.index_list s)) \/
             Z.of_nat (length (Trial.index_list s)) < image_id b)%Z)
    block ->
  snd (Trial.process_results s block) = Raise IndexError /\
  Trial.results (fst (Trial.process_results s block)) = Some block.
Proof.
  intros Hex.
  unfold Trial.process_results, Trial.rank_result, Trial.gather.
  cbn [fst snd Trial.set_results Trial.option_counts Trial.options
       Trial.index_list].
  pose proof (new_option_results_raises (Trial.option_counts s)
                (Py.enumerate (Trial.options s))) as Hn.
  destruct (Trial.new_option_results _ _) as [rs|e|]; cbn.
  - pose proof (collect_out_of_range (Trial.index_list s) block Hex rs [])
      as Hc.
    destruct (Trial.collect _ _ _ _) as [filled r]. cbn in Hc. subst r.
    cbn. split; reflexivity.
  - subst e. split; reflexivity.
  - contradiction.
Qed.

Lemma out_of_range_sample_raises_witness :
  snd (Trial.process_results two_option_trial
         [mkBlockResult 1 1 0; mkBlockResult 5 3 0]) = Raise IndexError /\
  Trial.results
    (fst (Trial.process_results two_option_trial
            [mkBlockResult 1 1 0; mkBlockResult 5 3 0]))
  = Some [mkBlockResult 1 1 0; mkBlockResult 5 3 0].
Proof.
  apply (out_of_range_sample_raises two_option_trial
           [mkBlockResult 1 1 0; mkBlockResult 5 3 0]).
  apply Exists_cons_tl, Exists_cons_hd. right. reflexivity.
Defined.

(** X13: a sample with the flash number 0 is not refused: its value goes
    to the option of the last flash of the order. *)
Theorem sample_zero_goes_to_the_last_flash (s : Trial.t)
    (block : list BlockResult) (filled : list OptionResult.t)
    (eegs : list float) (b : BlockResult) (i : nat) (r : OptionResult.t) :
  snd (Trial.gather s block) = Ok (filled, eegs) ->
  In b block -> image_id b = 0%Z ->
  nth_error (Trial.index_list s) (length (Trial.index_list s) - 1) = Some i ->
  nth_error filled i = Some r ->
  In (eeg b) (OptionResult.eegs r).
Proof.
  intros Hg Hb Hid Hlast Hr.
  destruct (gather_inv _ _ _ _ Hg) as (_ & _ & _ & Hnth).
  destruct (Hnth _ _ Hr) as (-> & _).
  apply in_map, filter_In. split; [exact Hb|].
  unfold resolves. rewrite Hid.
  assert (Hlen : (0 < length (Trial.index_list s))%nat).
  { destruct (Trial.index_list s); [destruct i; discriminate|cbn; lia]. }
  unfold Py.index.
  change (0 - 1 <? 0)%Z with true. cbv iota.
  replace (0 - 1 + Z.of_nat (length (Trial.index_list s)))%Z
    with (Z.of_nat (length (Trial.index_list s) - 1)) by lia.
  destruct (Z.ltb_spec (Z.of_nat (length (Trial.index_list s) - 1)) 0);
    [lia|].
  destruct (Z.leb_spec (Z.of_nat (length (Trial.index_list s)))
              (Z.of_nat (length (Trial.index_list s) - 1))); [lia|].
  cbn [orb]. rewrite Nat2Z.id, Hlast. apply Nat.eqb_refl.
Qed.

Lemma sample_zero_goes_to_the_last_flash_witness :
  In (eeg (mkBlockResult 0 9 0))
     (OptionResult.eegs (OptionResult.mk [9]%float [0]%float 20 2)).
Proof.
  apply (sample_zero_goes_to_the_last_flash two_option_trial
           [mkBlockResult 0 9 0]
           [OptionResult.mk [] [] 10 2;
            OptionResult.mk [9]%float [0]%float 20 2]
           [9]%float (mkBlockResult 0 9 0) 1).
  - reflexivity.
  - now left.
  - reflexivity.
  - reflexivity.
  - reflexivity.
Defined.

(** X14: the [option_ids] of a scoring pass are the ids of the options,
    each option once, rearranged. *)
Theorem every_option_is_ranked_once (s : Trial.t)
    (block : list BlockResult) (result : RankResult) :
  Trial.rank_result s block = Ok result ->
  Permutation (option_ids result) (Trial.options s).
Proof.
  intros Hr.
  destruct (rank_result_inv _ _ _ Hr) as (filled & Hg & -> & _).
  rewrite <- (gather_ids _ _ _ _ Hg).
  apply Permutation_map, rank_perm.
Qed.

Lemma every_option_is_ranked_once_witness :
  Permutation (option_ids three_option_result)
    (Trial.options three_option_trial).
Proof.
  apply (every_option_is_ranked_once three_option_trial three_option_block).
  vm_compute. reflexivity.
Defined.

(** ** A block without samples *)
Section NoSamples.

Lemma In_firstn_skipn (A : Type) (l : list A) (j k : nat) (x : A) :
  In x (firstn k (skipn j l)) -> In x l.
Proof.
  intros H.
  rewrite <- (firstn_skipn j l). apply in_or_app. right.
  rewrite <- (firstn_skipn k (skipn j l)). apply in_or_app. now left.
Qed.

Lemma Forall2_right (A B : Type) (R : A -> B -> Prop) (P : B -> Prop)
    (l : list A) (l' : list B) :
  Forall2 R l l' ->
  (forall x y, In x l -> R x y -> P y) ->
  Forall P l'.
Proof.
  induction 1 as [|x y l l' Hxy _ IH]; intros H; constructor.
  - apply (H x y); [now left|assumption].
  - apply IH. intros x' y' Hin. apply H. now right.
Qed.


Lemma run_asc_unordered (A : Type) (lt : A -> A -> bool) (l : list A) :
  Forall (fun x => forall y, lt x y = false) l ->
  forall prev, Py.run_asc lt prev l = length l.
Proof.
  induction 1 as [|x l Hx _ IH]; intros prev; cbn; [reflexivity|].
  rewrite Hx, IH. reflexivity.
Qed.

(** [sorted] leaves a list as it is when [<] is false throughout. *)
Lemma list_sort_unordered (A : Type) (lt : A -> A -> bool) (l : list A) :
  Forall (fun x => forall y, lt x y = false) l ->
  Py.list_sort lt l = l.
Proof.
  intros H. unfold Py.list_sort.
  destruct l as [|x [|y l]]; [reflexivity|reflexivity|].
  inversion H as [|? ? _ H']; subst.
  inversion H' as [|? ? Hy H'']; subst.
  cbn [Py.count_run]. rewrite Hy, (run_asc_unordered A lt l H'').
  cbn [Nat.add firstn skipn]. rewrite firstn_all, skipn_all. reflexivity.
Qed.

Lemma ltb_nan (a b : float) :
  PrimFloat.is_nan a = true -> (a <? b)%float = false.
Proof.
  intros H. apply is_nan_spec in H. rewrite ltb_spec, H. reflexivity.
Qed.

(** Without samples the statistic of an option is nan. *)
Lemma avg_best_two_nan (r : OptionResult.t) :
  OptionResult.eegs r = [] ->
  PrimFloat.is_nan (Trial.rank_key r) = true.
Proof.
  intros E. unfold Trial.rank_key, OptionResult.avg_best_two.
  rewrite E. reflexivity.
Qed.

(** With a median that is nan every confidence is nan. *)
Lemma confidence_nan (med sd : float) (r : OptionResult.t) (c : float) :
  PrimFloat.is_nan med = true ->
  Trial.confidence med sd r = Ok c -> c = PrimFloat.nan.
Proof.
  intros Hm Hc. destruct (confidence_inv _ _ _ _ Hc) as (count & _ & _ & H).
  cbv zeta in H. destruct H as [_ ->].
  apply is_nan_spec in Hm. apply Prim2SF_inj.
  unfold Trial.z. rewrite mul_spec, div_spec, sub_spec, Hm. reflexivity.
Qed.

(** A top confidence that is nan does not reject. *)
Lemma nan_is_not_rejected (avg sd : float) :
  Trial.not_a_good_result PrimFloat.nan avg sd = false.
Proof.
  unfold Trial.not_a_good_result.
  rewrite ltb_spec, div_spec, abs_spec, sub_spec. reflexivity.
Qed.

End NoSamples.

(** X10: a block without any sample is not refused.  For a trial that
    the constructor returned with at least one option and [max_repeat]
    at most [2^53], at any later state, [process_results] returns a
    [RankResult] that lists the options in their own order, with [nan]
    for every confidence. *)
Theorem block_without_samples_is_accepted (options : list Z) (pt it : Q)
    (mn mx : Z) (fuel : nat) (g : Random.rng) (s0 : Trial.t)
    (calls : list Trial.call) :
  Trial.__init__ options pt it mn mx fuel g = Ok s0 ->
  options <> [] ->
  (mx <= 2 ^ 53)%Z ->
  let s := Trial.run s0 calls in
  exists result,
    snd (Trial.process_results s []) = Ok result /\
    option_ids result = options /\
    length (confidences result) = length options /\
    Forall (fun c => c = PrimFloat.nan) (confidences result).
Proof.
  intros Hinit Hne Hmx s.
  destruct (built_counts _ _ _ _ _ _ _ _ calls Hinit Hmx)
    as (Ho & Hil & Hlen & Hall & Hwf).
  fold s in Ho, Hil, Hlen, Hall, Hwf.
  destruct (pass_reaches_the_test s [] Hlen Hall Hwf (Forall_nil _))
    as [result Hr].
  destruct (rank_result_length _ _ _ Hr) as [_ Hl].
  destruct (rank_result_inv _ _ _ Hr) as (filled & Hg & Hids & Hcs).
  destruct (gather_inv _ _ _ _ Hg) as (_ & _ & _ & Hnth).
  assert (Hrank : Trial.rank filled = filled).
  { apply list_sort_unordered. apply Forall_forall. intros r Hin y.
    apply ltb_nan, avg_best_two_nan.
    apply In_nth_error in Hin. destruct Hin as [i Hi].
    destruct (Hnth _ _ Hi) as (-> & _). reflexivity. }
  assert (Hnan : Forall (fun c => c = PrimFloat.nan) (confidences result)).
  { eapply Forall2_right; [exact Hcs|].
    intros r c _ Hc. eapply confidence_nan; [|exact Hc]. reflexivity. }
  exists result. split; [|split; [|split]].
  - unfold Trial.process_results. cbn [snd]. rewrite Hr. cbn [Py.bind].
    destruct (confidences result) as [|best cs] eqn:Ec.
    + rewrite <- Ho in Hne. destruct (Trial.options s);
        [congruence|discriminate].
    + rewrite (separation_cases result best cs Ec).
      inversion Hnan; subst. rewrite nan_is_not_rejected. reflexivity.
  - rewrite Hids, Hrank, (gather_ids _ _ _ _ Hg). exact Ho.
  - rewrite Hl, Ho. reflexivity.
  - exact Hnan.
Qed.

Lemma block_without_samples_is_accepted_witness :
  exists s0,
    Trial.__init__ [10; 20]%Z 1000 100 1 3 10 [1; 0; 1; 1]%nat = Ok s0 /\
    let s := Trial.run s0 [Trial.CallShowNextImage] in
    exists result,
      snd (Trial.process_results s []) = Ok result /\
      option_ids result = [10; 20]%Z /\
      length (confidences result) = length [10; 20]%Z /\
      Forall (fun c => c = PrimFloat.nan) (confidences result).
Proof.
  eexists. split; [reflexivity|].
  apply (block_without_samples_is_accepted
           [10; 20]%Z 1000 100 1 3 10 [1; 0; 1; 1]%nat).
  - reflexivity.
  - discriminate.
  - discriminate.
Defined.

(** X15: the deviation of the signal values of an option is never
    negative, whatever the values: it is [nan] or a float whose sign bit
    is clear, so never [-0.0] either; for a single value it is [0.0] or
    [nan]; and without any value the mean, [avg_best_two] and the
    deviation are all [nan]. *)
Theorem deviation_is_never_negative (r : OptionResult.t) :
  not_negative (OptionResult.stdev_eeg r) /\
  (forall v, OptionResult.eegs r = [v] ->
     OptionResult.stdev_eeg r = 0%float \/
     OptionResult.stdev_eeg r = PrimFloat.nan) /\
  (OptionResult.eegs r = [] ->
     OptionResult.average_eeg r = PrimFloat.nan /\
     OptionResult.avg_best_two r = PrimFloat.nan /\
     OptionResult.stdev_eeg r = PrimFloat.nan).
Proof.
  split; [apply std_not_negative|]. split.
  - intros v E. unfold OptionResult.stdev_eeg. rewrite E.
    destruct (std_single v); auto.
  - intros E. unfold OptionResult.average_eeg, OptionResult.avg_best_two,
      OptionResult.stdev_eeg. rewrite E. repeat split.
Qed.


(** X16: for an option with an expected count from 1 to below [2^53],
    the range in which the float of the count is the count, and no more
    samples than that count, [percentage_correct] returns a float between
    0 and 1. *)
Theorem percentage_correct_is_a_fraction (med sd : float)
    (r : OptionResult.t) :
  (1 <= OptionResult.expected_counts r < 2 ^ 53)%Z ->
  (Z.of_nat (length (OptionResult.eegs r))
   <= OptionResult.expected_counts r)%Z ->
  exists pc,
    Trial.percentage_correct med sd r = Ok pc /\
    (0 <=? pc)%float = true /\ (pc <=? 1)%float = true.
Proof.
  intros Hexp Hlen. unfold Trial.percentage_correct.
  rewrite num_correct_count.
  pose proof (filter_length_le
                (fun v => (0.5 <? PrimFloat.abs (Trial.z med sd v))%float)
                (OptionResult.eegs r)) as Hle.
  fold (count_above_half med sd (OptionResult.eegs r)) in Hle.
  set (nc := Z.of_nat (count_above_half med sd (OptionResult.eegs r))).
  assert (Hnc : (0 <= nc <= OptionResult.expected_counts r)%Z)
    by (subst nc; lia).
  destruct (float_of_int_canonical _ Hexp)
    as (count & mb & eb & -> & Hcount & Hdb & Heb & Hmb).
  cbn [Py.bind].
  assert (Hz : (count =? 0)%float = false)
    by (rewrite eqb_spec, Hcount; reflexivity).
  rewrite Hz. eexists. split; [reflexivity|].
  rewrite !leb_spec, div_spec, mul_spec, Hcount.
  unfold SF64div, SF64mul.
  change (Prim2SF 0%float) with (S754_zero false).
  change (Prim2SF 1%float) with (S754_finite false 4503599627370496 (-52)).
  destruct (Z.eq_dec nc 0) as [->|Hpos].
  - change (Prim2SF (Np.of_count 0)) with (S754_zero false).
    split; reflexivity.
  - destruct (of_count_canonical nc ltac:(lia))
      as (ma & ea & -> & Hda & Hea & Hma).
    rewrite (SFmul_one ma ea Hda ltac:(lia)).
    destruct (SFdiv_at_most_one ma mb ea eb Hda Hdb Hea Heb
                (canonical_order nc (OptionResult.expected_counts r)
                   ma mb ea eb ltac:(lia)
                   Hda Hdb Hea Heb Hma Hmb))
      as (m & e & -> & He).
    split; [reflexivity|].
    unfold SFleb, SFcompare.
    destruct He as [He|[-> ->]]; [|reflexivity].
    apply Z.compare_lt_iff in He. rewrite He. reflexivity.
Qed.

Lemma percentage_correct_is_a_fraction_witness :
  exists pc,
    Trial.percentage_correct 2 1
      (OptionResult.mk [3; 2]%float [0; 0]%float 7 3) = Ok pc /\
    (0 <=? pc)%float = true /\ (pc <=? 1)%float = true.
Proof.
  apply (percentage_correct_is_a_fraction 2 1
           (OptionResult.mk [3; 2]%float [0; 0]%float 7 3)).
  - split; [discriminate|reflexivity].
  - discriminate.
Defined.
(** ** The display: from a request to a verdict *)
Section Display.

Lemma show_flash (s : Trial.t) (pre : list nat) (x : nat)
    (rest : list nat) :
  Trial.index_list s = pre ++ x :: rest ->
  flashes_shown s (length pre) ->
  Trial.show_next_image s
  = (Trial.set_index_ptr (Trial.set_mode s Trial.RUNNING)
       (Z.of_nat (length pre)),
     flash_of (Trial.options s) (Trial.image_time s) x).
Proof.
  intros Hl Hm.
  assert (Hx : nth_error (pre ++ x :: rest) (length pre) = Some x).
  { rewrite nth_error_app2 by lia. now rewrite Nat.sub_diag. }
  apply index_of_nat in Hx. unfold flashes_shown in Hm.
  destruct s as [m pt it opts mn mx il oc ip sel rs ors]; cbn in *.
  subst il. unfold Trial.show_next_image; cbn.
  destruct Hm as [[-> ->]|[-> Hpre]]; cbn.
  - replace (Z.of_nat (length pre) - 1 + 1)%Z
      with (Z.of_nat (length pre)) by lia.
    destruct (Z.leb_spec (Z.of_nat (length (pre ++ x :: rest)))
                (Z.of_nat (length pre))) as [Hle|_].
    { rewrite length_app in Hle. cbn in Hle. lia. }
    cbn. rewrite Hx. reflexivity.
  - destruct pre; [|discriminate]. reflexivity.
Qed.

Lemma show_complete (s : Trial.t) :
  flashes_shown s (length (Trial.index_list s)) ->
  Trial.show_next_image s
  = (Trial.set_mode
       (Trial.set_index_ptr (Trial.set_mode s Trial.RUNNING)
          (Z.of_nat (length (Trial.index_list s))))
       Trial.COMPLETED,
     Ok (0, Unchanged)).
Proof.
  intros Hm. unfold flashes_shown in Hm.
  destruct s as [m pt it opts mn mx il oc ip sel rs ors]; cbn in *.
  unfold Trial.show_next_image; cbn.
  destruct Hm as [[-> ->]|[-> Hlen]]; cbn.
  - replace (Z.of_nat (length il) - 1 + 1)%Z with (Z.of_nat (length il))
      by lia.
    rewrite Z.leb_refl. reflexivity.
  - rewrite Hlen. reflexivity.
Qed.

Lemma timer_events_add (n m : nat) (block : list BlockResult)
    (ib : bool) : forall d,
  RSVPDisplay.timer_events (n + m) d block ib
  = match RSVPDisplay.timer_events n d block ib with
    | (d1, Ok _) => RSVPDisplay.timer_events m d1 block ib
    | other => other
    end.
Proof.
  induction n as [|n IH]; intros d; [reflexivity|].
  cbn [Nat.add RSVPDisplay.timer_events].
  destruct (RSVPDisplay.on_timer d block ib) as [d1 [u| |]]; auto.
Qed.

(** The events that flash the rest of the order. *)
Lemma timer_flashes (block : list BlockResult) (ib : bool)
    (rest : list nat) : forall pre d tr,
  RSVPDisplay.trial d = Some tr ->
  Trial.index_list tr = pre ++ rest ->
  flashes_shown tr (length pre) ->
  Forall (fun i => (i < length (Trial.options tr))%nat) rest ->
  exists tr',
    RSVPDisplay.timer_events (length rest) d block ib
    = (RSVPDisplay.mk (Some tr') (RSVPDisplay.ranking d)
         (RSVPDisplay.use_bci d)
         (RSVPDisplay.effects d
          ++ repeat (RSVPDisplay.SetTimer (Trial.image_time tr))
               (length rest)),
       Ok tt) /\
    flashes_shown tr' (length (pre ++ rest)) /\
    same_sequence tr tr'.
Proof.
  induction rest as [|x rest IH]; intros pre d tr Hd Hl Hm Hwf.
  - exists tr. cbn. rewrite !app_nil_r.
    destruct d; cbn in *; subst.
    repeat split; auto.
  - inversion Hwf as [|? ? Hx Hwf']; subst.
    pose proof (show_flash tr pre x rest Hl Hm) as Hshow.
    destruct (nth_error (Trial.options tr) x) as [id|] eqn:Eid;
      [|apply nth_error_None in Eid; lia].
    unfold flash_of in Hshow.
    rewrite (index_of_nat _ _ _ _ Eid) in Hshow. cbn [Py.bind] in Hshow.
    set (s1 := Trial.set_index_ptr (Trial.set_mode tr Trial.RUNNING)
                 (Z.of_nat (length pre))) in *.
    set (d1 := RSVPDisplay.emit (RSVPDisplay.set_trial d (Some s1))
                 [RSVPDisplay.SetTimer (Trial.image_time tr)]).
    assert (Hon : RSVPDisplay.on_timer d block ib = (d1, Ok tt)).
    { unfold RSVPDisplay.on_timer. rewrite Hd, Hshow. reflexivity. }
    destruct (IH (pre ++ [x]) d1 s1) as (tr' & Hev & Hshown & Hsame).
    + reflexivity.
    + subst s1. cbn. rewrite Hl, <- app_assoc. reflexivity.
    + left. subst s1. cbn. split; [reflexivity|].
      rewrite length_app. cbn. lia.
    + exact Hwf'.
    + exists tr'. cbn [length RSVPDisplay.timer_events].
      rewrite Hon, Hev. split; [|split].
      * subst d1 s1. cbn. rewrite <- app_assoc. reflexivity.
      * rewrite <- app_assoc in Hshown. exact Hshown.
      * exact Hsame.
Qed.

(** A request that was taken on and started. *)
Lemma started_request (d0 d : RSVPDisplay.t) (option_ids : list Z)
    (n_imgs : nat) (ib : bool) (fuel : nat) (g : Random.rng)
    (tr : Trial.t) :
  RSVPDisplay.busy d0 = false ->
  RSVPDisplay.rank_image_cb d0 option_ids n_imgs ib fuel g = (d, Ok tt) ->
  RSVPDisplay.trial d = Some tr ->
  exists s0,
    Trial.__init__ (firstn n_imgs option_ids) 5000
      RSVPDisplay.PRESENTATION_DELAY 3 7 fuel g = Ok s0 /\
    firstn n_imgs option_ids <> [] /\
    tr = Trial.set_mode s0 Trial.PREVIEW /\
    RSVPDisplay.ranking d = true /\
    RSVPDisplay.use_bci d = RSVPDisplay.use_bci d0 /\
    RSVPDisplay.effects d
    = RSVPDisplay.effects d0
      ++ on_device (RSVPDisplay.use_bci d0 && ib) [RSVPDisplay.EndBlock]
      ++ [RSVPDisplay.SetTimer 0]
      ++ on_device (RSVPDisplay.use_bci d0) [RSVPDisplay.BeginBlock]
      ++ [RSVPDisplay.SetTimer 5000].
Proof.
  intros Hbusy. unfold RSVPDisplay.rank_image_cb. rewrite Hbusy.
  destruct (0 <? n_imgs)%nat.
  - destruct (Trial.__init__ (firstn n_imgs option_ids) 5000
                RSVPDisplay.PRESENTATION_DELAY 3 7 fuel g)
      as [s0| |] eqn:Einit; try discriminate.
    destruct (init_inv _ _ _ _ _ _ _ _ Einit)
      as (Hm & _ & Ho & Hpt & _).
    unfold Trial.show_next_image. rewrite Hm.
    unfold Trial._display_preview_image. cbn [Trial.options Trial.set_mode].
    destruct (Nat.eqb_spec
                (Trial.elements_per_side (length (Trial.options s0))) 0)
      as [Hz|Hnz]; cbn [Py.bind]; [discriminate|].
    intros E Htr. injection E as <-. cbn in Htr. injection Htr as <-.
    exists s0. split; [reflexivity|]. split.
    { intros Hnil. apply Hnz. rewrite Ho, Hnil. reflexivity. }
    split; [reflexivity|].
    destruct d0 as [tr0 rk ub es]. cbn. rewrite Hpt.
    unfold RSVPDisplay.reset, RSVPDisplay.bci_call, on_device. cbn.
    destruct ub, ib; cbn; repeat split;
      rewrite <- ?app_assoc; reflexivity.
  - intros E Htr. injection E as <-.
    destruct d0 as [tr0 rk ub es].
    unfold RSVPDisplay.reset, RSVPDisplay.bci_call in Htr. cbn in Htr.
    destruct ib, ub; discriminate.
Qed.

End Display.

(** X17: a display that is not busy takes on a request with at least one
    image and one option id: it resets itself, builds a trial for
    [zip(option_ids, images)] with the preview time 5000 and the image
    time 250, shows the preview, leaves the trial in PREVIEW with
    [ranking] set, and arms the timer with 5000; every option will be
    flashed between 3 and 6 times. *)
Theorem request_starts_a_trial (d0 : RSVPDisplay.t) (option_ids : list Z)
    (n_imgs : nat) (ib : bool) (fuel : nat) (g : Random.rng) :
  RSVPDisplay.busy d0 = false ->
  (0 < n_imgs)%nat -> option_ids <> [] ->
  (7 * Z.of_nat (length option_ids) < Z.of_nat fuel)%Z ->
  exists d tr,
    RSVPDisplay.rank_image_cb d0 option_ids n_imgs ib fuel g = (d, Ok tt) /\
    RSVPDisplay.trial d = Some tr /\
    RSVPDisplay.ranking d = true /\
    Trial.mode tr = Trial.PREVIEW /\
    Trial.options tr = firstn n_imgs option_ids /\
    Trial.preview_time tr = 5000 /\ Trial.image_time tr = 250 /\
    (forall k, (k < length (Trial.options tr))%nat ->
       (3 <= Z.of_nat (count_occ Nat.eq_dec (Trial.index_list tr) k) <= 6)%Z)
    /\
    exists before,
      RSVPDisplay.effects d = before ++ [RSVPDisplay.SetTimer 5000].
Proof.
  intros Hbusy Hn Hids Hfuel.
  assert (Hopts : firstn n_imgs option_ids <> []).
  { destruct n_imgs; [lia|]. destruct option_ids; [congruence|discriminate]. }
  destruct (init_returns (firstn n_imgs option_ids) 5000
              RSVPDisplay.PRESENTATION_DELAY 3 7 fuel g) as [s0 Hinit].
  { lia. }
  { rewrite length_firstn. lia. }
  destruct (init_inv _ _ _ _ _ _ _ _ Hinit)
    as (Hm & _ & Ho & Hpt & Hit & Hlen & Hall & _).
  destruct (init_order _ _ _ _ _ _ _ _ Hinit) as (_ & Hcnt & _).
  assert (Hside : (Trial.elements_per_side (length (Trial.options s0))
                   =? 0)%nat = false).
  { apply Nat.eqb_neq. rewrite Ho.
    destruct (firstn n_imgs option_ids) as [|o os]; [congruence|].
    destruct (cell_indexes (length (o :: os)) 0) as [H _];
      cbn [length] in *; lia. }
  eexists. exists (Trial.set_mode s0 Trial.PREVIEW). split.
  - unfold RSVPDisplay.rank_image_cb. rewrite Hbusy.
    destruct (Nat.ltb_spec 0 n_imgs); [|lia].
    rewrite Hinit. unfold Trial.show_next_image. rewrite Hm.
    unfold Trial._display_preview_image.
    cbn [Trial.options Trial.set_mode]. rewrite Hside. cbn [Py.bind].
    reflexivity.
  - assert (Hcount : forall k,
      (k < length (firstn n_imgs option_ids))%nat ->
      (3 <= Z.of_nat (count_occ Nat.eq_dec (Trial.index_list s0) k) <= 6)%Z).
    { intros k Hk. rewrite Hcnt.
      rewrite Forall_forall in Hall.
      assert (Hin : In (nth k (Trial.option_counts s0) 0%Z)
                      (Trial.option_counts s0)).
      { apply nth_In. rewrite Hlen. exact Hk. }
      specialize (Hall _ Hin). cbv beta in Hall. lia. }
    destruct d0 as [tr0 rk ub es].
    unfold RSVPDisplay.reset, RSVPDisplay.bci_call. cbn.
    rewrite Ho, Hpt, Hit.
    split; [reflexivity|]. split; [destruct ub, ib; reflexivity|].
    split; [reflexivity|]. split; [reflexivity|]. split; [reflexivity|].
    split; [reflexivity|]. split; [exact Hcount|].
    eexists. reflexivity.
Qed.

Lemma request_starts_a_trial_witness :
  exists d tr,
    RSVPDisplay.rank_image_cb (RSVPDisplay.mk None false true [])
      [10; 20]%Z 2 false 20 [1; 2; 0; 1]%nat = (d, Ok tt) /\
    RSVPDisplay.trial d = Some tr /\
    RSVPDisplay.ranking d = true /\
    Trial.mode tr = Trial.PREVIEW /\
    Trial.options tr = firstn 2 [10; 20]%Z /\
    Trial.preview_time tr = 5000 /\ Trial.image_time tr = 250 /\
    (forall k, (k < length (Trial.options tr))%nat ->
       (3 <= Z.of_nat (count_occ Nat.eq_dec (Trial.index_list tr) k) <= 6)%Z)
    /\
    exists before,
      RSVPDisplay.effects d = before ++ [RSVPDisplay.SetTimer 5000].
Proof.
  apply (request_starts_a_trial (RSVPDisplay.mk None false true [])
           [10; 20]%Z 2 false 20 [1; 2; 0; 1]%nat).
  - reflexivity.
  - repeat constructor.
  - discriminate.
  - reflexivity.
Defined.

Section Verdict.

(** The event that follows the last flash. *)
Lemma on_timer_after_the_last_flash (d : RSVPDisplay.t) (tr : Trial.t)
    (block : list BlockResult) (ib : bool) :
  RSVPDisplay.trial d = Some tr ->
  flashes_shown tr (length (Trial.index_list tr)) ->
  let tc := fst (Trial.show_next_image tr) in
  let shown := RSVPDisplay.effects d ++ [RSVPDisplay.SetTimer 0]
               ++ on_device (RSVPDisplay.use_bci d) [RSVPDisplay.EndBlock] in
  same_sequence tr tc /\
  match snd (Trial.process_results tc block) with
  | Ok result =>
      RSVPDisplay.on_timer d block ib
      = (RSVPDisplay.mk None false (RSVPDisplay.use_bci d)
           (shown ++ [RSVPDisplay.SetSucceeded result]), Ok tt)
  | Raise RuntimeError =>
      RSVPDisplay.on_timer d block ib
      = (RSVPDisplay.mk
           (Some (fst (Trial.reset (fst (Trial.process_results tc block)))))
           (RSVPDisplay.ranking d) (RSVPDisplay.use_bci d)
           (shown
            ++ on_device (RSVPDisplay.use_bci d) [RSVPDisplay.BeginBlock]
            ++ [RSVPDisplay.SetTimer (Trial.preview_time tr)]), Ok tt)
  | _ => True
  end.
Proof.
  intros Hd Hshown tc shown.
  pose proof (show_complete tr Hshown) as Hc.
  assert (Htc : tc = Trial.set_mode
                       (Trial.set_index_ptr (Trial.set_mode tr Trial.RUNNING)
                          (Z.of_nat (length (Trial.index_list tr))))
                       Trial.COMPLETED).
  { subst tc. now rewrite Hc. }
  split; [rewrite Htc; repeat split|].
  destruct (step_frame tc (Trial.CallProcessResults block))
    as (_ & _ & _ & Hpt & _). cbn [Trial.step] in Hpt.
  unfold RSVPDisplay.on_timer. rewrite Hd, Hc. fold tc in Hc.
  rewrite <- Htc. cbn [fst].
  replace (Trial.mode tc) with Trial.COMPLETED by (rewrite Htc; reflexivity).
  destruct (Trial.process_results tc block) as [tr2 r2] eqn:Epr.
  cbn [fst snd] in *.
  assert (Hpt' : Trial.preview_time tr2 = Trial.preview_time tr).
  { rewrite Hpt, Htc. reflexivity. }
  subst shown. destruct d as [dtr drk dub des]. cbn in Hd. subst dtr.
  unfold RSVPDisplay.bci_call, on_device. cbn.
  destruct r2 as [result|e|]; [|destruct e|]; try exact I.
  - destruct dub;
      cbv [RSVPDisplay.set_ranking RSVPDisplay.set_trial RSVPDisplay.emit
           RSVPDisplay.trial RSVPDisplay.ranking RSVPDisplay.use_bci
           RSVPDisplay.effects];
      rewrite <- ?app_assoc; reflexivity.
  - rewrite <- Hpt'.
    destruct dub;
      cbv [RSVPDisplay.set_ranking RSVPDisplay.set_trial RSVPDisplay.emit
           RSVPDisplay.trial RSVPDisplay.ranking RSVPDisplay.use_bci
           RSVPDisplay.effects Trial.reset fst snd];
      rewrite <- ?app_assoc; reflexivity.
Qed.

End Verdict.

(** X18: once a request has been taken on and its trial started, the
    timer events that follow, one per flash of the order and one more,
    flash the whole order with the timer at 250, switch the timer off and
    end the block; for a well-numbered block of samples the display then
    either reports the [RankResult], which ranks every option once, and
    drops the trial, or it begins a new block and restarts the same trial
    from INIT on the same order with the timer at 5000. *)
Theorem started_trial_runs_to_a_verdict (d0 d : RSVPDisplay.t)
    (ids : list Z) (n_imgs : nat) (ib0 : bool) (fuel : nat)
    (g : Random.rng) (tr : Trial.t) (block : list BlockResult) (ib : bool) :
  RSVPDisplay.busy d0 = false ->
  RSVPDisplay.rank_image_cb d0 ids n_imgs ib0 fuel g = (d, Ok tt) ->
  RSVPDisplay.trial d = Some tr ->
  Forall (fun b =>
            (1 <= image_id b <= Z.of_nat (length (Trial.index_list tr)))%Z)
    block ->
  let len := length (Trial.index_list tr) in
  let shown := RSVPDisplay.effects d
               ++ repeat (RSVPDisplay.SetTimer 250) len
               ++ [RSVPDisplay.SetTimer 0]
               ++ on_device (RSVPDisplay.use_bci d) [RSVPDisplay.EndBlock] in
  exists d',
    RSVPDisplay.timer_events (len + 1) d block ib = (d', Ok tt) /\
    ((exists result,
         RSVPDisplay.trial d' = None /\ RSVPDisplay.ranking d' = false /\
         RSVPDisplay.effects d'
         = shown ++ [RSVPDisplay.SetSucceeded result] /\
         Permutation (option_ids result) (firstn n_imgs ids)) \/
     (exists tr',
         RSVPDisplay.trial d' = Some tr' /\ RSVPDisplay.ranking d' = true /\
         Trial.mode tr' = Trial.INIT /\ Trial.index_ptr tr' = 0%Z /\
         Trial.index_list tr' = Trial.index_list tr /\
         Trial.option_counts tr' = Trial.option_counts tr /\
         RSVPDisplay.effects d'
         = shown
           ++ on_device (RSVPDisplay.use_bci d) [RSVPDisplay.BeginBlock]
           ++ [RSVPDisplay.SetTimer 5000])).
Proof.
  intros Hbusy Hcb Hd Hblock len shown.
  destruct (started_request _ _ _ _ _ _ _ _ Hbusy Hcb Hd)
    as (s0 & Hinit & Hopts & Htr & Hrk & _ & _).
  destruct (init_inv _ _ _ _ _ _ _ _ Hinit)
    as (_ & _ & Ho & Hpt & Hit & Hlen & Hall & _).
  destruct (init_order _ _ _ _ _ _ _ _ Hinit) as (_ & _ & Hwf).
  assert (Htr_fields :
    Trial.index_list tr = Trial.index_list s0 /\
    Trial.option_counts tr = Trial.option_counts s0 /\
    Trial.options tr = Trial.options s0 /\
    Trial.preview_time tr = 5000 /\ Trial.image_time tr = 250 /\
    Trial.mode tr = Trial.PREVIEW).
  { subst tr. cbn. rewrite Hpt, Hit. repeat split. }
  destruct Htr_fields as (Til & Toc & To & Tpt & Tit & Tm).
  destruct (timer_flashes block ib (Trial.index_list tr) [] d tr)
    as (tr1 & Hev & Hshown & Hsame).
  { exact Hd. }
  { reflexivity. }
  { right. split; [exact Tm|reflexivity]. }
  { rewrite Til, To. exact Hwf. }
  destruct Hsame as (S1 & S2 & S3 & S4 & S5).
  cbn [app] in Hshown. rewrite <- S1 in Hshown.
  set (d1 := RSVPDisplay.mk (Some tr1) (RSVPDisplay.ranking d)
               (RSVPDisplay.use_bci d)
               (RSVPDisplay.effects d
                ++ repeat (RSVPDisplay.SetTimer (Trial.image_time tr))
                     (length (Trial.index_list tr)))) in *.
  destruct (on_timer_after_the_last_flash d1 tr1 block ib eq_refl Hshown)
    as (Hsc & Hon).
  set (tc := fst (Trial.show_next_image tr1)) in *.
  destruct Hsc as (C1 & C2 & C3 & C4 & C5).
  destruct (scored_or_rejected tc block) as [(result & Hres & _)|Hrej].
  { rewrite C3, S3, To, Ho. exact Hopts. }
  { rewrite C2, C3, S2, S3, Toc, To, Ho. exact Hlen. }
  { rewrite C2, S2, Toc. eapply Forall_impl; [|exact Hall]. cbv beta. lia. }
  { rewrite C1, C3, S1, S3, Til, To. exact Hwf. }
  { rewrite C1, S1. exact Hblock. }
  - rewrite Hres in Hon.
    eexists. split.
    + subst len. rewrite timer_events_add, Hev.
      cbn [RSVPDisplay.timer_events]. rewrite Hon. reflexivity.
    + left. exists result. cbn. subst shown len d1. cbn. rewrite Tit.
      split; [reflexivity|]. split; [reflexivity|]. split.
      * rewrite <- !app_assoc. reflexivity.
      * apply returned_result in Hres.
        destruct (rank_result_inv _ _ _ Hres) as (filled & Hg & -> & _).
        rewrite <- Ho, <- To, <- S3, <- C3, <- (gather_ids _ _ _ _ Hg).
        apply Permutation_map, rank_perm.
  - rewrite Hrej in Hon.
    eexists. split.
    + subst len. rewrite timer_events_add, Hev.
      cbn [RSVPDisplay.timer_events]. rewrite Hon. reflexivity.
    + right. eexists. split; [reflexivity|].
      destruct (step_frame tc (Trial.CallProcessResults block))
        as (F1 & F2 & _). cbn [Trial.step] in F1, F2.
      cbn. subst shown len d1. cbn. rewrite Tit, S4, Tpt.
      split; [exact Hrk|]. split; [reflexivity|]. split; [reflexivity|].
      change (fst (Trial.gather tc block))
        with (fst (Trial.process_results tc block)).
      split; [congruence|]. split; [congruence|].
      rewrite <- !app_assoc. reflexivity.
Qed.

Lemma started_trial_runs_to_a_verdict_witness :
  exists d tr,
    RSVPDisplay.rank_image_cb (RSVPDisplay.mk None false true [])
      [10; 20]%Z 2 false 20 [0; 0; 0; 1]%nat = (d, Ok tt) /\
    RSVPDisplay.trial d = Some tr /\
    let block := [mkBlockResult 1 4 0; mkBlockResult 2 2 0] in
    let len := length (Trial.index_list tr) in
    let shown := RSVPDisplay.effects d
                 ++ repeat (RSVPDisplay.SetTimer 250) len
                 ++ [RSVPDisplay.SetTimer 0]
                 ++ on_device (RSVPDisplay.use_bci d) [RSVPDisplay.EndBlock]
    in
    exists d',
      RSVPDisplay.timer_events (len + 1) d block false = (d', Ok tt) /\
      ((exists result,
           RSVPDisplay.trial d' = None /\ RSVPDisplay.ranking d' = false /\
           RSVPDisplay.effects d'
           = shown ++ [RSVPDisplay.SetSucceeded result] /\
           Permutation (option_ids result) (firstn 2 [10; 20]%Z)) \/
       (exists tr',
           RSVPDisplay.trial d' = Some tr' /\
           RSVPDisplay.ranking d' = true /\
           Trial.mode tr' = Trial.INIT /\ Trial.index_ptr tr' = 0%Z /\
           Trial.index_list tr' = Trial.index_list tr /\
           Trial.option_counts tr' = Trial.option_counts tr /\
           RSVPDisplay.effects d'
           = shown
             ++ on_device (RSVPDisplay.use_bci d) [RSVPDisplay.BeginBlock]
             ++ [RSVPDisplay.SetTimer 5000])).
Proof.
  eexists. eexists. split; [reflexivity|]. split; [reflexivity|].
  apply (started_trial_runs_to_a_verdict
           (RSVPDisplay.mk None false true []) _
           [10; 20]%Z 2 false 20 [0; 0; 0; 1]%nat).
  - reflexivity.
  - reflexivity.
  - reflexivity.
  - repeat constructor; discriminate.
Defined.

Section Requests.

(** The events that flash a stretch of the order. *)
Lemma timer_flashes_some (block : list BlockResult) (ib : bool)
    (mid : list nat) : forall pre post d tr,
  RSVPDisplay.trial d = Some tr ->
  Trial.index_list tr = pre ++ mid ++ post ->
  flashes_shown tr (length pre) ->
  Forall (fun i => (i < length (Trial.options tr))%nat) mid ->
  exists tr',
    RSVPDisplay.timer_events (length mid) d block ib
    = (RSVPDisplay.mk (Some tr') (RSVPDisplay.ranking d)
         (RSVPDisplay.use_bci d)
         (RSVPDisplay.effects d
          ++ repeat (RSVPDisplay.SetTimer (Trial.image_time tr))
               (length mid)),
       Ok tt) /\
    flashes_shown tr' (length (pre ++ mid)) /\
    same_sequence tr tr'.
Proof.
  induction mid as [|x mid IH]; intros pre post d tr Hd Hl Hm Hwf.
  - exists tr. cbn. rewrite !app_nil_r.
    destruct d; cbn in *; subst.
    repeat split; auto.
  - inversion Hwf as [|? ? Hx Hwf']; subst.
    pose proof (show_flash tr pre x (mid ++ post) Hl Hm) as Hshow.
    destruct (nth_error (Trial.options tr) x) as [id|] eqn:Eid;
      [|apply nth_error_None in Eid; lia].
    unfold flash_of in Hshow.
    rewrite (index_of_nat _ _ _ _ Eid) in Hshow. cbn [Py.bind] in Hshow.
    set (s1 := Trial.set_index_ptr (Trial.set_mode tr Trial.RUNNING)
                 (Z.of_nat (length pre))) in *.
    set (d1 := RSVPDisplay.emit (RSVPDisplay.set_trial d (Some s1))
                 [RSVPDisplay.SetTimer (Trial.image_time tr)]).
    assert (Hon : RSVPDisplay.on_timer d block ib = (d1, Ok tt)).
    { unfold RSVPDisplay.on_timer. rewrite Hd, Hshow. reflexivity. }
    destruct (IH (pre ++ [x]) post d1 s1) as (tr' & Hev & Hshown & Hsame).
    + reflexivity.
    + subst s1. cbn. rewrite Hl, <- app_assoc. reflexivity.
    + left. subst s1. cbn. split; [reflexivity|].
      rewrite length_app. cbn. lia.
    + exact Hwf'.
    + exists tr'. cbn [length RSVPDisplay.timer_events].
      rewrite Hon, Hev. split; [|split].
      * subst d1 s1. cbn. rewrite <- app_assoc. reflexivity.
      * rewrite <- app_assoc in Hshown. exact Hshown.
      * exact Hsame.
Qed.

Lemma shown_is_busy (d : RSVPDisplay.t) (tr : Trial.t) (n : nat) :
  RSVPDisplay.trial d = Some tr -> flashes_shown tr n ->
  RSVPDisplay.busy d = true.
Proof.
  intros Hd [[Hm _]|[Hm _]]; unfold RSVPDisplay.busy; now rewrite Hd, Hm.
Qed.

Lemma init_without_options (pt it : Q) (mn mx : Z) (fuel : nat)
    (g : Random.rng) :
  Trial.__init__ [] pt it mn mx fuel g
  = Ok (Trial.mk Trial.INIT pt it [] (Z.max 1 mn) (Z.max (Z.max 1 mn) mx)
          [] [] 0 None None None).
Proof.
  unfold Trial.__init__, Trial._construct_trial, Trial._nonadjacent.
  cbn [Trial.draw_counts Py.bind Py.enumerate Py.enumerate_from map
       Heapq.heapify Py.sorted fold_right].
  replace (Trial.nonadjacent_loop fuel [] None)
    with (Ok (A := list nat) []) by (destruct fuel; reflexivity).
  reflexivity.
Qed.

Lemma show_next_image_mode (s : Trial.t) :
  Trial.mode s <> Trial.ABORTED ->
  Trial.mode (fst (Trial.show_next_image s)) <> Trial.ABORTED.
Proof.
  intros Hm. unfold Trial.show_next_image.
  destruct (Trial.mode s) eqn:Em; cbn;
    try match goal with
        | |- context [if ?b then _ else _] => destruct b
        end; cbn; congruence.
Qed.

Lemma process_results_mode (s : Trial.t) (block : list BlockResult) :
  Trial.mode (fst (Trial.process_results s block)) = Trial.mode s.
Proof.
  unfold Trial.process_results, Trial.gather. cbn [fst].
  destruct (Trial.new_option_results _ _); cbn; auto.
  destruct (Trial.collect _ _ _ _); cbn; auto.
Qed.

Lemma step_mode (s : Trial.t) (c : Trial.call) :
  Trial.mode s <> Trial.ABORTED ->
  Trial.mode (Trial.step s c) <> Trial.ABORTED.
Proof.
  intros Hm. destruct c as [| |block]; cbn [Trial.step].
  - now apply show_next_image_mode.
  - cbn. discriminate.
  - now rewrite process_results_mode.
Qed.

(** One event of the timer reports no abort. *)
Lemma on_timer_never_aborts (d : RSVPDisplay.t) (block : list BlockResult)
    (ib : bool) :
  never_aborted d ->
  exists es,
    RSVPDisplay.effects (fst (RSVPDisplay.on_timer d block ib))
    = RSVPDisplay.effects d ++ es /\
    ~ In RSVPDisplay.SetAborted es /\
    never_aborted (fst (RSVPDisplay.on_timer d block ib)).
Proof.
  intros Hna. unfold RSVPDisplay.on_timer.
  destruct (RSVPDisplay.trial d) as [tr|] eqn:Hd.
  2:{ exists []. rewrite app_nil_r. cbn. repeat split; auto. }
  pose proof (show_next_image_mode tr (Hna tr Hd)) as Hm1.
  destruct (Trial.show_next_image tr) as [tr1 r]. cbn [fst] in Hm1.
  assert (Hset : never_aborted (RSVPDisplay.set_trial d (Some tr1))).
  { intros t Ht. cbn in Ht. congruence. }
  destruct r as [[wait disp]|e|].
  2,3: exists []; rewrite app_nil_r; cbn [fst]; repeat split; auto.
  pose proof (process_results_mode tr1 block) as Hm2.
  destruct (Trial.mode tr1) eqn:Em1; try congruence.
  1,2,3: exists [RSVPDisplay.SetTimer wait]; cbn [fst]; split;
    [reflexivity|split; [intros [H|[]]; discriminate|exact Hset]].
  destruct (Trial.process_results tr1 block) as [tr2 r2]. cbn [fst] in Hm2.
  destruct d as [dtr drk dub des]. unfold RSVPDisplay.bci_call.
  destruct r2 as [result|e|]; [|destruct e|]; destruct dub; cbn;
    (eexists; split; [rewrite <- ?app_assoc; reflexivity|]);
    (split; [cbn; intuition discriminate|]);
    intros t Ht; cbn in Ht; try discriminate;
    injection Ht as <-; cbn; congruence.
Qed.

End Requests.

(** X19: while a started trial is flashing, that is after any number of
    timer events up to the length of its order, the display has set the
    timer to 250 once per event and a new request, whatever it carries, is
    turned down with [set_aborted] and changes neither the trial nor the
    [ranking] flag. *)
Theorem running_trial_refuses_requests (d0 d : RSVPDisplay.t)
    (ids : list Z) (n_imgs : nat) (ib0 : bool) (fuel : nat)
    (g : Random.rng) (tr : Trial.t) (k : nat) (block : list BlockResult)
    (ib : bool) :
  RSVPDisplay.busy d0 = false ->
  RSVPDisplay.rank_image_cb d0 ids n_imgs ib0 fuel g = (d, Ok tt) ->
  RSVPDisplay.trial d = Some tr ->
  (k <= length (Trial.index_list tr))%nat ->
  exists dk,
    RSVPDisplay.timer_events k d block ib = (dk, Ok tt) /\
    RSVPDisplay.ranking dk = true /\
    RSVPDisplay.effects dk
    = RSVPDisplay.effects d ++ repeat (RSVPDisplay.SetTimer 250) k /\
    forall ids' n_imgs' ib' fuel' g',
      RSVPDisplay.rank_image_cb dk ids' n_imgs' ib' fuel' g'
      = (RSVPDisplay.mk (RSVPDisplay.trial dk) (RSVPDisplay.ranking dk)
           (RSVPDisplay.use_bci dk)
           (RSVPDisplay.effects dk ++ [RSVPDisplay.SetAborted]), Ok tt).
Proof.
  intros Hbusy Hcb Hd Hk.
  destruct (started_request _ _ _ _ _ _ _ _ Hbusy Hcb Hd)
    as (s0 & Hinit & _ & Htr & Hrk & _ & _).
  destruct (init_inv _ _ _ _ _ _ _ _ Hinit)
    as (_ & _ & _ & _ & Hit & _).
  destruct (init_order _ _ _ _ _ _ _ _ Hinit) as (_ & _ & Hwf).
  destruct (timer_flashes_some block ib (firstn k (Trial.index_list tr))
              [] (skipn k (Trial.index_list tr)) d tr)
    as (tr1 & Hev & Hshown & _).
  { exact Hd. }
  { cbn [app]. symmetry. apply firstn_skipn. }
  { right. subst tr. split; reflexivity. }
  { apply Forall_forall. intros i Hi.
    apply (In_firstn_skipn _ (Trial.index_list tr) 0 k i) in Hi.
    subst tr. cbn in *.
    rewrite Forall_forall in Hwf. now apply Hwf. }
  rewrite length_firstn, Nat.min_l in Hev by exact Hk.
  eexists. split; [exact Hev|]. cbn.
  split; [exact Hrk|]. split.
  { subst tr. cbn. rewrite Hit. reflexivity. }
  intros ids' n' ib' fuel' g'.
  unfold RSVPDisplay.rank_image_cb.
  match goal with
  | |- context [RSVPDisplay.busy ?x] =>
      rewrite (shown_is_busy x tr1 _ eq_refl Hshown)
  end.
  reflexivity.
Qed.

Lemma running_trial_refuses_requests_witness :
  exists d tr,
    RSVPDisplay.rank_image_cb (RSVPDisplay.mk None false true [])
      [10; 20]%Z 2 false 20 [0; 0; 0; 1]%nat = (d, Ok tt) /\
    RSVPDisplay.trial d = Some tr /\
    (4 <= length (Trial.index_list tr))%nat /\
    exists dk,
      RSVPDisplay.timer_events 4 d [] false = (dk, Ok tt) /\
      RSVPDisplay.ranking dk = true /\
      RSVPDisplay.effects dk
      = RSVPDisplay.effects d ++ repeat (RSVPDisplay.SetTimer 250) 4 /\
      forall ids' n_imgs' ib' fuel' g',
        RSVPDisplay.rank_image_cb dk ids' n_imgs' ib' fuel' g'
        = (RSVPDisplay.mk (RSVPDisplay.trial dk) (RSVPDisplay.ranking dk)
             (RSVPDisplay.use_bci dk)
             (RSVPDisplay.effects dk ++ [RSVPDisplay.SetAborted]), Ok tt).
Proof.
  eexists. eexists. split; [reflexivity|]. split; [reflexivity|].
  split; [vm_compute; lia|].
  eapply (running_trial_refuses_requests
           (RSVPDisplay.mk None false true []) _
           [10; 20]%Z 2 false 20 [0; 0; 0; 1]%nat).
  - reflexivity.
  - reflexivity.
  - reflexivity.
  - vm_compute. lia.
Defined.

(** X20: a request that carries images and no option id is taken on by a
    display that is not busy, builds a trial without options and raises
    [ZeroDivisionError] in the preview before any timer is armed; the
    display is left busy with [ranking] set and the timer off, and every
    later request is turned down with [set_aborted]. *)
Theorem request_without_ids_blocks_the_display (d0 : RSVPDisplay.t)
    (n_imgs : nat) (ib : bool) (fuel : nat) (g : Random.rng) :
  RSVPDisplay.busy d0 = false ->
  (0 < n_imgs)%nat ->
  exists d,
    RSVPDisplay.rank_image_cb d0 [] n_imgs ib fuel g
    = (d, Raise ZeroDivisionError) /\
    RSVPDisplay.busy d = true /\
    RSVPDisplay.ranking d = true /\
    RSVPDisplay.effects d
    = RSVPDisplay.effects d0
      ++ on_device (RSVPDisplay.use_bci d0 && ib) [RSVPDisplay.EndBlock]
      ++ [RSVPDisplay.SetTimer 0]
      ++ on_device (RSVPDisplay.use_bci d0) [RSVPDisplay.BeginBlock] /\
    forall ids' n_imgs' ib' fuel' g',
      RSVPDisplay.rank_image_cb d ids' n_imgs' ib' fuel' g'
      = (RSVPDisplay.mk (RSVPDisplay.trial d) (RSVPDisplay.ranking d)
           (RSVPDisplay.use_bci d)
           (RSVPDisplay.effects d ++ [RSVPDisplay.SetAborted]), Ok tt).
Proof.
  intros Hbusy Hn. unfold RSVPDisplay.rank_image_cb at 1. rewrite Hbusy.
  apply Nat.ltb_lt in Hn. rewrite Hn, firstn_nil, init_without_options.
  destruct d0 as [tr0 rk ub es].
  unfold RSVPDisplay.reset, RSVPDisplay.bci_call, on_device.
  destruct ub, ib; cbn; eexists; (split; [reflexivity|]);
    (split; [reflexivity|]); (split; [reflexivity|]);
    (split; [cbn; rewrite <- ?app_assoc; reflexivity|]);
    intros; reflexivity.
Qed.

Lemma request_without_ids_blocks_the_display_witness :
  exists d,
    RSVPDisplay.rank_image_cb (RSVPDisplay.mk None false true []) [] 2
      false 20 [] = (d, Raise ZeroDivisionError) /\
    RSVPDisplay.busy d = true /\
    RSVPDisplay.ranking d = true /\
    RSVPDisplay.effects d
    = [] ++ on_device (true && false) [RSVPDisplay.EndBlock]
      ++ [RSVPDisplay.SetTimer 0]
      ++ on_device true [RSVPDisplay.BeginBlock] /\
    forall ids' n_imgs' ib' fuel' g',
      RSVPDisplay.rank_image_cb d ids' n_imgs' ib' fuel' g'
      = (RSVPDisplay.mk (RSVPDisplay.trial d) (RSVPDisplay.ranking d)
           (RSVPDisplay.use_bci d)
           (RSVPDisplay.effects d ++ [RSVPDisplay.SetAborted]), Ok tt).
Proof.
  apply (request_without_ids_blocks_the_display
           (RSVPDisplay.mk None false true []) 2 false 20 []).
  - reflexivity.
  - lia.
Defined.

(** X21: no call of [show_next_image], [reset] or [process_results], in
    any order and whatever each returns or raises, brings a trial into
    mode ABORTED. *)
Theorem aborted_is_never_entered (calls : list Trial.call) (s : Trial.t) :
  Trial.mode s <> Trial.ABORTED ->
  Trial.mode (Trial.run s calls) <> Trial.ABORTED.
Proof.
  revert s. induction calls as [|c calls IH]; intros s Hm.
  - exact Hm.
  - cbn [Trial.run fold_left]. apply IH. now apply step_mode.
Qed.

Lemma aborted_is_never_entered_witness :
  Trial.mode two_option_trial <> Trial.ABORTED /\
  Trial.mode
    (Trial.run two_option_trial
       [Trial.CallShowNextImage; Trial.CallShowNextImage;
        Trial.CallProcessResults two_option_block; Trial.CallReset])
  <> Trial.ABORTED.
Proof.
  split.
  - vm_compute. discriminate.
  - apply (aborted_is_never_entered
             [Trial.CallShowNextImage; Trial.CallShowNextImage;
              Trial.CallProcessResults two_option_block; Trial.CallReset]
             two_option_trial).
    vm_compute. discriminate.
Defined.

(** X22: as long as the display holds no trial in mode ABORTED, timer
    events never report an abort: whatever the samples are and whether or
    not an event raises, the effects only grow, [set_aborted] is not among
    the new ones, and the display still holds no aborted trial. *)
Theorem timer_events_never_abort (n : nat) (block : list BlockResult)
    (ib : bool) (d : RSVPDisplay.t) :
  never_aborted d ->
  exists es,
    RSVPDisplay.effects (fst (RSVPDisplay.timer_events n d block ib))
    = RSVPDisplay.effects d ++ es /\
    ~ In RSVPDisplay.SetAborted es /\
    never_aborted (fst (RSVPDisplay.timer_events n d block ib)).
Proof.
  revert d. induction n as [|n IH]; intros d Hna.
  - exists []. rewrite app_nil_r. cbn. auto.
  - cbn [RSVPDisplay.timer_events].
    destruct (on_timer_never_aborts d block ib Hna) as (es1 & He1 & Hn1 & Hna1).
    destruct (RSVPDisplay.on_timer d block ib) as [d1 r1].
    cbn [fst] in He1, Hna1.
    destruct r1 as [u|e|].
    + destruct (IH d1 Hna1) as (es2 & He2 & Hn2 & Hna2).
      exists (es1 ++ es2). rewrite He2, He1, app_assoc.
      split; [reflexivity|]. split; [|exact Hna2].
      intros Hin. apply in_app_or in Hin. tauto.
    + exists es1. cbn [fst]. auto.
    + exists es1. cbn [fst]. auto.
Qed.

Lemma timer_events_never_abort_witness :
  let d := fst (RSVPDisplay.rank_image_cb (RSVPDisplay.mk None false true [])
                  [10; 20]%Z 2 false 20 [0; 0; 0; 1]%nat) in
  never_aborted d /\
  exists es,
    RSVPDisplay.effects (fst (RSVPDisplay.timer_events 9 d [] false))
    = RSVPDisplay.effects d ++ es /\
    ~ In RSVPDisplay.SetAborted es /\
    never_aborted (fst (RSVPDisplay.timer_events 9 d [] false)).
Proof.
  assert (H : never_aborted
                (fst (RSVPDisplay.rank_image_cb
                        (RSVPDisplay.mk None false true [])
                        [10; 20]%Z 2 false 20 [0; 0; 0; 1]%nat))).
  { intros tr Htr. vm_compute in Htr. injection Htr as <-. discriminate. }
  split; [exact H|].
  exact (timer_events_never_abort 9 [] false _ H).
Defined.
